(** * Tab prioritisation and clustering engine

    A shallow embedding of the two copies of the analysis and clustering
    logic of the repository:

    - the extension-local service, class [GroqAIService] of
      src/utils/ai-service.js, embedded in [Module Extension];
    - the backend service, class [GroqService], embedded in
      [Module Backend].

    Conventions of the embedding.

    - JavaScript values that come out of [JSON.parse] or are built by the
      code are elements of [value].  Numbers are exact rationals ([Q]); every
      number built by the code is a small integer or a quotient of two small
      integers, and the double-precision rounding of such quotients is not
      modelled.  Numbers built by the code are kept reduced ([Qred]).
    - Exceptions are explicit: a computation that may throw returns a
      [result].
    - [Array.prototype.sort] is stable; for a consistent comparator its
      result is the unique stable ordering, computed here by insertion.
    - The platform functions [new URL(u).hostname], [JSON.parse] and
      [String.prototype.localeCompare] are parameters of the sections that
      use them. *)

From Stdlib Require Import List ZArith QArith Qround String Ascii Bool Lia.
From Stdlib Require Import Permutation Sorted.
Import ListNotations.

Local Open Scope string_scope.
Local Open Scope Z_scope.

(** ** Exceptions *)

Inductive result (A : Type) : Type :=
| Ok (a : A)
| Throw (message : string).
Arguments Ok {A} a.
Arguments Throw {A} message.

Definition bind {A B : Type} (r : result A) (k : A -> result B) : result B :=
  match r with
  | Ok a => k a
  | Throw m => Throw m
  end.

Notation "x <- r ;; k" := (bind r (fun x => k))
  (at level 61, r at next level, right associativity).

(** [try { r } catch (e) { h e }] *)
Definition try_catch {A : Type} (r : result A) (h : string -> A) : A :=
  match r with
  | Ok a => a
  | Throw m => h m
  end.

(** ** Strings (sequences of 8-bit characters) *)

Module Str.

Fixpoint drop (n : nat) (s : string) : string :=
  match n, s with
  | O, _ => s
  | S n', String _ s' => drop n' s'
  | S _, EmptyString => EmptyString
  end.

Fixpoint take (n : nat) (s : string) : string :=
  match n, s with
  | O, _ => EmptyString
  | S n', String c s' => String c (take n' s')
  | S _, EmptyString => EmptyString
  end.

Definition is_empty (s : string) : bool :=
  match s with EmptyString => true | _ => false end.

(** [s.includes(pat)] *)
Fixpoint includes (pat s : string) : bool :=
  if prefix pat s then true
  else match s with
       | EmptyString => false
       | String _ s' => includes pat s'
       end.

(** [s.replace(pat, rep)] with a string pattern: only the first
    occurrence is replaced. *)
Fixpoint replace (pat rep s : string) : string :=
  if prefix pat s then rep ++ drop (String.length pat) s
  else match s with
       | EmptyString => EmptyString
       | String c s' => String c (replace pat rep s')
       end.

(** [s.split(sep)[0]] for a one-character separator: the text before
    the first separator, or all of [s]. *)
Fixpoint split_head (sep : ascii) (s : string) : string :=
  match s with
  | EmptyString => EmptyString
  | String c s' => if Ascii.eqb c sep then EmptyString else String c (split_head sep s')
  end.

Definition upper_char (c : ascii) : ascii :=
  let n := nat_of_ascii c in
  if (97 <=? n)%nat && (n <=? 122)%nat then ascii_of_nat (n - 32) else c.

Definition lower_char (c : ascii) : ascii :=
  let n := nat_of_ascii c in
  if (65 <=? n)%nat && (n <=? 90)%nat then ascii_of_nat (n + 32) else c.

(** [s.toLowerCase()] on ASCII text. *)
Fixpoint toLowerCase (s : string) : string :=
  match s with
  | EmptyString => EmptyString
  | String c s' => String (lower_char c) (toLowerCase s')
  end.

(** [s.charAt(0).toUpperCase() + s.slice(1)] on ASCII text. *)
Definition capitalize (s : string) : string :=
  match s with
  | EmptyString => EmptyString
  | String c s' => String (upper_char c) s'
  end.

(** [l.join(sep)] *)
Fixpoint join (sep : string) (l : list string) : string :=
  match l with
  | [] => EmptyString
  | [x] => x
  | x :: l' => x ++ sep ++ join sep l'
  end.

Definition is_space (c : ascii) : bool :=
  let n := nat_of_ascii c in
  (n =? 32)%nat || ((9 <=? n)%nat && (n <=? 13)%nat).

Fixpoint trim_start (s : string) : string :=
  match s with
  | String c s' => if is_space c then trim_start s' else s
  | EmptyString => EmptyString
  end.

(** [trim_end s] drops the trailing white space. *)
Fixpoint trim_end (s : string) : string :=
  match s with
  | EmptyString => EmptyString
  | String c s' =>
      let r := trim_end s' in
      if is_space c && is_empty r then EmptyString else String c r
  end.

(** [s.trim()] *)
Definition trim (s : string) : string := trim_end (trim_start s).

(** [\w] of regular expressions. *)
Definition is_word (c : ascii) : bool :=
  let n := nat_of_ascii c in
  ((48 <=? n)%nat && (n <=? 57)%nat) || ((65 <=? n)%nat && (n <=? 90)%nat)
  || ((97 <=? n)%nat && (n <=? 122)%nat) || (n =? 95)%nat.

(** [s.split(/\W+/)]: the pieces between maximal runs of non-word
    characters.  [cur] is the piece being read, [in_sep] tells whether
    the previous character was a separator. *)
Fixpoint split_nonword_aux (s : string) (cur : string) (in_sep : bool) : list string :=
  match s with
  | EmptyString => [cur]
  | String c s' =>
      if is_word c then split_nonword_aux s' (cur ++ String c EmptyString) false
      else if in_sep then split_nonword_aux s' cur true
           else cur :: split_nonword_aux s' EmptyString true
  end.

Definition split_nonword (s : string) : list string :=
  split_nonword_aux s EmptyString false.

(** The greedy match of [/<open>[\s\S]*<close>/]: from the first [open]
    to the last [close] after it. *)
Fixpoint upto_last (close : ascii) (s : string) : option string :=
  match s with
  | EmptyString => None
  | String c s' =>
      match upto_last close s' with
      | Some r => Some (String c r)
      | None => if Ascii.eqb c close then Some (String c EmptyString) else None
      end
  end.

Fixpoint match_span (open close : ascii) (s : string) : option string :=
  match s with
  | EmptyString => None
  | String c s' =>
      if Ascii.eqb c open then
        match upto_last close s' with
        | Some r => Some (String c r)
        | None => None
        end
      else match_span open close s'
  end.

End Str.

(** ** Stable sorting: [Array.prototype.sort] *)

Section StableSort.
Context {A : Type}.
(** [le a b] stands for [compareFn(a, b) <= 0]. *)
Variable le : A -> A -> bool.

Fixpoint insert (x : A) (l : list A) : list A :=
  match l with
  | [] => [x]
  | y :: l' => if le x y then x :: l else y :: insert x l'
  end.

Definition sort (l : list A) : list A := fold_right insert [] l.
End StableSort.

(** ** JavaScript values *)

#[local] Set Warnings "-register-all".

Inductive value : Type :=
| VUndefined
| VNull
| VBool (b : bool)
| VNum (q : Q)
| VNaN
| VStr (s : string)
| VArr (elements : list value)
| VObj (properties : list (string * value)).

(** An integer as a JavaScript number. *)
Definition VInt (n : Z) : value := VNum (inject_Z n).

Module JS.

(** ToBoolean *)
Definition truthy (v : value) : bool :=
  match v with
  | VUndefined | VNull | VNaN => false
  | VBool b => b
  | VNum q => negb (Qeq_bool q 0)
  | VStr s => negb (Str.is_empty s)
  | VArr _ | VObj _ => true
  end.

(** [a || b] *)
Definition or (a b : value) : value := if truthy a then a else b.

Fixpoint lookup (k : string) (ps : list (string * value)) : option value :=
  match ps with
  | [] => None
  | (k', v) :: ps' => if String.eqb k k' then Some v else lookup k ps'
  end.

(** [o[k] = v] on the property list of an object: an existing property
    keeps its place, a new one goes last. *)
Fixpoint update (k : string) (v : value) (ps : list (string * value))
  : list (string * value) :=
  match ps with
  | [] => [(k, v)]
  | (k', v') :: ps' =>
      if String.eqb k k' then (k, v) :: ps' else (k', v') :: update k v ps'
  end.

(** [o.k] for the property names the code reads ([name], [tabIds],
    [summary], ...): none of them is a built-in property of a primitive
    or of an array, so only objects can answer; reading a property of
    [null] or [undefined] throws a TypeError. *)
Definition get (o : value) (k : string) : result value :=
  match o with
  | VUndefined | VNull => Throw ("Cannot read properties of null or undefined (reading '" ++ k ++ "')")
  | VObj ps => Ok (match lookup k ps with Some v => v | None => VUndefined end)
  | _ => Ok VUndefined
  end.

(** [o.k = v] on an object. *)
Definition set (o : value) (k : string) (v : value) : value :=
  match o with
  | VObj ps => VObj (update k v ps)
  | _ => o
  end.

(** The rational [q] as an integer, when it is one. *)
Definition int_of_Q (q : Q) : option Z :=
  let r := Qred q in
  if Pos.eqb (Qden r) 1 then Some (Qnum r) else None.

(** [Math.round(x)]: the nearest integer, halves upwards. *)
Definition round (x : Q) : Z := Qfloor (x + (1 # 2)).

(** [Math.round(x * 10) / 10] *)
Definition round1 (x : Q) : Q := Qred (inject_Z (round (x * inject_Z 10)) / inject_Z 10).

(** ** [parseInt] *)

Definition digit_of (radix : Z) (c : ascii) : option Z :=
  let n := Z.of_nat (nat_of_ascii c) in
  let d := if (48 <=? n) && (n <=? 57) then n - 48
           else if (97 <=? n) && (n <=? 122) then n - 87
           else if (65 <=? n) && (n <=? 90) then n - 55
           else 99 in
  if d <? radix then Some d else None.

(** The longest prefix of digits, read in [radix]; [acc] is the number
    read so far, [None] when no digit has been read. *)
Fixpoint read_digits (radix : Z) (s : string) (acc : option Z) : option Z :=
  match s with
  | EmptyString => acc
  | String c s' =>
      match digit_of radix c with
      | Some d => read_digits radix s' (Some (match acc with Some a => a * radix + d | None => d end))
      | None => acc
      end
  end.

Definition read_unsigned (s : string) : option Z :=
  match s with
  | String "0" (String x s') =>
      if Ascii.eqb x "x" || Ascii.eqb x "X" then read_digits 16 s' None
      else read_digits 10 s None
  | _ => read_digits 10 s None
  end.

(** [parseInt(s)] of a string: white space, a sign, an optional [0x],
    digits; [None] is NaN. *)
Definition parseInt_string (s : string) : option Z :=
  match Str.trim_start s with
  | String "-" s' => option_map Z.opp (read_unsigned s')
  | String "+" s' => read_unsigned s'
  | s' => read_unsigned s'
  end.

(** [parseInt(v)] converts [v] to a string first.  A number in decimal
    notation (magnitude from 1e-6 up to 1e21, or zero) loses its
    fraction; an array prints its elements separated by commas, [null]
    and [undefined] elements printing as nothing; every other value
    prints as text that starts with no digit. *)
Fixpoint parseInt (v : value) : option Z :=
  match v with
  | VNum q => Some (Z.quot (Qnum q) (Zpos (Qden q)))
  | VStr s => parseInt_string s
  | VArr (x :: _) => parseInt x
  | _ => None
  end.

End JS.

(** ** Data model *)

(** A raw tab record, as the content extraction supplies it.  An absent
    [metaDescription] and an empty one take the same branch of every
    [|| default] in the code, and likewise for [headings]. *)
Module Tab.
Record t : Type := make {
  id : Z;
  title : string;
  url : string;
  metaDescription : string;
  headings : list string;
  textContent : string
}.
End Tab.

(** The per-tab analysis, as [clusterAndSortTabs] reads it. *)
Record TabAnalysis : Type := mkTabAnalysis {
  id : Z;
  title : string;
  url : string;
  summary : value;
  priorityScore : Z;
  priorityRationale : value;
  topics : value;
  error : option string
}.

(** The object literals [{name, description, tabIds, clusterPriority}]
    that the code itself builds. *)
Record Cluster : Type := mkCluster {
  name : string;
  description : string;
  tabIds : list Z;
  clusterPriority : Q
}.

Definition Cluster_value (c : Cluster) : value :=
  VObj [("name", VStr (name c));
        ("description", VStr (description c));
        ("tabIds", VArr (map VInt (tabIds c)));
        ("clusterPriority", VNum (clusterPriority c))].

(** What the inference provider call comes to: [Fails m] is any exception
    raised before the reply text is at hand (the request is rejected, the
    status is not 2xx, the body is not JSON, [choices[0].message.content]
    is missing); [Replies c] is the text at [choices[0].message.content]. *)
Inductive provider_outcome : Type :=
| Fails (message : string)
| Replies (content : string).

Definition reply_text (o : provider_outcome) : result string :=
  match o with
  | Fails m => Throw m
  | Replies c => Ok (Str.trim c)
  end.

(** [new Map(tabSummaries.map(tab => [tab.id, tab]))]: the last tab with a
    given id is the one the map holds. *)
Definition tabMap (tabSummaries : list TabAnalysis) (k : Z) : option TabAnalysis :=
  find (fun tab => id tab =? k) (rev tabSummaries).

Definition has {A : Type} (m : Z -> option A) (k : Z) : bool :=
  match m k with Some _ => true | None => false end.

(** [assignedTabIds.has(k)] for the set of ids claimed so far. *)
Definition mem (k : Z) (s : list Z) : bool := existsb (Z.eqb k) s.

(** The key under which a value is looked up in a map whose keys are
    integers: numbers equal to an integer, nothing else. *)
Definition key_of (v : value) : option Z :=
  match v with
  | VNum q => JS.int_of_Q q
  | _ => None
  end.

Definition sum (l : list Z) : Z := fold_left Z.add l 0.

(** [sum / n] of an integer sum and a positive count, reduced. *)
Definition quotient (s : Z) (n : nat) : Q := Qred (inject_Z s / inject_Z (Z.of_nat n)).

(** The number a cluster's [clusterPriority] holds, [None] for NaN or
    anything that is no number. *)
Definition priority_of (c : value) : option Q :=
  match JS.get c "clusterPriority" with
  | Ok (VNum q) => Some q
  | _ => None
  end.

(** [(a, b) => a.clusterPriority - b.clusterPriority] is at most 0; a
    comparator result of NaN counts as 0. *)
Definition priority_le (a b : value) : bool :=
  match priority_of a, priority_of b with
  | Some p, Some q => Qle_bool (p - q) 0
  | _, _ => true
  end.

(** The ids a cluster object lists. *)
Definition tabIds_of (c : value) : list value :=
  match JS.get c "tabIds" with
  | Ok (VArr l) => l
  | _ => []
  end.

(** A [Map] with string keys, in insertion order. *)
Module SMap.
Definition t (A : Type) : Type := list (string * A).

Definition has {A : Type} (k : string) (m : t A) : bool :=
  existsb (fun e => String.eqb k (fst e)) m.

(** [m.set(k, v)] for a key that [m] does not hold. *)
Definition add {A : Type} (k : string) (v : A) (m : t A) : t A := (m ++ [(k, v)])%list.

(** Apply [f] to the entry at [k]. *)
Definition adjust {A : Type} (f : A -> A) (k : string) (m : t A) : t A :=
  map (fun e => if String.eqb k (fst e) then (fst e, f (snd e)) else e) m.

Definition values {A : Type} (m : t A) : list A := map snd m.
End SMap.

Definition push (tabId : Z) (c : Cluster) : Cluster :=
  {| name := name c; description := description c;
     tabIds := (tabIds c ++ [tabId])%list; clusterPriority := clusterPriority c |}.

Definition is_nil {A : Type} (l : list A) : bool :=
  match l with [] => true | _ => false end.

(** [apiKey] is set and not empty. *)
Definition present (apiKey : option string) : bool :=
  match apiKey with
  | Some k => negb (Str.is_empty k)
  | None => false
  end.

(** ** The extension-local service: class [GroqAIService] *)

Module Extension.

(** What [analyzeAndPrioritizeTab] returns. *)
Module Analysis.
Record t : Type := make {
  summary : value;
  priorityScore : Z;
  priorityRationale : value;
  topics : value
}.
End Analysis.

Definition domains : list string :=
  ["technology"; "programming"; "business"; "science"; "news"; "education";
   "documentation"; "tutorial"; "api"; "framework"].

Definition extractBasicTopics (tabData : Tab.t) : list string :=
  let text := Str.toLowerCase
                (Tab.title tabData ++ " " ++ Tab.metaDescription tabData ++ " "
                 ++ Str.join " " (Tab.headings tabData)) in
  firstn 3 (filter (fun domain => Str.includes domain text) domains).

Section Service.
Variable URL_hostname : string -> option string.
Variable JSON_parse : string -> result value.
Variable localeCompare : string -> string -> Z.

Definition analyzeAndPrioritizeTab (apiKey : option string) (tabData : Tab.t)
    (reply : provider_outcome) : result Analysis.t :=
  if negb (present apiKey) then Throw "Groq API key not configured"
  else
    Ok (try_catch
          (content <- reply_text reply ;;
           match Str.match_span "{" "}" content with
           | Some jsonMatch =>
               parsed <- JSON_parse jsonMatch ;;
               s <- JS.get parsed "summary" ;;
               p <- JS.get parsed "priorityScore" ;;
               r <- JS.get parsed "priorityRationale" ;;
               t <- JS.get parsed "topics" ;;
               Ok {| Analysis.summary := JS.or s (VStr (Tab.title tabData));
                     Analysis.priorityScore :=
                       Z.min 5 (Z.max 1 (match JS.parseInt p with
                                         | Some n => if n =? 0 then 3 else n
                                         | None => 3
                                         end));
                     Analysis.priorityRationale := JS.or r (VStr "Standard content");
                     Analysis.topics :=
                       JS.or t (VArr (map VStr (extractBasicTopics tabData))) |}
           | None => Throw "Invalid JSON response"
           end)
          (fun _ =>
             {| Analysis.summary :=
                  VStr (Tab.title tabData ++ " - "
                        ++ (if Str.is_empty (Tab.metaDescription tabData)
                            then "Web page content"
                            else Tab.metaDescription tabData));
                Analysis.priorityScore := 3;
                Analysis.priorityRationale :=
                  VStr "Unable to analyze - default priority assigned";
                Analysis.topics := VArr (map VStr (extractBasicTopics tabData)) |})).

(** The body of [tabSummaries.forEach(tab => ...)]; a tab whose URL
    does not parse is skipped. *)
Definition place (clusters : SMap.t Cluster) (tab : TabAnalysis) : SMap.t Cluster :=
  match URL_hostname (url tab) with
  | Some hostname =>
      let domain := Str.replace "www." EmptyString hostname in
      let clusterKey := Str.split_head "." domain in
      let clusters :=
        if SMap.has clusterKey clusters then clusters
        else SMap.add clusterKey
               {| name := Str.capitalize clusterKey;
                  description := "Pages from " ++ domain;
                  tabIds := [];
                  clusterPriority := 0 |} clusters in
      SMap.adjust (push (id tab)) clusterKey clusters
  | None => clusters
  end.

(** [tabMap.get(k)?.priorityScore || 3] *)
Definition scoreOr3 (tabSummaries : list TabAnalysis) (k : Z) : Z :=
  match tabMap tabSummaries k with
  | Some tab => if priorityScore tab =? 0 then 3 else priorityScore tab
  | None => 3
  end.

Definition settle (tabSummaries : list TabAnalysis) (cluster : Cluster) : Cluster :=
  let ids := sort (fun a b => scoreOr3 tabSummaries a - scoreOr3 tabSummaries b <=? 0)
                  (tabIds cluster) in
  {| name := name cluster; description := description cluster;
     tabIds := ids;
     clusterPriority := quotient (sum (map (scoreOr3 tabSummaries) ids)) (List.length ids) |}.

Definition fallbackClustering (tabSummaries : list TabAnalysis) : list value :=
  let clusters := fold_left place tabSummaries [] in
  let result := map (settle tabSummaries)
                    (filter (fun cluster => negb (is_nil (tabIds cluster)))
                            (SMap.values clusters)) in
  map Cluster_value
      (sort (fun a b => Qle_bool (clusterPriority a - clusterPriority b) 0) result).

(** [cluster.name && cluster.tabIds && Array.isArray(cluster.tabIds)]:
    a candidate is kept with its array of ids. *)
Definition candidate (cluster : value) : result (option (value * list value)) :=
  n <- JS.get cluster "name" ;;
  if JS.truthy n then
    t <- JS.get cluster "tabIds" ;;
    Ok (match t with
        | VArr ids => Some (cluster, ids)
        | _ => None
        end)
  else Ok None.

Fixpoint candidates (clusters : list value) : result (list (value * list value)) :=
  match clusters with
  | [] => Ok []
  | cluster :: rest =>
      c <- candidate cluster ;;
      r <- candidates rest ;;
      Ok (match c with Some x => x :: r | None => r end)
  end.

(** [cluster.tabIds.filter(id => ...)]: the ids kept, and
    [assignedTabIds] afterwards. *)
Fixpoint claim (tabSummaries : list TabAnalysis) (assignedTabIds : list Z)
    (ids : list value) : list Z * list Z :=
  match ids with
  | [] => ([], assignedTabIds)
  | v :: rest =>
      match key_of v with
      | Some k =>
          if has (tabMap tabSummaries) k && negb (mem k assignedTabIds)
          then let '(kept, assigned) := claim tabSummaries (k :: assignedTabIds) rest in
               (k :: kept, assigned)
          else claim tabSummaries assignedTabIds rest
      | None => claim tabSummaries assignedTabIds rest
      end
  end.

(** The comparator of [cluster.tabIds.sort].  Every id it meets has
    passed [tabMap.has]; the last case stands for the TypeError of
    reading [priorityScore] of [undefined]. *)
Definition compareIds (tabSummaries : list TabAnalysis) (a b : Z) : Z :=
  match tabMap tabSummaries a, tabMap tabSummaries b with
  | Some tabA, Some tabB =>
      if negb (priorityScore tabA =? priorityScore tabB)
      then priorityScore tabA - priorityScore tabB
      else localeCompare (title tabA) (title tabB)
  | _, _ => 0
  end.

(** [tabMap.get(id).priorityScore], under the same proviso. *)
Definition scoreAt (tabSummaries : list TabAnalysis) (k : Z) : Z :=
  match tabMap tabSummaries k with
  | Some tab => priorityScore tab
  | None => 0
  end.

(** The body of [.map(cluster => ...)]. *)
Definition revise (tabSummaries : list TabAnalysis) (assignedTabIds : list Z)
    (c : value * list value) : value * list Z :=
  let '(cluster, ids) := c in
  let '(kept, assigned) := claim tabSummaries assignedTabIds ids in
  let sorted := sort (fun a b => compareIds tabSummaries a b <=? 0) kept in
  let cluster := JS.set cluster "tabIds" (VArr (map VInt sorted)) in
  let clusterPriority :=
    match sorted with
    | [] => VNaN
    | _ => VNum (JS.round1 (quotient (sum (map (scoreAt tabSummaries) sorted))
                                     (List.length sorted)))
    end in
  (JS.set cluster "clusterPriority" clusterPriority, assigned).

Fixpoint reviseAll (tabSummaries : list TabAnalysis) (assignedTabIds : list Z)
    (cs : list (value * list value)) : list value * list Z :=
  match cs with
  | [] => ([], assignedTabIds)
  | c :: rest =>
      let '(cluster, assigned) := revise tabSummaries assignedTabIds c in
      let '(clusters, assigned') := reviseAll tabSummaries assigned rest in
      (cluster :: clusters, assigned')
  end.

(** [(a, b) => a.priorityScore - b.priorityScore ||
    a.title.localeCompare(b.title)] *)
Definition compareTabs (a b : TabAnalysis) : Z :=
  let d := priorityScore a - priorityScore b in
  if d =? 0 then localeCompare (title a) (title b) else d.

Definition validateAndSortClusters (clusters : value)
    (tabSummaries : list TabAnalysis) : result (list value) :=
  match clusters with
  | VArr clusters =>
      cs <- candidates clusters ;;
      let '(revised, assignedTabIds) := reviseAll tabSummaries [] cs in
      let validClusters :=
        filter (fun cluster => negb (is_nil (tabIds_of cluster))) revised in
      let unassignedTabs :=
        filter (fun tab => negb (mem (id tab) assignedTabIds)) tabSummaries in
      let validClusters :=
        if negb (is_nil unassignedTabs) then
          let sortedUnassigned :=
            sort (fun a b => compareTabs a b <=? 0) unassignedTabs in
          (validClusters ++
             [Cluster_value
                {| name := "Other";
                   description := "Uncategorized tabs";
                   tabIds := map id sortedUnassigned;
                   clusterPriority :=
                     quotient (sum (map priorityScore sortedUnassigned))
                              (List.length sortedUnassigned) |}])%list
        else validClusters in
      Ok (sort priority_le validClusters)
  | _ => Ok (fallbackClustering tabSummaries)
  end.

Definition clusterAndSortTabs (apiKey : option string) (reply : provider_outcome)
    (tabSummaries : list TabAnalysis) : list value :=
  if negb (present apiKey) || (List.length tabSummaries <? 2)%nat
  then fallbackClustering tabSummaries
  else
    try_catch
      (content <- reply_text reply ;;
       match Str.match_span "[" "]" content with
       | Some jsonMatch =>
           clusters <- JSON_parse jsonMatch ;;
           validateAndSortClusters clusters tabSummaries
       | None => Throw "Invalid JSON response"
       end)
      (fun _ => fallbackClustering tabSummaries).

End Service.
End Extension.

(** ** The backend service: class [GroqService] *)

Module Backend.

(** What [analyzeTabs] returns. *)
Module AnalysisResult.
Record t : Type := make {
  summaries : list TabAnalysis;
  clusters : list value;
  processed : nat;
  errors : nat
}.
End AnalysisResult.

Definition commonWords : list string :=
  ["the"; "a"; "an"; "and"; "or"; "but"; "in"; "on"; "at"; "to"; "for";
   "of"; "with"; "by"; "is"; "are"; "was"; "were"; "this"; "that"; "these"; "those"].

Definition extractTopics (text : string) (tab : Tab.t) : list string :=
  let content := Str.toLowerCase
                   (text ++ " " ++ Tab.title tab ++ " " ++ Tab.metaDescription tab) in
  let words := Str.split_nonword content in
  firstn 5 (filter (fun word => (3 <? String.length word)%nat
                                && negb (existsb (String.eqb word) commonWords))
                   words).

(** [s => s.error] as a condition. *)
Definition failed (s : TabAnalysis) : bool := present (error s).

Section Service.
Variable URL_hostname : string -> option string.
Variable JSON_parse : string -> result value.
Variable localeCompare : string -> string -> Z.

Definition analyzeAndPrioritizeTab (tab : Tab.t) (reply : provider_outcome)
    : result TabAnalysis :=
  content <- reply_text reply ;;
  let unable :=
    {| id := Tab.id tab; title := Tab.title tab; url := Tab.url tab;
       summary := VStr (Str.take 200 content);
       priorityScore := 3;
       priorityRationale := VStr "Unable to determine priority";
       topics := VArr (map VStr (extractTopics content tab));
       error := None |} in
  Ok (try_catch
        (match Str.match_span "{" "}" content with
         | Some jsonMatch =>
             parsed <- JSON_parse jsonMatch ;;
             s <- JS.get parsed "summary" ;;
             p <- JS.get parsed "priorityScore" ;;
             r <- JS.get parsed "priorityRationale" ;;
             t <- JS.get parsed "topics" ;;
             Ok {| id := Tab.id tab; title := Tab.title tab; url := Tab.url tab;
                   summary := JS.or s (VStr (Tab.title tab));
                   priorityScore :=
                     Z.min 5 (Z.max 1 (match JS.parseInt p with
                                       | Some n => if n =? 0 then 3 else n
                                       | None => 3
                                       end));
                   priorityRationale := JS.or r (VStr "Standard content");
                   topics := JS.or t (VArr (map VStr (extractTopics content tab)));
                   error := None |}
         | None => Ok unable
         end)
        (fun _ => unable)).

(** [this.analyzeAndPrioritizeTab(tab).catch(err => ...)] *)
Definition analyzeOrDefault (call : Tab.t * provider_outcome) : TabAnalysis :=
  let '(tab, reply) := call in
  try_catch (analyzeAndPrioritizeTab tab reply)
    (fun message =>
       {| id := Tab.id tab; title := Tab.title tab; url := Tab.url tab;
          summary := VStr (Tab.title tab ++ " - "
                           ++ (if Str.is_empty (Tab.metaDescription tab)
                               then "Web page content"
                               else Tab.metaDescription tab));
          priorityScore := 3;
          priorityRationale := VStr "Analysis unavailable";
          topics := VArr [];
          error := Some message |}).

Definition place (domainClusters : SMap.t Cluster) (tab : TabAnalysis)
    : SMap.t Cluster :=
  match URL_hostname (url tab) with
  | Some hostname =>
      let domain := Str.replace "www." EmptyString hostname in
      let key := let k := Str.split_head "." domain in
                 if Str.is_empty k then "unknown" else k in
      let domainClusters :=
        if SMap.has key domainClusters then domainClusters
        else SMap.add key
               {| name := Str.capitalize key;
                  description := "Pages from " ++ domain;
                  tabIds := [];
                  clusterPriority := 0 |} domainClusters in
      SMap.adjust (push (id tab)) key domainClusters
  | None =>
      let domainClusters :=
        if SMap.has "other" domainClusters then domainClusters
        else SMap.add "other"
               {| name := "Other";
                  description := "Miscellaneous pages";
                  tabIds := [];
                  clusterPriority := 0 |} domainClusters in
      SMap.adjust (push (id tab)) "other" domainClusters
  end.

(** [tabMap.get(k)?.priorityScore || 3] *)
Definition scoreOr3 (tabSummaries : list TabAnalysis) (k : Z) : Z :=
  match tabMap tabSummaries k with
  | Some tab => if priorityScore tab =? 0 then 3 else priorityScore tab
  | None => 3
  end.

Definition settle (tabSummaries : list TabAnalysis) (cluster : Cluster) : Cluster :=
  let ids := sort (fun a b => scoreOr3 tabSummaries a - scoreOr3 tabSummaries b <=? 0)
                  (tabIds cluster) in
  {| name := name cluster; description := description cluster;
     tabIds := ids;
     clusterPriority :=
       quotient (sum (map (scoreOr3 tabSummaries) ids)) (List.length ids) |}.

Definition fallbackClustering (tabSummaries : list TabAnalysis) : list value :=
  let domainClusters := fold_left place tabSummaries [] in
  let result := map (settle tabSummaries)
                    (filter (fun cluster => negb (is_nil (tabIds cluster)))
                            (SMap.values domainClusters)) in
  map Cluster_value
      (sort (fun a b => Qle_bool (clusterPriority a - clusterPriority b) 0) result).

Definition parseClusteringResponse (responseText : string)
    (tabSummaries : list TabAnalysis) : value :=
  try_catch
    (match Str.match_span "[" "]" responseText with
     | Some jsonMatch => JSON_parse jsonMatch
     | None => JSON_parse responseText
     end)
    (fun _ => VArr (fallbackClustering tabSummaries)).

(** [cluster.name && cluster.tabIds && Array.isArray(cluster.tabIds)]:
    a candidate is kept with its array of ids. *)
Definition candidate (cluster : value) : result (option (value * list value)) :=
  n <- JS.get cluster "name" ;;
  if JS.truthy n then
    t <- JS.get cluster "tabIds" ;;
    Ok (match t with
        | VArr ids => Some (cluster, ids)
        | _ => None
        end)
  else Ok None.

Fixpoint candidates (clusters : list value) : result (list (value * list value)) :=
  match clusters with
  | [] => Ok []
  | cluster :: rest =>
      c <- candidate cluster ;;
      r <- candidates rest ;;
      Ok (match c with Some x => x :: r | None => r end)
  end.

(** [cluster.tabIds.filter(id => ...)]: the ids kept, and
    [assignedTabIds] afterwards. *)
Fixpoint claim (tabSummaries : list TabAnalysis) (assignedTabIds : list Z)
    (ids : list value) : list Z * list Z :=
  match ids with
  | [] => ([], assignedTabIds)
  | v :: rest =>
      match key_of v with
      | Some k =>
          if has (tabMap tabSummaries) k && negb (mem k assignedTabIds)
          then let '(kept, assigned) := claim tabSummaries (k :: assignedTabIds) rest in
               (k :: kept, assigned)
          else claim tabSummaries assignedTabIds rest
      | None => claim tabSummaries assignedTabIds rest
      end
  end.

(** The comparator of [cluster.tabIds.sort].  Every id it meets has
    passed [tabMap.has]; the last case stands for the TypeError of
    reading [priorityScore] of [undefined]. *)
Definition compareIds (tabSummaries : list TabAnalysis) (a b : Z) : Z :=
  match tabMap tabSummaries a, tabMap tabSummaries b with
  | Some tabA, Some tabB =>
      if negb (priorityScore tabA =? priorityScore tabB)
      then priorityScore tabA - priorityScore tabB
      else localeCompare (title tabA) (title tabB)
  | _, _ => 0
  end.

(** [tabMap.get(id).priorityScore], under the same proviso. *)
Definition scoreAt (tabSummaries : list TabAnalysis) (k : Z) : Z :=
  match tabMap tabSummaries k with
  | Some tab => priorityScore tab
  | None => 0
  end.

(** The body of [.map(cluster => ...)]. *)
Definition revise (tabSummaries : list TabAnalysis) (assignedTabIds : list Z)
    (c : value * list value) : value * list Z :=
  let '(cluster, ids) := c in
  let '(kept, assigned) := claim tabSummaries assignedTabIds ids in
  let sorted := sort (fun a b => compareIds tabSummaries a b <=? 0) kept in
  let cluster := JS.set cluster "tabIds" (VArr (map VInt sorted)) in
  let clusterPriority :=
    match sorted with
    | [] => VNaN
    | _ => VNum (JS.round1 (quotient (sum (map (scoreAt tabSummaries) sorted))
                                     (List.length sorted)))
    end in
  (JS.set cluster "clusterPriority" clusterPriority, assigned).

Fixpoint reviseAll (tabSummaries : list TabAnalysis) (assignedTabIds : list Z)
    (cs : list (value * list value)) : list value * list Z :=
  match cs with
  | [] => ([], assignedTabIds)
  | c :: rest =>
      let '(cluster, assigned) := revise tabSummaries assignedTabIds c in
      let '(clusters, assigned') := reviseAll tabSummaries assigned rest in
      (cluster :: clusters, assigned')
  end.

(** [(a, b) => a.priorityScore - b.priorityScore ||
    a.title.localeCompare(b.title)] *)
Definition compareTabs (a b : TabAnalysis) : Z :=
  let d := priorityScore a - priorityScore b in
  if d =? 0 then localeCompare (title a) (title b) else d.

Definition validateAndSortClusters (clusters : value)
    (tabSummaries : list TabAnalysis) : result (list value) :=
  match clusters with
  | VArr clusters =>
      cs <- candidates clusters ;;
      let '(revised, assignedTabIds) := reviseAll tabSummaries [] cs in
      let validClusters :=
        filter (fun cluster => negb (is_nil (tabIds_of cluster))) revised in
      let unassignedTabs :=
        filter (fun tab => negb (mem (id tab) assignedTabIds)) tabSummaries in
      let validClusters :=
        if negb (is_nil unassignedTabs) then
          let sortedUnassigned :=
            sort (fun a b => compareTabs a b <=? 0) unassignedTabs in
          (validClusters ++
             [Cluster_value
                {| name := "Other";
                   description := "Uncategorized tabs";
                   tabIds := map id sortedUnassigned;
                   clusterPriority :=
                     quotient (sum (map priorityScore sortedUnassigned))
                              (List.length sortedUnassigned) |}])%list
        else validClusters in
      Ok (sort priority_le validClusters)
  | _ => Ok (fallbackClustering tabSummaries)
  end.

Definition clusterAndSortTabs (reply : provider_outcome)
    (tabSummaries : list TabAnalysis) : list value :=
  if (List.length tabSummaries <? 2)%nat then
    [Cluster_value
       {| name := "All Tabs";
          description := "All your open tabs";
          tabIds := map id tabSummaries;
          clusterPriority :=
            inject_Z (match tabSummaries with
                      | tab :: _ => if priorityScore tab =? 0 then 3 else priorityScore tab
                      | [] => 3
                      end) |}]
  else
    try_catch
      (clustersText <- reply_text reply ;;
       let clusters := parseClusteringResponse clustersText tabSummaries in
       validateAndSortClusters clusters tabSummaries)
      (fun _ => fallbackClustering tabSummaries).

(** [calls] pairs each tab with the outcome of its provider call,
    [clustering] is the outcome of the one clustering call.  Nothing
    inside the [try] block throws, so its [catch] is never entered. *)
Definition analyzeTabs (calls : list (Tab.t * provider_outcome))
    (clustering : provider_outcome) : result AnalysisResult.t :=
  let summaries := map analyzeOrDefault calls in
  let clusters := clusterAndSortTabs clustering summaries in
  Ok {| AnalysisResult.summaries := filter (fun s => negb (failed s)) summaries;
        AnalysisResult.clusters := clusters;
        AnalysisResult.processed := List.length summaries;
        AnalysisResult.errors := List.length (filter failed summaries) |}.

End Service.
End Backend.

(** ** Reference instances of the platform functions

    The services are stated over any [URL_hostname], [JSON_parse] and
    [localeCompare].  The instances below run them on concrete inputs. *)

Module Platform.

(** *** Host names

    [hostname] reads texts of the form [scheme://host], optionally
    followed by a port, a path, a query or a fragment, and rejects every
    text without [://]; [new URL] rejects a text that has no scheme. *)

Fixpoint after_scheme (s : string) : option string :=
  if prefix "://" s then Some (Str.drop 3 s)
  else match s with
       | EmptyString => None
       | String _ s' => after_scheme s'
       end.

Definition ends_host (c : ascii) : bool :=
  Ascii.eqb c "/" || Ascii.eqb c "?" || Ascii.eqb c "#" || Ascii.eqb c ":".

Fixpoint host_part (s : string) : string :=
  match s with
  | EmptyString => EmptyString
  | String c s' => if ends_host c then EmptyString
                   else String (Str.lower_char c) (host_part s')
  end.

Definition hostname (u : string) : option string :=
  option_map host_part (after_scheme u).

(** *** Collation

    [localeCompare] orders strings by character codes, which is the
    order of the default collation on words of capital letters. *)
Definition localeCompare (a b : string) : Z :=
  match String.compare a b with
  | Lt => -1
  | Eq => 0
  | Gt => 1
  end.

(** *** JSON

    [JSON_parse] accepts the JSON texts made of [null], [true], [false],
    decimal numbers without exponent, strings without escapes, arrays
    and objects, and throws on every other text. *)

Definition is_json_space (c : ascii) : bool :=
  let n := nat_of_ascii c in
  (n =? 32)%nat || (n =? 9)%nat || (n =? 10)%nat || (n =? 13)%nat.

Fixpoint skip_ws (s : string) : string :=
  match s with
  | String c s' => if is_json_space c then skip_ws s' else s
  | EmptyString => EmptyString
  end.

Definition quote : ascii := ascii_of_nat 34.

(** [requote s] is [s] with every ['] turned into a double quote: a way
    to write JSON texts down. *)
Fixpoint requote (s : string) : string :=
  match s with
  | EmptyString => EmptyString
  | String c s' => String (if Ascii.eqb c "'" then quote else c) (requote s')
  end.

(** The characters up to the closing quote. *)
Fixpoint read_string (s : string) : option (string * string) :=
  match s with
  | EmptyString => None
  | String c s' =>
      if Ascii.eqb c quote then Some (EmptyString, s')
      else if Ascii.eqb c "\" || (nat_of_ascii c <? 32)%nat then None
      else match read_string s' with
           | Some (str, rest) => Some (String c str, rest)
           | None => None
           end
  end.

Definition is_digit (c : ascii) : bool :=
  let n := nat_of_ascii c in (48 <=? n)%nat && (n <=? 57)%nat.

(** The leading digits of [s]: their value after [acc], how many there
    are, and the rest of [s]. *)
Fixpoint read_decimal (s : string) (acc : Z) (count : nat) : Z * nat * string :=
  match s with
  | String c s' =>
      if is_digit c
      then read_decimal s' (acc * 10 + (Z.of_nat (nat_of_ascii c) - 48)) (S count)
      else (acc, count, s)
  | EmptyString => (acc, count, s)
  end.

Definition read_fraction (s : string) : option (Q * string) :=
  match s with
  | String "." s' =>
      match read_decimal s' 0 0 with
      | (_, O, _) => None
      | (f, k, rest) => Some (f # Pos.pow 10 (Pos.of_nat k), rest)
      end
  | _ => Some (0%Q, s)
  end.

Definition read_unsigned (s : string) : option (Q * string) :=
  match s with
  | String "0" s' =>
      match s' with
      | String c _ => if is_digit c then None else read_fraction s'
      | EmptyString => Some (0%Q, s')
      end
  | _ =>
      match read_decimal s 0 0 with
      | (_, O, _) => None
      | (n, _, rest) =>
          match read_fraction rest with
          | Some (f, rest') => Some (Qred (inject_Z n + f), rest')
          | None => None
          end
      end
  end.

Definition read_number (s : string) : option (value * string) :=
  let after (r : option (Q * string)) (sign : Q) :=
    match r with
    | Some (q, String c rest) =>
        if Ascii.eqb c "e" || Ascii.eqb c "E" then None
        else Some (VNum (Qred (sign * q)), String c rest)
    | Some (q, EmptyString) => Some (VNum (Qred (sign * q)), EmptyString)
    | None => None
    end in
  match s with
  | String "-" s' => after (read_unsigned s') (-1)%Q
  | _ => after (read_unsigned s) 1%Q
  end.

Definition literal (word : string) (v : value) (s : string) : option (value * string) :=
  if prefix word s then Some (v, Str.drop (String.length word) s) else None.

Fixpoint parse_value (fuel : nat) (s : string) : option (value * string) :=
  match fuel with
  | O => None
  | S fuel' =>
      match skip_ws s with
      | String "n" _ as t => literal "null" VNull t
      | String "t" _ as t => literal "true" (VBool true) t
      | String "f" _ as t => literal "false" (VBool false) t
      | String "[" r =>
          match skip_ws r with
          | String "]" rest => Some (VArr [], rest)
          | _ => match parse_elements fuel' r with
                 | Some (vs, rest) => Some (VArr vs, rest)
                 | None => None
                 end
          end
      | String "{" r =>
          match skip_ws r with
          | String "}" rest => Some (VObj [], rest)
          | _ => match parse_members fuel' r [] with
                 | Some (ps, rest) => Some (VObj ps, rest)
                 | None => None
                 end
          end
      | String c r as t =>
          if Ascii.eqb c quote then
            match read_string r with
            | Some (str, rest) => Some (VStr str, rest)
            | None => None
            end
          else read_number t
      | EmptyString => None
      end
  end

with parse_elements (fuel : nat) (s : string) : option (list value * string) :=
  match fuel with
  | O => None
  | S fuel' =>
      match parse_value fuel' s with
      | Some (v, r) =>
          match skip_ws r with
          | String "," r' =>
              match parse_elements fuel' r' with
              | Some (vs, rest) => Some (v :: vs, rest)
              | None => None
              end
          | String "]" rest => Some ([v], rest)
          | _ => None
          end
      | None => None
      end
  end

(** [ps] holds the members read so far; a repeated key keeps its first
    place and takes the last value. *)
with parse_members (fuel : nat) (s : string) (ps : list (string * value))
  : option (list (string * value) * string) :=
  match fuel with
  | O => None
  | S fuel' =>
      match skip_ws s with
      | String c r =>
          if Ascii.eqb c quote then
            match read_string r with
            | Some (k, r1) =>
                match skip_ws r1 with
                | String ":" r2 =>
                    match parse_value fuel' r2 with
                    | Some (v, r3) =>
                        let ps := JS.update k v ps in
                        match skip_ws r3 with
                        | String "," r4 => parse_members fuel' r4 ps
                        | String "}" rest => Some (ps, rest)
                        | _ => None
                        end
                    | None => None
                    end
                | _ => None
                end
            | None => None
            end
          else None
      | EmptyString => None
      end
  end.

Definition JSON_parse (text : string) : result value :=
  match parse_value (S (S (String.length text))) text with
  | Some (v, rest) =>
      if Str.is_empty (skip_ws rest) then Ok v
      else Throw "SyntaxError: Unexpected non-whitespace character after JSON"
  | None => Throw "SyntaxError: Unexpected token"
  end.

End Platform.

(** ** Vocabulary of the properties *)

(** The integer ids that a cluster object lists. *)
Definition ids_of (c : value) : list Z :=
  flat_map (fun v => match key_of v with Some k => [k] | None => [] end) (tabIds_of c).

(** [c] is a cluster object with a name that counts as true, the ids
    [ks] and the priority [p]. *)
Definition shaped (c : value) (ks : list Z) (p : value) : Prop :=
  exists ps n,
    c = VObj ps
    /\ JS.lookup "name" ps = Some n /\ JS.truthy n = true
    /\ JS.lookup "tabIds" ps = Some (VArr (map VInt ks))
    /\ JS.lookup "clusterPriority" ps = Some p.

(** The priority scores of the analyses that the ids [ks] refer to. *)
Definition scores_of (tabs : list TabAnalysis) (ks : list Z) : list Z :=
  flat_map (fun k => match tabMap tabs k with
                     | Some tab => [priorityScore tab]
                     | None => []
                     end) ks.

(** The arithmetic mean of a list of integers. *)
Definition mean (l : list Z) : Q := inject_Z (sum l) / inject_Z (Z.of_nat (List.length l)).

(** [x] rounded to one decimal place, halves upwards. *)
Definition round_to_tenth (x : Q) : Q :=
  inject_Z (Qfloor (x * inject_Z 10 + (1 # 2))) / inject_Z 10.

(** [c] with its priority rounded to one decimal place. *)
Definition rounded (c : value) : value :=
  match priority_of c with
  | Some p => JS.set c "clusterPriority" (VNum (JS.round1 p))
  | None => c
  end.

(** The priority that [revise] gives to a cluster with the sorted ids
    [ks]. *)
Definition revisedPriority (tabs : list TabAnalysis) (ks : list Z) : value :=
  match ks with
  | [] => VNaN
  | _ => VNum (JS.round1 (quotient (sum (map (Backend.scoreAt tabs) ks))
                                  (List.length ks)))
  end.

(** The cluster that [validateAndSortClusters] makes of the tabs that no
    candidate has claimed, if there are any. *)
Definition otherCluster (localeCompare : string -> string -> Z)
    (tabs : list TabAnalysis) (assigned : list Z) : list value :=
  let unassignedTabs := filter (fun tab => negb (mem (id tab) assigned)) tabs in
  if negb (is_nil unassignedTabs) then
    let sortedUnassigned :=
      sort (fun a b => Backend.compareTabs localeCompare a b <=? 0) unassignedTabs in
    [Cluster_value
       {| name := "Other";
          description := "Uncategorized tabs";
          tabIds := map id sortedUnassigned;
          clusterPriority :=
            quotient (sum (map priorityScore sortedUnassigned))
                     (List.length sortedUnassigned) |}]
  else [].

(** [c] is what [revise] makes of one of the clusters [origin]: the
    cluster with its ids filtered and sorted and its priority set. *)
Definition revisedFrom (localeCompare : string -> string -> Z)
    (tabs : list TabAnalysis) (origin : list value) (c : value) : Prop :=
  exists c0 kept,
    let ks := sort (fun a b => Backend.compareIds localeCompare tabs a b <=? 0) kept in
    In c0 origin
    /\ c = JS.set (JS.set c0 "tabIds" (VArr (map VInt ks)))
                  "clusterPriority" (revisedPriority tabs ks)
    /\ shaped c ks (revisedPriority tabs ks)
    /\ Forall (fun k => In k (map id tabs)) kept.

(** Every cluster has a number as its priority, and the numbers do not
    decrease along the list. *)
Definition sortedByPriority (out : list value) : Prop :=
  exists qs, map priority_of out = map Some qs /\ StronglySorted Qle qs.

(** The tab [a] refers to comes no later than the one [b] refers to: its
    score is lower, or the scores are equal and its title compares as at
    most the other title. *)
Definition inOrder (localeCompare : string -> string -> Z) (tabs : list TabAnalysis)
    (a b : Z) : Prop :=
  exists tabA tabB,
    tabMap tabs a = Some tabA /\ tabMap tabs b = Some tabB
    /\ (priorityScore tabA < priorityScore tabB
        \/ (priorityScore tabA = priorityScore tabB
            /\ localeCompare (title tabA) (title tabB) <= 0)).

(** The same for the score alone, a missing or zero score counting
    as 3. *)
Definition inScoreOrder (tabs : list TabAnalysis) (a b : Z) : Prop :=
  Backend.scoreOr3 tabs a <= Backend.scoreOr3 tabs b.

(** [L] is a result as [validateAndSortClusters] leaves it: every
    cluster lists ids that are sorted, its priority is their mean score,
    rounded to one decimal place or not; every tab is in one cluster; the
    clusters are sorted. *)
Definition settled (localeCompare : string -> string -> Z) (tabs : list TabAnalysis)
    (L : list value) : Prop :=
  Forall (fun c => exists ks p,
              shaped c ks (VNum p) /\ ks <> []
              /\ Sorted (fun a b => (Backend.compareIds localeCompare tabs a b <=? 0) = true) ks
              /\ JS.round1 p
                 = JS.round1 (quotient (sum (map (Backend.scoreAt tabs) ks))
                                       (List.length ks))) L
  /\ Permutation (flat_map ids_of L) (map id tabs)
  /\ Sorted (fun a b => priority_le a b = true) L.

(** All the ids held by the clusters of a map. *)
Definition all_ids (m : SMap.t Cluster) : list Z := flat_map tabIds (SMap.values m).

(** [new URL(tab.url)] does not throw. *)
Definition parses (URL_hostname : string -> option string) (tab : TabAnalysis) : bool :=
  match URL_hostname (url tab) with
  | Some _ => true
  | None => false
  end.

(** [n] brought into the range from 1 to 5. *)
Definition clamp (n : Z) : Z := if n <? 1 then 1 else if 5 <? n then 5 else n.

(** The score that the analysers make of the [priorityScore] carried by
    the reply: zero and what is no number give 3, any other number is
    clamped. *)
Definition scoreFor (v : value) : Z :=
  match JS.parseInt v with
  | Some n => if n =? 0 then 3 else clamp n
  | None => 3
  end.

(** The property [k] of an object with the properties [ps]. *)
Definition property (ps : list (string * value)) (k : string) : value :=
  match JS.lookup k ps with
  | Some v => v
  | None => VUndefined
  end.

(** No JSON value is recovered from [text]: there is no span from
    [open] to [close], or [JSON.parse] throws on the span. *)
Definition unparseable (JSON_parse : string -> result value) (open close : ascii)
    (text : string) : Prop :=
  match Str.match_span open close text with
  | Some jsonMatch => exists e, JSON_parse jsonMatch = Throw e
  | None => True
  end.

(** The same for [parseClusteringResponse], which parses the whole text
    when it finds no span. *)
Definition unparseableArray (JSON_parse : string -> result value) (text : string) : Prop :=
  match Str.match_span "[" "]" text with
  | Some jsonMatch => exists e, JSON_parse jsonMatch = Throw e
  | None => exists e, JSON_parse text = Throw e
  end.

(** [`${tab.title} - ${tab.metaDescription || 'Web page content'}`] *)
Definition titleAndDescription (tab : Tab.t) : string :=
  Tab.title tab ++ " - "
  ++ (if Str.is_empty (Tab.metaDescription tab) then "Web page content"
      else Tab.metaDescription tab).

(** ** Sample batches *)

Module Sample.

Definition analysis (i : Z) (t u : string) (score : Z) : TabAnalysis :=
  {| id := i; title := t; url := u; summary := VStr t; priorityScore := score;
     priorityRationale := VStr "Standard content"; topics := VArr []; error := None |}.

(** The scenario of the specification: two pages of one site and a
    page of another. *)
Definition threeTabs : list TabAnalysis :=
  [analysis 1 "B" "https://news.ycombinator.com" 2;
   analysis 2 "A" "https://news.ycombinator.com/item" 1;
   analysis 3 "C" "https://example.com" 4].

(** Three pages of one site whose scores have the mean 4/3. *)
Definition thirds : list TabAnalysis :=
  [analysis 1 "A" "https://example.com/a" 1;
   analysis 2 "B" "https://example.com/b" 1;
   analysis 3 "C" "https://example.com/c" 2].

(** Two pages of one site with the same score, the later title
    first. *)
Definition sameScore : list TabAnalysis :=
  [analysis 1 "B" "https://example.com/b" 2;
   analysis 2 "A" "https://example.com/a" 2].

(** A tab whose URL does not parse. *)
Definition noUrl : list TabAnalysis := [analysis 7 "Notes" "not a url" 3].

Definition page : Tab.t :=
  {| Tab.id := 5; Tab.title := "Rust programming tutorial";
     Tab.url := "https://example.com/rust"; Tab.metaDescription := "Learn Rust";
     Tab.headings := ["Ownership"]; Tab.textContent := "Ownership and borrowing" |}.

(** A reply that proposes clusters with a repeated id, an unknown id,
    an id given as text, a cluster without a name and a number. *)
Definition proposal : string :=
  Platform.requote
    "Sure: [{'name':'N','tabIds':[1,2,9,'3',2]},{'name':'','tabIds':[3]}, 5, {'name':'M','tabIds':[1],'description':'d'}] done".

Definition candidates : list value :=
  [VObj [("name", VStr "N"); ("tabIds", VArr [VInt 1; VInt 2; VInt 9; VStr "3"; VInt 2])];
   VObj [("name", VStr EmptyString); ("tabIds", VArr [VInt 3])];
   VInt 5;
   VObj [("name", VStr "M"); ("tabIds", VArr [VInt 1]); ("description", VStr "d")]].

End Sample.

(** The records that the analysers return when the analysis fails. *)

(** The backend, when the reply cannot be parsed. *)
Definition unableRecord (tab : Tab.t) (content : string) : TabAnalysis :=
  {| id := Tab.id tab; title := Tab.title tab; url := Tab.url tab;
     summary := VStr (Str.take 200 content);
     priorityScore := 3;
     priorityRationale := VStr "Unable to determine priority";
     topics := VArr (map VStr (Backend.extractTopics content tab));
     error := None |}.

(** The backend, when the call to the provider throws. *)
Definition unavailableRecord (tab : Tab.t) (message : string) : TabAnalysis :=
  {| id := Tab.id tab; title := Tab.title tab; url := Tab.url tab;
     summary := VStr (titleAndDescription tab);
     priorityScore := 3;
     priorityRationale := VStr "Analysis unavailable";
     topics := VArr [];
     error := Some message |}.

(** The extension, on any exception inside its [try] block. *)
Definition defaultRecord (tab : Tab.t) : Extension.Analysis.t :=
  {| Extension.Analysis.summary := VStr (titleAndDescription tab);
     Extension.Analysis.priorityScore := 3;
     Extension.Analysis.priorityRationale :=
       VStr "Unable to analyze - default priority assigned";
     Extension.Analysis.topics := VArr (map VStr (Extension.extractBasicTopics tab)) |}.

(** ** The extension's state: background.js and the side bar

    [browser.storage.local] is a store of JSON values under string keys;
    its calls are taken to succeed.  The messages that [broadcastUpdate]
    sends, the calls to [browser.tabs.move] and the like are collected in
    the order in which the code issues them. *)

Module Storage.
Definition t : Type := list (string * value).

(** [(await browser.storage.local.get(k))[k]] *)
Definition get (k : string) (store : t) : value :=
  match JS.lookup k store with
  | Some v => v
  | None => VUndefined
  end.

(** [browser.storage.local.set({[k]: v})] *)
Definition set (k : string) (v : value) (store : t) : t := JS.update k v store.

(** [browser.storage.local.remove(ks)] *)
Definition remove (ks : list string) (store : t) : t :=
  filter (fun e => negb (existsb (String.eqb (fst e)) ks)) store.
End Storage.

(** A [Map] with integer keys, in insertion order. *)
Module ZMap.
Definition t (A : Type) : Type := list (Z * A).

Definition get {A : Type} (k : Z) (m : t A) : option A :=
  option_map snd (find (fun e => fst e =? k) m).

Definition has {A : Type} (k : Z) (m : t A) : bool :=
  existsb (fun e => fst e =? k) m.

(** [m.set(k, v)]: the value of an existing key is replaced in place, a
    new key goes last. *)
Fixpoint set {A : Type} (k : Z) (v : A) (m : t A) : t A :=
  match m with
  | [] => [(k, v)]
  | (k', v') :: m' => if k' =? k then (k, v) :: m' else (k', v') :: set k v m'
  end.

Definition delete {A : Type} (k : Z) (m : t A) : t A :=
  filter (fun e => negb (fst e =? k)) m.

(** [new Map(l.map(x => [key(x), x]))] *)
Definition of_list {A : Type} (key : A -> Z) (l : list A) : t A :=
  fold_left (fun m x => set (key x) x m) l [].

Definition values {A : Type} (m : t A) : list A := map snd m.
End ZMap.

(** [for (const x of v)]: arrays give their elements and strings their
    characters; the other values of the model are not iterable. *)
Definition iterate (v : value) : result (list value) :=
  match v with
  | VArr l => Ok l
  | VStr s => Ok (map (fun c => VStr (String c EmptyString)) (list_ascii_of_string s))
  | _ => Throw "value is not iterable"
  end.

(** [l.flatMap(f)] for an [f] that may throw. *)
Fixpoint flat_mapM {A B : Type} (f : A -> result (list B)) (l : list A)
  : result (list B) :=
  match l with
  | [] => Ok []
  | x :: l' => r <- f x ;; rs <- flat_mapM f l' ;; Ok (r ++ rs)%list
  end.

(** The analysis of a tab as a JSON value. *)
Definition TabAnalysis_value (t : TabAnalysis) : value :=
  VObj ([("id", VInt (id t)); ("title", VStr (title t)); ("url", VStr (url t));
         ("summary", summary t); ("priorityScore", VInt (priorityScore t));
         ("priorityRationale", priorityRationale t); ("topics", topics t)]
        ++ match error t with
           | Some e => [("error", VStr e)]
           | None => []
           end)%list.

(** A tab as [browser.tabs.query] reports it. *)
Module BrowserTab.
Record t : Type := make {
  id : Z;
  url : string;
  title : string;
  favIconUrl : option string
}.
End BrowserTab.

(** What the injected script evaluates to. *)
Module Content.
Record t : Type := make {
  title : string;
  url : string;
  metaDescription : string;
  headings : list string;
  textContent : string
}.
End Content.

(** [{id: tab.id, favIconUrl: tab.favIconUrl, ...content}]: the fields
    of a [Tab.t] and the icon. *)
Module TabData.
Record t : Type := make {
  favIconUrl : option string;
  tab : Tab.t
}.
Definition id (d : t) : Z := Tab.id (tab d).
End TabData.

(** The messages of [broadcastUpdate]. *)
Inductive update : Type :=
| ExtractionStarted (total : nat)
| ExtractionProgress (current total : nat)
| ExtractionComplete (count : nat)
| AnalysisComplete (tabCount clusterCount : nat)
| TabsOrganized (clusters : nat).

(** A call [browser.tabs.move(tabId, {index})] and whether it went
    through. *)
Module Move.
Record t : Type := make {
  tabId : Z;
  index : nat;
  moved : bool
}.
End Move.

(** *** Class [TabManager] *)

Module TabManager.

Record t : Type := make {
  tabs : ZMap.t TabData.t;
  tabSummaries : ZMap.t TabAnalysis;
  clusters : list value;
  isAnalyzing : bool
}.

(** The constructor. *)
Definition init : t :=
  {| tabs := []; tabSummaries := []; clusters := []; isAnalyzing := false |}.

(** One row of [getSortedResults]: [{...tab, clusterName,
    clusterPriority}]. *)
Module ResultRow.
Record t : Type := make {
  tab : TabAnalysis;
  clusterName : value;
  clusterPriority : value
}.
End ResultRow.

(** [open] is what [browser.tabs.query({})] reports. *)
Definition getAllTabs (open : list BrowserTab.t) : list BrowserTab.t :=
  filter (fun tab => negb (prefix "chrome://" (BrowserTab.url tab))
                     && negb (prefix "about:" (BrowserTab.url tab))
                     && negb (prefix "moz-extension://" (BrowserTab.url tab)))
         open.

(** [script] is the outcome of [browser.tabs.executeScript] on the
    tab. *)
Definition extractTabContent (tab : BrowserTab.t) (script : result Content.t)
  : Content.t :=
  try_catch script
    (fun _ => {| Content.title := BrowserTab.title tab;
                 Content.url := BrowserTab.url tab;
                 Content.metaDescription := EmptyString;
                 Content.headings := [];
                 Content.textContent := EmptyString |}).

Definition tabDataOf (tab : BrowserTab.t) (content : Content.t) : TabData.t :=
  {| TabData.favIconUrl := BrowserTab.favIconUrl tab;
     TabData.tab :=
       {| Tab.id := BrowserTab.id tab;
          Tab.title := Content.title content;
          Tab.url := Content.url content;
          Tab.metaDescription := Content.metaDescription content;
          Tab.headings := Content.headings content;
          Tab.textContent := Content.textContent content |} |}.

(** The result, the state afterwards and the messages sent. *)
Definition extractAllTabs (open : list BrowserTab.t)
    (script : BrowserTab.t -> result Content.t) (this : t)
  : list TabData.t * t * list update :=
  if isAnalyzing this then ([], this, [])
  else
    let tabs := getAllTabs open in
    let tabData :=
      map (fun tab => tabDataOf tab (extractTabContent tab (script tab))) tabs in
    (tabData,
     {| tabs := ZMap.of_list TabData.id tabData;
        tabSummaries := tabSummaries this;
        clusters := clusters this;
        isAnalyzing := false |},
     ([ExtractionStarted (List.length tabs)]
      ++ map (fun i => ExtractionProgress (i + 1) (List.length tabs))
             (seq 0 (List.length tabs))
      ++ [ExtractionComplete (List.length tabData)])%list).

(** [now] is [Date.now()]. *)
Definition storeResults (now : Z) (summaries : list TabAnalysis)
    (clusters : list value) (this : t) (store : Storage.t)
  : t * Storage.t * list update :=
  ({| tabs := tabs this;
      tabSummaries := ZMap.of_list id summaries;
      clusters := clusters;
      isAnalyzing := isAnalyzing this |},
   Storage.set "lastAnalysis" (VInt now)
     (Storage.set "clusters" (VArr clusters)
        (Storage.set "tabSummaries" (VArr (map TabAnalysis_value summaries)) store)),
   [AnalysisComplete (List.length summaries) (List.length clusters)]).

(** [this.tabSummaries.get(tabId)] for a value [tabId]. *)
Definition summaryAt (this : t) (tabId : value) : option TabAnalysis :=
  match key_of tabId with
  | Some k => ZMap.get k (tabSummaries this)
  | None => None
  end.

Definition getSortedResults (this : t) : result (list ResultRow.t) :=
  flat_mapM
    (fun cluster =>
       tabIds <- JS.get cluster "tabIds" ;;
       ids <- iterate tabIds ;;
       flat_mapM
         (fun tabId =>
            match summaryAt this tabId with
            | Some tab =>
                n <- JS.get cluster "name" ;;
                p <- JS.get cluster "clusterPriority" ;;
                Ok [{| ResultRow.tab := tab; ResultRow.clusterName := n;
                       ResultRow.clusterPriority := p |}]
            | None => Ok []
            end)
         ids)
    (clusters this).

(** The inner loop of [organizeTabsIntoGroups] over the ids of one
    cluster.  [moved n] tells whether the call number [n] to
    [browser.tabs.move] goes through; [calls] counts the calls made so
    far.  The result is the target index and the number of calls
    afterwards, with the calls made. *)
Fixpoint moveEach (allIds : list Z) (moved : nat -> bool) (ids : list value)
    (targetIndex calls : nat) : nat * nat * list Move.t :=
  match ids with
  | [] => (targetIndex, calls, [])
  | tabId :: rest =>
      match key_of tabId with
      | Some k =>
          if mem k allIds then
            let ok := moved calls in
            let '(t, c, trace) :=
              moveEach allIds moved rest
                (if ok then S targetIndex else targetIndex) (S calls) in
            (t, c, {| Move.tabId := k; Move.index := targetIndex; Move.moved := ok |}
                   :: trace)
          else moveEach allIds moved rest targetIndex calls
      | None => moveEach allIds moved rest targetIndex calls
      end
  end.

(** The outer loop: the calls made, and the error that ends the loop
    early if a cluster's ids cannot be iterated. *)
Fixpoint moveClusters (allIds : list Z) (moved : nat -> bool) (clusters : list value)
    (targetIndex calls : nat) : list Move.t * option string :=
  match clusters with
  | [] => ([], None)
  | cluster :: rest =>
      match (tabIds <- JS.get cluster "tabIds" ;; iterate tabIds) with
      | Ok ids =>
          let '(t, c, trace) := moveEach allIds moved ids targetIndex calls in
          let '(trace', e) := moveClusters allIds moved rest t c in
          ((trace ++ trace')%list, e)
      | Throw e => ([], Some e)
      end
  end.

(** The calls to [browser.tabs.move], the result and the messages. *)
Definition organizeTabsIntoGroups (open : list BrowserTab.t) (moved : nat -> bool)
    (this : t) : list Move.t * result bool * list update :=
  let allTabs := getAllTabs open in
  let '(trace, e) :=
    moveClusters (map BrowserTab.id allTabs) moved (clusters this) 0 0 in
  match e with
  | Some m => (trace, Throw m, [])
  | None => (trace, Ok true, [TabsOrganized (List.length (clusters this))])
  end.

(** The listener of [browser.tabs.onRemoved]. *)
Definition onRemoved (tabId : Z) (this : t) : t :=
  {| tabs := ZMap.delete tabId (tabs this);
     tabSummaries := ZMap.delete tabId (tabSummaries this);
     clusters := clusters this;
     isAnalyzing := isAnalyzing this |}.

End TabManager.

(** *** Class [SidebarManager]: closing a tab *)

Module Sidebar.

Record t : Type := make {
  clusters : list value;
  tabSummaries : list TabAnalysis
}.

(** [id !== tabId] is false: [id] is a number equal to the integer
    [tabId]. *)
Definition same (v : value) (tabId : Z) : bool :=
  match key_of v with
  | Some k => k =? tabId
  | None => false
  end.

(** [cluster.tabIds = cluster.tabIds.filter(id => id !== tabId)] *)
Definition without (tabId : Z) (cluster : value) : result value :=
  tabIds <- JS.get cluster "tabIds" ;;
  match tabIds with
  | VArr ids =>
      Ok (JS.set cluster "tabIds" (VArr (filter (fun v => negb (same v tabId)) ids)))
  | VUndefined | VNull => Throw "Cannot read properties of undefined (reading 'filter')"
  | _ => Throw "cluster.tabIds.filter is not a function"
  end.

(** [this.clusters.forEach(cluster => ...)]: the clusters before the
    one that throws are already changed. *)
Fixpoint withoutEach (tabId : Z) (clusters : list value) : list value * option string :=
  match clusters with
  | [] => ([], None)
  | cluster :: rest =>
      match without tabId cluster with
      | Ok cluster' =>
          let '(rest', e) := withoutEach tabId rest in (cluster' :: rest', e)
      | Throw m => (cluster :: rest, Some m)
      end
  end.

(** [removed] is the outcome of [browser.tabs.remove(tabId)]. *)
Definition closeTab (removed : result unit) (tabId : Z) (this : t) (store : Storage.t)
  : t * Storage.t :=
  match removed with
  | Throw _ => (this, store)
  | Ok _ =>
      let tabSummaries := filter (fun tab => negb (id tab =? tabId)) (tabSummaries this) in
      let '(clusters, e) := withoutEach tabId (clusters this) in
      match e with
      | Some _ => ({| clusters := clusters; tabSummaries := tabSummaries |}, store)
      | None =>
          let clusters :=
            filter (fun cluster => negb (is_nil (tabIds_of cluster))) clusters in
          ({| clusters := clusters; tabSummaries := tabSummaries |},
           Storage.set "tabSummaries" (VArr (map TabAnalysis_value tabSummaries))
             (Storage.set "clusters" (VArr clusters) store))
      end
  end.

End Sidebar.

(** ** The HTTP side of the backend

    The handlers of [/api/analyze] in server.js and in the serverless
    entry, the authentication middleware and the subscription events of
    services/stripe.js.  The database, the analysis service, the token
    verifier and the payment provider are outside the handlers: every
    call to them is recorded in the order in which it is made, and what
    it answers is a parameter. *)

(** [s.split(sep)] for a separator of one character. *)
Fixpoint split_on (sep : ascii) (s : string) : list string :=
  match s with
  | EmptyString => [EmptyString]
  | String c s' =>
      if Ascii.eqb c sep then EmptyString :: split_on sep s'
      else match split_on sep s' with
           | piece :: rest => String c piece :: rest
           | [] => [String c EmptyString]
           end
  end.

(** [process.env.NAME || d] *)
Definition env_or (v : option string) (d : string) : string :=
  match v with
  | Some s => if Str.is_empty s then d else s
  | None => d
  end.

(** [`${process.env.NAME}`] *)
Definition env_text (v : option string) : string :=
  match v with
  | Some s => s
  | None => "undefined"
  end.

Module Http.
(** [res.status(status).json(json)] *)
Record response : Type := make {
  status : Z;
  json : value
}.
End Http.

(** A row of the table [users], with the columns that the handlers
    read. *)
Module User.
Record t : Type := make {
  id : Z;
  email : string;
  plan : string;
  usageThisMonth : Z;
  usageLimit : Z;
  stripeCustomerId : option string
}.
End User.

(** The calls that a handler of [/api/analyze] makes. *)
Inductive call : Type :=
| GetUserById (id : Z)
| AnalyzeTabs (tabs : list value)
| IncrementUsage (userId count : Z)
| LogUsage (userId : Z) (operation : string) (tabCount : Z) (timestamp : option Z).

(** What the calls answer. *)
Module World.
Record t : Type := make {
  getUserById : Z -> result (option User.t);
  analyzeTabs : list value -> result value;
  incrementUsage : Z -> Z -> result unit;
  logUsage : Z -> string -> Z -> option Z -> result unit
}.
End World.

(** A computation that makes calls and may throw: the calls made, and
    the outcome. *)
Definition effect (A : Type) : Type := list call * result A.

Definition perform {A : Type} (c : call) (outcome : result A) : effect A := ([c], outcome).

Definition pure {A : Type} (r : result A) : effect A := ([], r).

Definition andThen {A B : Type} (m : effect A) (k : A -> effect B) : effect B :=
  match m with
  | (trace, Ok a) => let '(trace', r) := k a in ((trace ++ trace')%list, r)
  | (trace, Throw e) => (trace, Throw e)
  end.

Notation "x <~ m ;; k" := (andThen m (fun x => k))
  (at level 61, m at next level, right associativity).

(** [{ error: message }] *)
Definition error_json (message : string) : value := VObj [("error", VStr message)].

(** *** server.js *)

Module Server.

(** What the authentication middleware does with a request. *)
Inductive gate : Type :=
| Refused (response : Http.response)
| Next (user : value).

(** [authorization] is [req.headers['authorization']]; [verify] is
    [jwt.verify] with the secret of the server. *)
Definition authenticateToken (verify : string -> result value)
    (authorization : option string) : gate :=
  let token :=
    match authorization with
    | Some authHeader =>
        if Str.is_empty authHeader then None
        else nth_error (split_on " " authHeader) 1
    | None => None
    end in
  match token with
  | Some token =>
      if Str.is_empty token
      then Refused {| Http.status := 401; Http.json := error_json "Access token required" |}
      else match verify token with
           | Ok user => Next user
           | Throw _ =>
               Refused {| Http.status := 403;
                          Http.json := error_json "Invalid or expired token" |}
           end
  | None => Refused {| Http.status := 401; Http.json := error_json "Access token required" |}
  end.

(** The handler of [POST /api/analyze].  [userId] is [req.user.userId],
    [body] is [req.body], [now] is [new Date()]. *)
Definition analyze (world : World.t) (FRONTEND_URL : option string) (now : Z)
    (userId : Z) (body : value) : Http.response * list call :=
  let '(trace, r) :=
    (tabs <~ pure (JS.get body "tabs") ;;
     match tabs with
     | VArr tabs =>
         user <~ perform (GetUserById userId) (World.getUserById world userId) ;;
         match user with
         | Some user =>
             if User.usageLimit user <=? User.usageThisMonth user then
               pure (Ok {| Http.status := 429;
                           Http.json :=
                             VObj [("error", VStr "Monthly usage limit reached");
                                   ("usage", VInt (User.usageThisMonth user));
                                   ("limit", VInt (User.usageLimit user));
                                   ("upgradeUrl",
                                    VStr (env_text FRONTEND_URL ++ "/upgrade"))] |})
             else
               let count := Z.of_nat (List.length tabs) in
               results <~ perform (AnalyzeTabs tabs) (World.analyzeTabs world tabs) ;;
               _ <~ perform (IncrementUsage userId count)
                            (World.incrementUsage world userId count) ;;
               _ <~ perform (LogUsage userId "analyze" count (Some now))
                            (World.logUsage world userId "analyze" count (Some now)) ;;
               pure (Ok {| Http.status := 200;
                           Http.json :=
                             VObj [("results", results);
                                   ("usage",
                                    VObj [("current",
                                           VInt (User.usageThisMonth user + count));
                                          ("limit", VInt (User.usageLimit user))])] |})
         | None => pure (Throw "Cannot read properties of null (reading 'usageThisMonth')")
         end
     | _ => pure (Ok {| Http.status := 400; Http.json := error_json "Invalid tabs data" |})
     end) in
  (try_catch r (fun _ => {| Http.status := 500; Http.json := error_json "Analysis failed" |}),
   trace).

End Server.

(** *** The serverless entry

    Its queries on the pool are the calls [GetUserById] (the [SELECT],
    which answers with the first row, if any), [IncrementUsage] by one
    (the [UPDATE]) and [LogUsage] without a time stamp (the [INSERT]). *)

Module Api.

Definition analyze (world : World.t) (userId : Z) (body : value)
  : Http.response * list call :=
  let '(trace, r) :=
    (tabs <~ pure (JS.get body "tabs") ;;
     match tabs with
     | VArr (tab :: rest) =>
         let tabs := tab :: rest in
         userResult <~ perform (GetUserById userId) (World.getUserById world userId) ;;
         match userResult with
         | Some user =>
             let usageThisMonth := User.usageThisMonth user in
             let usageLimit :=
               if User.usageLimit user =? 0 then 25 else User.usageLimit user in
             if negb (usageLimit =? -1) && (usageLimit <=? usageThisMonth) then
               pure (Ok {| Http.status := 429;
                           Http.json :=
                             VObj [("error", VStr "Monthly usage limit reached");
                                   ("usage",
                                    VObj [("current", VInt usageThisMonth);
                                          ("limit", VInt usageLimit)])] |})
             else
               let count := Z.of_nat (List.length tabs) in
               results <~ perform (AnalyzeTabs tabs) (World.analyzeTabs world tabs) ;;
               _ <~ perform (IncrementUsage userId 1)
                            (World.incrementUsage world userId 1) ;;
               _ <~ perform (LogUsage userId "analyze" count None)
                            (World.logUsage world userId "analyze" count None) ;;
               pure (Ok {| Http.status := 200;
                           Http.json :=
                             VObj [("results", results);
                                   ("usage",
                                    VObj [("current", VInt (usageThisMonth + 1));
                                          ("limit", VInt usageLimit)])] |})
         | None =>
             pure (Ok {| Http.status := 404; Http.json := error_json "User not found" |})
         end
     | _ => pure (Ok {| Http.status := 400; Http.json := error_json "No tabs provided" |})
     end) in
  (try_catch r (fun message =>
                  {| Http.status := 500;
                     Http.json := error_json ("Analysis failed: " ++ message) |}),
   trace).

(** What the handler of [GET /health] shows of the database: the
    [db_hostname] of its answer.  [None] stands for [undefined]. *)
Definition db_hostname (POSTGRES_URL DATABASE_URL : option string) : option string :=
  let dbUrl := env_or POSTGRES_URL (env_or DATABASE_URL "not set") in
  if Str.includes "@" dbUrl
  then option_map (Str.split_head ":") (nth_error (split_on "@" dbUrl) 1)
  else Some "unknown".

End Api.

(** *** services/stripe.js *)

Module Stripe.

Module Tier.
Record t : Type := make {
  priceId : string;
  name : string;
  usageLimit : Z;
  features : list string
}.
End Tier.

Module Customer.
Record t : Type := make {
  id : string;
  email : string
}.
End Customer.

(** A subscription event: [priceId] is [items.data[0].price.id]. *)
Module Subscription.
Record t : Type := make {
  customer : string;
  priceId : string;
  status : string;
  current_period_end : Z
}.
End Subscription.

(** The second argument of [db.updateUser].  [subscriptionEndDate] is
    the date in milliseconds. *)
Module Updates.
Record t : Type := make {
  plan : string;
  usageLimit : Z;
  subscriptionStatus : string;
  subscriptionEndDate : Z;
  stripeCustomerId : option string
}.
End Updates.

Section Service.
(** [process.env.STRIPE_PRICE_PRO] and [process.env.STRIPE_PRICE_BUSINESS] *)
Variable STRIPE_PRICE_PRO : option string.
Variable STRIPE_PRICE_BUSINESS : option string.
(** [stripe.customers.retrieve] and [db.getUserByEmail] *)
Variable retrieve : string -> result Customer.t.
Variable getUserByEmail : string -> result (option User.t).

Definition pro : Tier.t :=
  {| Tier.priceId := env_or STRIPE_PRICE_PRO "price_pro_monthly";
     Tier.name := "Pro";
     Tier.usageLimit := 1000;
     Tier.features := ["1000 analyses/month"; "Priority processing"; "Email support"] |}.

Definition business : Tier.t :=
  {| Tier.priceId := env_or STRIPE_PRICE_BUSINESS "price_business_monthly";
     Tier.name := "Business";
     Tier.usageLimit := -1;
     Tier.features := ["Unlimited analyses"; "Team features"; "Priority support";
                       "Custom integrations"] |}.

(** [Object.values(this.priceTiers)] *)
Definition priceTiers : list Tier.t := [pro; business].

Definition isValidPriceId (priceId : string) : bool :=
  existsb (fun tier => String.eqb (Tier.priceId tier) priceId) priceTiers.

(** The call to [db.updateUser] that the event leads to, if any: the
    id of the user and the new values.  An exception ends the handler
    without a call. *)
Definition handleSubscriptionUpdate (subscription : Subscription.t)
  : option (Z * Updates.t) :=
  try_catch
    (customer <- retrieve (Subscription.customer subscription) ;;
     user <- getUserByEmail (Customer.email customer) ;;
     match user with
     | None => Ok None
     | Some user =>
         let priceId := Subscription.priceId subscription in
         let '(plan, usageLimit) :=
           if String.eqb priceId (Tier.priceId pro) then ("pro", Tier.usageLimit pro)
           else if String.eqb priceId (Tier.priceId business)
                then ("business", Tier.usageLimit business)
                else ("free", 25) in
         Ok (Some (User.id user,
                   {| Updates.plan := plan;
                      Updates.usageLimit := usageLimit;
                      Updates.subscriptionStatus := Subscription.status subscription;
                      Updates.subscriptionEndDate :=
                        Subscription.current_period_end subscription * 1000;
                      Updates.stripeCustomerId := Some (Customer.id customer) |}))
     end)
    (fun _ => None).

Definition handleSubscriptionCanceled (subscription : Subscription.t)
  : option (Z * Updates.t) :=
  try_catch
    (customer <- retrieve (Subscription.customer subscription) ;;
     user <- getUserByEmail (Customer.email customer) ;;
     match user with
     | None => Ok None
     | Some user =>
         Ok (Some (User.id user,
                   {| Updates.plan := "free";
                      Updates.usageLimit := 25;
                      Updates.subscriptionStatus := "canceled";
                      Updates.subscriptionEndDate :=
                        Subscription.current_period_end subscription * 1000;
                      Updates.stripeCustomerId := None |}))
     end)
    (fun _ => None).

End Service.
End Stripe.

(** ** The client of the backend: class [BackendAPIService]

    A session is the field [this.token] with the extension's storage.
    [fetch] tells what a request comes to; [JSON_stringify] and
    [toString] are [JSON.stringify] and the conversion of a value to the
    text that a template or [new Error] makes of it.  Every method gives
    its outcome, the session afterwards and the requests it made. *)

Module Request.
Record t : Type := make {
  url : string;
  method : string;
  headers : list (string * string);
  body : option string
}.
End Request.

(** What [fetch] comes to: an exception, or a response with its status
    and what [response.json()] gives. *)
Inductive fetched : Type :=
| NetworkError (message : string)
| Response (status : Z) (json : result value).

(** The options that the methods pass to [makeRequest]: the body is
    always an object literal. *)
Module Options.
Record t : Type := make {
  method : option string;
  body : option (list (string * value))
}.
Definition none : t := {| method := None; body := None |}.
End Options.

Module BackendAPI.

Record session : Type := make {
  token : value;
  store : Storage.t
}.

Definition baseUrl : string := "https://tab-ai-clustering.vercel.app".

Definition setAuthToken (token : value) (s : session) : session :=
  {| token := token; store := Storage.set "authToken" token (store s) |}.

Definition getAuthToken (s : session) : value * session :=
  if negb (JS.truthy (token s)) then
    let t := Storage.get "authToken" (store s) in
    (t, {| token := t; store := store s |})
  else (token s, s).

Definition clearAuth (s : session) : session :=
  {| token := VNull; store := Storage.remove ["authToken"; "userProfile"] (store s) |}.

Definition getCachedProfile (s : session) : value := Storage.get "userProfile" (store s).

Definition getCachedUsage (s : session) : value := Storage.get "currentUsage" (store s).

Section Service.
Variable fetch : Request.t -> fetched.
Variable JSON_stringify : value -> string.
Variable toString : value -> string.

Definition makeRequest (endpoint : string) (options : Options.t) (s : session)
  : result value * session * list Request.t :=
  let '(token, s) := getAuthToken s in
  let request :=
    {| Request.url := baseUrl ++ endpoint;
       Request.method := match Options.method options with
                         | Some m => m
                         | None => "GET"
                         end;
       Request.headers :=
         ("Content-Type", "application/json")
         :: (if JS.truthy token then [("Authorization", "Bearer " ++ toString token)]
             else []);
       Request.body :=
         option_map (fun o => JSON_stringify (VObj o)) (Options.body options) |} in
  match fetch request with
  | NetworkError message => (Throw message, s, [request])
  | Response status json =>
      if status =? 401 then (Throw "Authentication required", clearAuth s, [request])
      else if negb ((200 <=? status) && (status <=? 299)) then
        let error := try_catch json (fun _ => VObj [("error", VStr "Request failed")]) in
        (e <- JS.get error "error" ;;
         Throw (if JS.truthy e then toString e else "HTTP " ++ toString (VInt status)),
         s, [request])
      else (json, s, [request])
  end.

(** The common body of [register] and [login]. *)
Definition signIn (endpoint : string) (email password : string) (s : session)
  : result value * session * list Request.t :=
  let '(r, s, requests) :=
    makeRequest endpoint
      {| Options.method := Some "POST";
         Options.body := Some [("email", VStr email); ("password", VStr password)] |} s in
  match (result <- r ;; t <- JS.get result "token" ;; Ok (result, t)) with
  | Ok (result, t) =>
      let s := setAuthToken t s in
      match JS.get result "user" with
      | Ok user =>
          (Ok result,
           {| token := token s; store := Storage.set "userProfile" user (store s) |},
           requests)
      | Throw message => (Throw message, s, requests)
      end
  | Throw message => (Throw message, s, requests)
  end.

Definition register : string -> string -> session
                      -> result value * session * list Request.t :=
  signIn "/auth/register".

Definition login : string -> string -> session
                   -> result value * session * list Request.t :=
  signIn "/auth/login".

Definition getProfile (s : session) : result value * session * list Request.t :=
  let '(r, s, requests) := makeRequest "/auth/profile" Options.none s in
  match r with
  | Ok profile =>
      (Ok profile,
       {| token := token s; store := Storage.set "userProfile" profile (store s) |},
       requests)
  | Throw message => (Throw message, s, requests)
  end.

Definition logout (s : session) : session := clearAuth s.

(** [now] is [Date.now()]. *)
Definition analyzeTabs (now : Z) (tabs : list value) (s : session)
  : result value * session * list Request.t :=
  let '(r, s, requests) :=
    makeRequest "/api/analyze"
      {| Options.method := Some "POST"; Options.body := Some [("tabs", VArr tabs)] |} s in
  match (result <- r ;;
         results <- JS.get result "results" ;;
         summaries <- JS.get results "summaries" ;;
         clusters <- JS.get results "clusters" ;;
         usage <- JS.get result "usage" ;;
         Ok (result, summaries, clusters, usage)) with
  | Ok (result, summaries, clusters, usage) =>
      (Ok result,
       {| token := token s;
          store := Storage.set "currentUsage" usage
                     (Storage.set "lastAnalyzed" (VInt now)
                        (Storage.set "clusters" clusters
                           (Storage.set "tabSummaries" summaries (store s)))) |},
       requests)
  | Throw message => (Throw message, s, requests)
  end.

Definition isAuthenticated (s : session) : bool * session * list Request.t :=
  let '(token, s) := getAuthToken s in
  if negb (JS.truthy token) then (false, s, [])
  else
    let '(r, s, requests) := getProfile s in
    (match r with Ok _ => true | Throw _ => false end, s, requests).

End Service.
End BackendAPI.

(** ** The popup: what [analyzeTabs] does with a failure *)

Module Popup.

Inductive reaction : Type :=
| UpgradePrompt (text : string)
| CheckAuthentication
| ShowMessage (text : string).

(** The [catch] block of [analyzeTabs]; [message] is
    [error.message]. *)
Definition onAnalysisError (message : string) : reaction :=
  if Str.includes "limit reached" message
  then UpgradePrompt "Monthly usage limit reached. Upgrade to continue!"
  else if Str.includes "Authentication required" message
       then CheckAuthentication
       else ShowMessage (if Str.is_empty message then "Analysis failed" else message).

End Popup.

(** ** Vocabulary of the further properties *)

(** The provider call threw with a message that is not empty: what
    [s.error] tests on the record that [analyzeTabs] makes of the
    failure. *)
Definition rejected (o : provider_outcome) : bool :=
  match o with
  | Fails message => negb (Str.is_empty message)
  | Replies _ => false
  end.

(** The tab with its title, description and headings in lower case. *)
Definition lowercased (tab : Tab.t) : Tab.t :=
  {| Tab.id := Tab.id tab;
     Tab.title := Str.toLowerCase (Tab.title tab);
     Tab.url := Tab.url tab;
     Tab.metaDescription := Str.toLowerCase (Tab.metaDescription tab);
     Tab.headings := map Str.toLowerCase (Tab.headings tab);
     Tab.textContent := Tab.textContent tab |}.

(** The characters of a string. *)
Definition chars (s : string) : list ascii := list_ascii_of_string s.

(** A lower-case word: letters that are not capitals, digits and
    underscores. *)
Definition lowerWord (w : string) : Prop :=
  forall c, In c (chars w) -> Str.is_word c = true /\ Str.lower_char c = c.

(** [c] is an object that lists the integer ids [ks] and has a name and
    a priority to read. *)
Definition listing (c : value) (ks : list Z) : Prop :=
  JS.get c "tabIds" = Ok (VArr (map VInt ks))
  /\ (exists n, JS.get c "name" = Ok n)
  /\ (exists p, JS.get c "clusterPriority" = Ok p).

(** The summary kept under the key [k], as a list. *)
Definition kept (summaries : ZMap.t TabAnalysis) (k : Z) : list TabAnalysis :=
  match ZMap.get k summaries with
  | Some tab => [tab]
  | None => []
  end.

(** Further sample data. *)
Module Further.

Definition otherPage : Tab.t :=
  {| Tab.id := 6; Tab.title := "Release notes";
     Tab.url := "https://example.org/notes"; Tab.metaDescription := EmptyString;
     Tab.headings := []; Tab.textContent := "Changes" |}.

(** A batch of two tabs: the provider fails on the first and answers
    for the second. *)
Definition calls : list (Tab.t * provider_outcome) :=
  [(Sample.page, Fails "provider down");
   (otherPage, Replies (Platform.requote "{'summary':'Notes','priorityScore':2}"))].

End Further.

(** The calls [trace] to [browser.tabs.move] are made in turn: with
    [t] tabs at the front and [c] calls made before, every call aims at
    the place after the tabs moved so far, and it goes through as
    [moved] says of its number. *)
Definition inTurn (moved : nat -> bool) (t c : nat) (trace : list Move.t) : Prop :=
  forall i m,
    nth_error trace i = Some m ->
    Move.index m = (t + List.length (filter Move.moved (firstn i trace)))%nat
    /\ Move.moved m = moved (c + i)%nat.

(** The ids among [ks] that belong to an open tab. *)
Definition openAmong (allIds : list Z) (ks : list Z) : list Z :=
  filter (fun k => mem k allIds) ks.

(** The ids [ks] without the closed tab. *)
Definition others (tabId : Z) (ks : list Z) : list Z :=
  filter (fun k => negb (k =? tabId)) ks.

(** [c'] is the cluster [c] after the tab was closed: the same object,
    but for the ids it lists. *)
Definition leftOf (tabId : Z) (c c' : value) : Prop :=
  ids_of c' = others tabId (ids_of c)
  /\ JS.get c' "name" = JS.get c "name"
  /\ JS.get c' "description" = JS.get c "description"
  /\ JS.get c' "clusterPriority" = JS.get c "clusterPriority".

Module SidebarSample.
Definition state : Sidebar.t :=
  {| Sidebar.clusters :=
       [Cluster_value {| name := "News"; description := "Pages from news.ycombinator.com";
                         tabIds := [2; 1]; clusterPriority := 3 # 2 |};
        Cluster_value {| name := "Example"; description := "Pages from example.com";
                         tabIds := [3]; clusterPriority := 4 |}];
     Sidebar.tabSummaries := Sample.threeTabs |}.
End SidebarSample.

(** The key under which the backend's fallback files a tab: the first
    label of the host name without its first [www.], [unknown] when that
    label is empty, and [other] when the URL does not parse. *)
Definition siteKey (URL_hostname : string -> option string) (tab : TabAnalysis) : string :=
  match URL_hostname (url tab) with
  | Some hostname =>
      let k := Str.split_head "." (Str.replace "www." EmptyString hostname) in
      if Str.is_empty k then "unknown" else k
  | None => "other"
  end.

(** A cluster with a name that counts as true and at least one id, all
    of them ids of the tabs. *)
Definition wellFormed (tabs : list TabAnalysis) (c : value) : Prop :=
  exists n ks,
    JS.get c "name" = Ok n /\ JS.truthy n = true
    /\ JS.get c "tabIds" = Ok (VArr (map VInt ks))
    /\ ks <> [] /\ Forall (fun k => In k (map id tabs)) ks.

(** The state of the fallback's map once the tabs [done] are filed:
    distinct keys; every cluster is named after its key and holds only ids
    of tabs with that key; every tab is held by the cluster of its key. *)
Definition filed (key : TabAnalysis -> string) (m : SMap.t Cluster)
    (done : list TabAnalysis) : Prop :=
  NoDup (map fst m)
  /\ (forall k c, In (k, c) m ->
                  name c = Str.capitalize k
                  /\ forall i, In i (tabIds c) ->
                               exists tab, In tab done /\ id tab = i /\ key tab = k)
  /\ (forall tab, In tab done ->
                  exists c, In (key tab, c) m /\ In (id tab) (tabIds c)).

(** The limit that the serverless entry reads off a user's row: a
    stored limit of zero counts as 25. *)
Definition effectiveLimit (user : User.t) : Z :=
  if User.usageLimit user =? 0 then 25 else User.usageLimit user.

(** [{ results, usage: { current, limit } }] *)
Definition analysed (results : value) (current limit : Z) : value :=
  VObj [("results", results);
        ("usage", VObj [("current", VInt current); ("limit", VInt limit)])].

(** The character [c] does not occur in [s]. *)
Definition without (c : ascii) (s : string) : Prop := ~ In c (chars s).

(** No space in [s]. *)
Definition spaceless (s : string) : Prop := without " " s.

Module ServerSample.

Definition subscriber : User.t :=
  {| User.id := 7; User.email := "ada@example.com"; User.plan := "business";
     User.usageThisMonth := 3; User.usageLimit := -1;
     User.stripeCustomerId := Some "cus_1" |}.

(** A world in which every call succeeds. *)
Definition world : World.t :=
  {| World.getUserById := fun _ => Ok (Some subscriber);
     World.analyzeTabs := fun tabs => Ok (VObj [("processed", VInt (Z.of_nat (List.length tabs)))]);
     World.incrementUsage := fun _ _ => Ok tt;
     World.logUsage := fun _ _ _ _ => Ok tt |}.

Definition body : value := VObj [("tabs", VArr [VObj [("id", VInt 1)]; VObj [("id", VInt 2)]])].

Definition event : Stripe.Subscription.t :=
  {| Stripe.Subscription.customer := "cus_1";
     Stripe.Subscription.priceId := "price_business_monthly";
     Stripe.Subscription.status := "active";
     Stripe.Subscription.current_period_end := 1700000000 |}.

Definition retrieve (customer : string) : result Stripe.Customer.t :=
  Ok {| Stripe.Customer.id := customer; Stripe.Customer.email := "ada@example.com" |}.

Definition getUserByEmail (email : string) : result (option User.t) := Ok (Some subscriber).

End ServerSample.

(** The server answers every request with the status [status]. *)
Definition answers (fetch : Request.t -> fetched) (status : Z) : Prop :=
  forall request, exists json, fetch request = Response status json.

Module ClientSample.

Definition session : BackendAPI.session :=
  {| BackendAPI.token := VStr "old";
     BackendAPI.store := [("authToken", VStr "old"); ("userProfile", VObj []);
                          ("clusters", VArr [])] |}.

Definition signedIn : value :=
  VObj [("token", VStr "t1"); ("user", VObj [("email", VStr "ada@example.com")])].

Definition toString (v : value) : string :=
  match v with
  | VStr s => s
  | _ => "?"
  end.

End ClientSample.

(** [outcome] is a sign-in that went through: one POST of the email
    address and the password to [endpoint], answered by [answer]; the
    session afterwards has the token [t] of the answer, in its field and
    in the storage, and the [user] of the answer as its cached profile;
    every later request carries the token. *)
Definition opened (JSON_stringify toString : value -> string)
    (email password endpoint : string) (answer t : value)
    (outcome : result value * BackendAPI.session * list Request.t) : Prop :=
  exists s' request user,
    outcome = (Ok answer, s', [request])
    /\ Request.url request = (BackendAPI.baseUrl ++ endpoint)%string
    /\ Request.method request = "POST"
    /\ Request.body request
       = Some (JSON_stringify (VObj [("email", VStr email); ("password", VStr password)]))
    /\ BackendAPI.getAuthToken s' = (t, s')
    /\ Storage.get "authToken" (BackendAPI.store s') = t
    /\ JS.get answer "user" = Ok user
    /\ BackendAPI.getCachedProfile s' = user
    /\ forall fetch' endpoint' options,
         exists r s'' request',
           BackendAPI.makeRequest fetch' JSON_stringify toString endpoint' options s'
           = (r, s'', [request'])
           /\ In ("Authorization", "Bearer " ++ toString t)%string
                 (Request.headers request').

(** The server's response as the client's [fetch] sees it. *)
Definition delivered (response : Http.response) (request : Request.t) : fetched :=
  Response (Http.status response) (Ok (Http.json response)).

(** [toString] leaves a text as it is. *)
Definition textual (toString : value -> string) : Prop :=
  forall s, toString (VStr s) = s.

(** The URL of the tab parses, and the first label of its host name,
    the first [www.] left out, is not empty. *)
Definition plainHost (URL_hostname : string -> option string) (tab : TabAnalysis) : Prop :=
  exists hostname,
    URL_hostname (url tab) = Some hostname
    /\ Str.split_head "." (Str.replace "www." EmptyString hostname) <> EmptyString.

(** The request for the profile that a session with the token [t]
    sends. *)
Definition profileRequest (toString : value -> string) (t : value) : Request.t :=
  {| Request.url := (BackendAPI.baseUrl ++ "/auth/profile")%string;
     Request.method := "GET";
     Request.headers := [("Content-Type", "application/json");
                         ("Authorization", ("Bearer " ++ toString t)%string)];
     Request.body := None |}.

(** The status of a response that counts as [response.ok]. *)
Definition successful (status : Z) : Prop := 200 <= status <= 299.

(** A cluster that the validation takes up: it has a name that counts
    as true and an array under [tabIds]. *)
Definition proper (c : value) : Prop :=
  exists n ids,
    JS.get c "name" = Ok n /\ JS.truthy n = true
    /\ JS.get c "tabIds" = Ok (VArr ids).

(** * Properties *)

(** ** Stable sorting *)

Section SortFacts.
Context {A : Type}.
Variable le : A -> A -> bool.

Let R (a b : A) : Prop := le a b = true.

Lemma sort_cons (x : A) (l : list A) : sort le (x :: l) = insert le x (sort le l).
Proof. reflexivity. Qed.

Lemma insert_perm (x : A) (l : list A) : Permutation (insert le x l) (x :: l).
Proof.
  induction l as [|y l IH]; simpl.
  - apply Permutation_refl.
  - destruct (le x y).
    + apply Permutation_refl.
    + eapply Permutation_trans; [apply perm_skip, IH | apply perm_swap].
Qed.

Lemma sort_perm (l : list A) : Permutation (sort le l) l.
Proof.
  induction l as [|x l IH]; [apply perm_nil | rewrite sort_cons].
  - eapply Permutation_trans; [apply insert_perm | apply perm_skip, IH].
Qed.

Lemma sort_In (l : list A) (x : A) : In x (sort le l) <-> In x l.
Proof.
  split; apply Permutation_in;
    [apply sort_perm | apply Permutation_sym, sort_perm].
Qed.

Lemma sort_length (l : list A) : List.length (sort le l) = List.length l.
Proof. apply Permutation_length, sort_perm. Qed.

Lemma sort_nil_iff (l : list A) : sort le l = [] <-> l = [].
Proof.
  split; intros H.
  - apply length_zero_iff_nil. rewrite <- sort_length, H. reflexivity.
  - subst l. reflexivity.
Qed.

Lemma insert_HdRel (a x : A) (l : list A) :
  R a x -> HdRel R a l -> HdRel R a (insert le x l).
Proof.
  intros Hax Hl. destruct l as [|y l]; simpl.
  - constructor. exact Hax.
  - destruct (le x y); constructor; [exact Hax | now inversion Hl].
Qed.

(** Insertion keeps a list locally sorted as soon as the comparator is
    total between the new element and the elements of the list. *)
Lemma insert_Sorted (x : A) (l : list A) :
  (forall y, In y l -> le x y = false -> le y x = true) ->
  Sorted R l -> Sorted R (insert le x l).
Proof.
  induction l as [|y l IH]; intros Htot Hs; simpl.
  - repeat constructor.
  - destruct (le x y) eqn:E.
    + constructor; [exact Hs | constructor; exact E].
    + inversion Hs; subst. constructor.
      * apply IH; [intros z Hz; apply Htot; now right | assumption].
      * apply insert_HdRel; [apply Htot; [now left | exact E] | assumption].
Qed.

Lemma sort_Sorted (l : list A) :
  (forall a b, In a l -> In b l -> le a b = false -> le b a = true) ->
  Sorted R (sort le l).
Proof.
  induction l as [|x l IH]; intros Htot; [constructor | rewrite sort_cons].
  - apply insert_Sorted.
    + intros y Hy. apply (proj1 (sort_In _ _)) in Hy. apply Htot; [now left | now right].
    + apply IH. intros a b Ha Hb. apply Htot; now right.
Qed.

(** With transitivity among the elements at hand, locally sorted lists
    are sorted throughout. *)
Lemma Sorted_strongly (l : list A) :
  (forall a b c, In a l -> In b l -> In c l -> R a b -> R b c -> R a c) ->
  Sorted R l -> StronglySorted R l.
Proof.
  induction l as [|x l IH]; intros Htr Hs.
  - constructor.
  - inversion Hs as [|? ? Hs' Hd]; subst.
    assert (IHl : StronglySorted R l).
    { apply IH; [|exact Hs']. intros a b c Ha Hb Hc. apply Htr; now right. }
    constructor; [exact IHl|].
    destruct l as [|y l]; [constructor|].
    inversion Hd; subst. inversion IHl; subst.
    constructor; [assumption|].
    rewrite Forall_forall in *. intros z Hz.
    apply (Htr x y z); [now left | right; now left | right; now right | assumption | auto].
Qed.

Lemma sort_StronglySorted (l : list A) :
  (forall a b, In a l -> In b l -> le a b = false -> le b a = true) ->
  (forall a b c, In a l -> In b l -> In c l -> R a b -> R b c -> R a c) ->
  StronglySorted R (sort le l).
Proof.
  intros Htot Htr. apply Sorted_strongly.
  - intros a b c Ha Hb Hc. apply Htr; now apply (proj1 (sort_In _ _)).
  - now apply sort_Sorted.
Qed.

(** Sorting a locally sorted list changes nothing. *)
Lemma sort_fixed (l : list A) : Sorted R l -> sort le l = l.
Proof.
  induction l as [|x l IH]; intros Hs; [reflexivity | rewrite sort_cons].
  - inversion Hs as [|? ? Hs' Hd]; subst. rewrite (IH Hs').
    destruct l as [|y l]; simpl; [reflexivity|].
    inversion Hd; subst. unfold R in *.
    match goal with H : le x y = true |- _ => now rewrite H end.
Qed.
End SortFacts.

(** A list sorted for a comparator stays sorted under a map that
    preserves the comparator. *)
Lemma Sorted_map {A B : Type} (RA : A -> A -> Prop) (RB : B -> B -> Prop)
    (f : A -> B) (l : list A) :
  (forall a b, RA a b -> RB (f a) (f b)) ->
  Sorted RA l -> Sorted RB (map f l).
Proof.
  intros Hf. induction 1 as [|x l Hs IH Hd]; simpl; constructor.
  - exact IH.
  - destruct Hd; simpl; constructor. now apply Hf.
Qed.

Lemma StronglySorted_map {A B : Type} (RA : A -> A -> Prop) (RB : B -> B -> Prop)
    (f : A -> B) (l : list A) :
  (forall a b, In a l -> In b l -> RA a b -> RB (f a) (f b)) ->
  StronglySorted RA l -> StronglySorted RB (map f l).
Proof.
  intros Hf Hs. induction Hs as [|x l Hs IH Hall]; simpl; constructor.
  - apply IH. intros a b Ha Hb. apply Hf; now right.
  - rewrite Forall_forall in *. intros y Hy.
    apply in_map_iff in Hy as (z & <- & Hz).
    apply Hf; [now left | now right | now apply Hall].
Qed.

Lemma StronglySorted_weaken {A : Type} (RA RB : A -> A -> Prop) (l : list A) :
  (forall a b, In a l -> In b l -> RA a b -> RB a b) ->
  StronglySorted RA l -> StronglySorted RB l.
Proof.
  intros H Hs. rewrite <- (map_id l).
  apply (StronglySorted_map RA RB (fun x => x)); assumption.
Qed.

Lemma Sorted_map_in {A B : Type} (RA : A -> A -> Prop) (RB : B -> B -> Prop)
    (f : A -> B) (l : list A) :
  (forall a b, In a l -> In b l -> RA a b -> RB (f a) (f b)) ->
  Sorted RA l -> Sorted RB (map f l).
Proof.
  intros Hf Hs. induction Hs as [|x l Hs IH Hd]; simpl; constructor.
  - apply IH. intros a b Ha Hb. apply Hf; now right.
  - destruct Hd as [|y l' Hxy]; simpl; constructor.
    apply Hf; [now left | right; now left | exact Hxy].
Qed.

(** ** Objects and numbers *)

Lemma lookup_update_same (k : string) (v : value) (ps : list (string * value)) :
  JS.lookup k (JS.update k v ps) = Some v.
Proof.
  induction ps as [|[k' v'] ps IH]; simpl.
  - now rewrite String.eqb_refl.
  - destruct (String.eqb k k') eqn:E; simpl.
    + now rewrite String.eqb_refl.
    + now rewrite E.
Qed.

Lemma lookup_update_other (k k' : string) (v : value) (ps : list (string * value)) :
  k <> k' -> JS.lookup k' (JS.update k v ps) = JS.lookup k' ps.
Proof.
  intros Hne. induction ps as [|[k0 v0] ps IH]; simpl.
  - destruct (String.eqb_spec k' k); [congruence | reflexivity].
  - destruct (String.eqb_spec k k0) as [->|Hk]; simpl.
    + destruct (String.eqb_spec k' k0); [congruence | reflexivity].
    + destruct (String.eqb_spec k' k0); [reflexivity | exact IH].
Qed.

Lemma update_unchanged (k : string) (v : value) (ps : list (string * value)) :
  JS.lookup k ps = Some v -> JS.update k v ps = ps.
Proof.
  induction ps as [|[k' v'] ps IH]; simpl; [discriminate|].
  destruct (String.eqb_spec k k') as [->|Hk]; intros H.
  - now injection H as ->.
  - now rewrite IH.
Qed.

Lemma update_update (k : string) (v w : value) (ps : list (string * value)) :
  JS.update k w (JS.update k v ps) = JS.update k w ps.
Proof.
  induction ps as [|[k' v'] ps IH]; simpl.
  - now rewrite String.eqb_refl.
  - destruct (String.eqb k k') eqn:E; simpl.
    + now rewrite String.eqb_refl.
    + now rewrite E, IH.
Qed.

Lemma Qred_inject_Z (k : Z) : Qred (inject_Z k) = inject_Z k.
Proof.
  unfold Qred, inject_Z. simpl.
  pose proof (Z.ggcd_gcd k 1) as Hg.
  pose proof (Z.ggcd_correct_divisors k 1) as Hd.
  destruct (Z.ggcd k 1) as [g [a b]]. simpl in *.
  rewrite Z.gcd_1_r in Hg. subst g. destruct Hd as [Ha Hb].
  rewrite !Z.mul_1_l in *. subst. reflexivity.
Qed.

Lemma int_of_Q_inject_Z (k : Z) : JS.int_of_Q (inject_Z k) = Some k.
Proof. unfold JS.int_of_Q. now rewrite Qred_inject_Z. Qed.

Lemma key_of_VInt (k : Z) : key_of (VInt k) = Some k.
Proof. apply int_of_Q_inject_Z. Qed.

Lemma VInt_inj (a b : Z) : VInt a = VInt b -> a = b.
Proof. unfold VInt, inject_Z. congruence. Qed.

Lemma map_VInt_inj (l l' : list Z) : map VInt l = map VInt l' -> l = l'.
Proof.
  revert l'. induction l as [|a l IH]; intros [|b l']; simpl; try discriminate.
  - reflexivity.
  - intros H. injection H as Hq Hl. f_equal; [|now apply IH].
    apply VInt_inj. unfold VInt. now rewrite Hq.
Qed.

Lemma round_inject_Z_half (n : Z) : Qfloor (inject_Z n + (1 # 2)) = n.
Proof.
  unfold Qfloor, Qplus, inject_Z. simpl.
  symmetry. apply (Z.div_unique _ _ _ 1); lia.
Qed.

(** [Math.round(x * 10) / 10] changes nothing the second time. *)
Lemma round1_idempotent (x : Q) : JS.round1 (JS.round1 x) = JS.round1 x.
Proof.
  unfold JS.round1 at 1 3. apply Qred_complete.
  assert (E : JS.round (JS.round1 x * inject_Z 10) = JS.round (x * inject_Z 10)).
  { unfold JS.round1. set (n := JS.round (x * inject_Z 10)).
    unfold JS.round at 1. rewrite <- (round_inject_Z_half n) at 2.
    apply Qfloor_comp. rewrite Qred_correct. field. }
  now rewrite E.
Qed.

Lemma round1_monotone (x y : Q) : (x <= y)%Q -> (JS.round1 x <= JS.round1 y)%Q.
Proof.
  intros H. unfold JS.round1. apply Qred_le.
  apply Qmult_le_compat_r; [|now compute].
  rewrite <- Zle_Qle. unfold JS.round. apply Qfloor_resp_le.
  apply Qplus_le_l. apply Qmult_le_compat_r; [exact H | now compute].
Qed.

Lemma priority_le_iff (a b : value) (p q : Q) :
  priority_of a = Some p -> priority_of b = Some q ->
  priority_le a b = true <-> (p <= q)%Q.
Proof.
  intros Ha Hb. unfold priority_le. rewrite Ha, Hb, Qle_bool_iff.
  split; intros H.
  - apply Qle_minus_iff in H. apply Qle_minus_iff.
    setoid_replace (q + - p)%Q with (0 + - (p - q))%Q by ring. exact H.
  - apply Qle_minus_iff. apply Qle_minus_iff in H.
    setoid_replace (0 + - (p - q))%Q with (q + - p)%Q by ring. exact H.
Qed.

Lemma Qle_bool_minus (p q : Q) : Qle_bool (p - q) 0 = true <-> (p <= q)%Q.
Proof.
  rewrite Qle_bool_iff. split; intros H.
  - apply Qle_minus_iff in H. apply Qle_minus_iff.
    setoid_replace (q + - p)%Q with (0 + - (p - q))%Q by ring. exact H.
  - apply Qle_minus_iff. apply Qle_minus_iff in H.
    setoid_replace (0 + - (p - q))%Q with (q + - p)%Q by ring. exact H.
Qed.

(** ** The tab map and the claiming of ids *)

Arguments key_of : simpl never.
Arguments VInt : simpl never.
Arguments tabMap : simpl never.

Lemma mem_In (k : Z) (s : list Z) : mem k s = true <-> In k s.
Proof.
  unfold mem. rewrite existsb_exists. split.
  - intros (x & Hx & E). apply Z.eqb_eq in E. now subst.
  - intros H. exists k. split; [exact H | apply Z.eqb_refl].
Qed.

Lemma mem_false (k : Z) (s : list Z) : mem k s = false <-> ~ In k s.
Proof.
  rewrite <- mem_In. destruct (mem k s); split; intros H; congruence.
Qed.

Lemma tabMap_Some (tabs : list TabAnalysis) (k : Z) (t : TabAnalysis) :
  tabMap tabs k = Some t -> In t tabs /\ id t = k.
Proof.
  unfold tabMap. intros H. apply find_some in H as [Hin E].
  split; [now apply in_rev | now apply Z.eqb_eq].
Qed.

Lemma tabMap_None (tabs : list TabAnalysis) (k : Z) :
  tabMap tabs k = None -> ~ In k (map id tabs).
Proof.
  unfold tabMap. intros H Hin. apply in_map_iff in Hin as (t & E & Hin).
  pose proof (find_none _ _ H t) as Hn. simpl in Hn.
  rewrite <- in_rev in Hn. specialize (Hn Hin). apply Z.eqb_neq in Hn. contradiction.
Qed.

Lemma has_tabMap (tabs : list TabAnalysis) (k : Z) :
  has (tabMap tabs) k = true <-> In k (map id tabs).
Proof.
  unfold has. destruct (tabMap tabs k) as [t|] eqn:E; split; intros H; try reflexivity.
  - apply tabMap_Some in E as [Hin <-]. now apply in_map.
  - discriminate.
  - now apply tabMap_None in E.
Qed.

Lemma NoDup_map_eq {A B : Type} (f : A -> B) (l : list A) (a b : A) :
  NoDup (map f l) -> In a l -> In b l -> f a = f b -> a = b.
Proof.
  induction l as [|x l IH]; simpl; intros Hnd Ha Hb E; [contradiction|].
  inversion Hnd as [|? ? Hx Hl]; subst.
  destruct Ha as [->|Ha], Hb as [->|Hb]; auto.
  - exfalso. apply Hx. rewrite E. now apply in_map.
  - exfalso. apply Hx. rewrite <- E. now apply in_map.
Qed.

(** With distinct ids the map gives back each tab at its own id. *)
Lemma tabMap_own (tabs : list TabAnalysis) (t : TabAnalysis) :
  NoDup (map id tabs) -> In t tabs -> tabMap tabs (id t) = Some t.
Proof.
  intros Hnd Hin. destruct (tabMap tabs (id t)) as [t'|] eqn:E.
  - apply tabMap_Some in E as [Hin' E]. f_equal.
    now apply (NoDup_map_eq id tabs).
  - apply tabMap_None in E. exfalso. apply E. now apply in_map.
Qed.

Section ClaimFacts.
Variable tabs : list TabAnalysis.

Lemma claim_spec (ids : list value) : forall assigned kept assigned',
  Backend.claim tabs assigned ids = (kept, assigned') ->
  assigned' = (rev kept ++ assigned)%list
  /\ NoDup kept
  /\ (forall k, In k kept -> In k (map id tabs) /\ ~ In k assigned).
Proof.
  induction ids as [|v ids IH]; simpl; intros assigned kept assigned' H.
  - injection H as <- <-. repeat split; try constructor; contradiction.
  - destruct (key_of v) as [k|]; [|now apply IH].
    destruct (has (tabMap tabs) k && negb (mem k assigned)) eqn:C; [|now apply IH].
    destruct (Backend.claim tabs (k :: assigned) ids) as [kept0 assigned0] eqn:E.
    injection H as <- <-. apply IH in E as (-> & Hnd & Hin).
    apply andb_prop in C as [Hk Hm]. apply has_tabMap in Hk.
    apply negb_true_iff, mem_false in Hm.
    split; [|split].
    + simpl. now rewrite <- app_assoc.
    + constructor; [|exact Hnd]. intros Hk'. apply Hin in Hk' as [_ Hn].
      apply Hn. now left.
    + intros k' [<-|Hk']; [now split|].
      apply Hin in Hk' as [H1 H2]. split; [exact H1|].
      intros H3. apply H2. now right.
Qed.

(** Ids that are known, distinct and not yet assigned are all kept. *)
Lemma claim_fresh (ks : list Z) : forall assigned,
  Forall (fun k => In k (map id tabs)) ks ->
  NoDup (ks ++ assigned) ->
  Backend.claim tabs assigned (map VInt ks) = (ks, (rev ks ++ assigned)%list).
Proof.
  induction ks as [|k ks IH]; simpl; intros assigned Hk Hnd; [reflexivity|].
  rewrite key_of_VInt. inversion Hk; subst. inversion Hnd as [|? ? Hx Hl]; subst.
  assert (C : has (tabMap tabs) k && negb (mem k assigned) = true).
  { apply andb_true_intro. split; [now apply has_tabMap|].
    apply negb_true_iff, mem_false. intros H. apply Hx, in_or_app. now right. }
  rewrite C, IH; [now rewrite <- app_assoc | assumption |].
  apply (Permutation_NoDup (Permutation_middle ks assigned k)). exact Hnd.
Qed.
End ClaimFacts.

(** ** Candidates and their revision *)

Lemma shaped_tabIds_of (c : value) (ks : list Z) (p : value) :
  shaped c ks p -> tabIds_of c = map VInt ks.
Proof.
  intros (ps & n & -> & _ & _ & Ht & _). unfold tabIds_of. simpl. now rewrite Ht.
Qed.

Lemma ids_of_map_VInt (ks : list Z) :
  flat_map (fun v => match key_of v with Some k => [k] | None => [] end) (map VInt ks) = ks.
Proof.
  induction ks as [|k ks IH]; simpl; [reflexivity|].
  now rewrite key_of_VInt, IH.
Qed.

Lemma shaped_ids_of (c : value) (ks : list Z) (p : value) :
  shaped c ks p -> ids_of c = ks.
Proof.
  intros H. unfold ids_of. rewrite (shaped_tabIds_of _ _ _ H). apply ids_of_map_VInt.
Qed.

Lemma shaped_priority_of (c : value) (ks : list Z) (q : Q) :
  shaped c ks (VNum q) -> priority_of c = Some q.
Proof.
  intros (ps & n & -> & _ & _ & _ & Hp). unfold priority_of. simpl. now rewrite Hp.
Qed.

Lemma shaped_candidate (c : value) (ks : list Z) (p : value) :
  shaped c ks p -> Backend.candidate c = Ok (Some (c, map VInt ks)).
Proof.
  intros (ps & n & -> & Hn & Ht & Hi & _). unfold Backend.candidate. simpl.
  now rewrite Hn, Ht, Hi.
Qed.

(** A candidate is an object with a name that counts as true and an
    array under [tabIds]. *)
Lemma candidate_inv (c c' : value) (ids : list value) :
  Backend.candidate c = Ok (Some (c', ids)) ->
  c' = c /\ exists ps n, c = VObj ps /\ JS.lookup "name" ps = Some n
                         /\ JS.truthy n = true
                         /\ JS.lookup "tabIds" ps = Some (VArr ids).
Proof.
  unfold Backend.candidate.
  destruct c as [ | | b | q | | s | l | ps]; simpl; try discriminate.
  destruct (JS.lookup "name" ps) as [n|] eqn:Hn; simpl; [|discriminate].
  destruct (JS.truthy n) eqn:Ht; [|discriminate].
  destruct (JS.lookup "tabIds" ps) as [t|] eqn:Hi; simpl; [|discriminate].
  destruct t; try discriminate. intros H. injection H as <- <-.
  split; [reflexivity|]. now exists ps, n.
Qed.

Lemma candidates_inv (l : list value) : forall cs,
  Backend.candidates l = Ok cs ->
  Forall (fun x => exists ps n, fst x = VObj ps /\ JS.lookup "name" ps = Some n
                                /\ JS.truthy n = true
                                /\ JS.lookup "tabIds" ps = Some (VArr (snd x))) cs.
Proof.
  induction l as [|c l IH]; simpl; intros cs H.
  - injection H as <-. constructor.
  - destruct (Backend.candidate c) as [o|] eqn:Ec; simpl in H; [|discriminate].
    destruct (Backend.candidates l) as [r|]; simpl in H; [|discriminate].
    injection H as <-. destruct o as [[c' ids]|]; [|now apply IH].
    constructor; [|now apply IH].
    apply candidate_inv in Ec as (-> & ps & n & H). simpl. now exists ps, n.
Qed.

Lemma candidates_shaped (l : list value) :
  Forall (fun c => exists ks p, shaped c ks p) l ->
  Backend.candidates l = Ok (map (fun c => (c, tabIds_of c)) l).
Proof.
  induction 1 as [|c l (ks & p & Hc) _ IH]; simpl; [reflexivity|].
  rewrite (shaped_candidate _ _ _ Hc), IH. simpl.
  now rewrite (shaped_tabIds_of _ _ _ Hc).
Qed.

(** [candidates] throws only on an element that is [null] or
    [undefined]. *)
Lemma candidates_total (l : list value) :
  Forall (fun c => c <> VNull /\ c <> VUndefined) l ->
  exists cs, Backend.candidates l = Ok cs.
Proof.
  induction 1 as [|c l [H1 H2] _ (cs & IH)]; simpl; [now exists []|].
  rewrite IH.
  assert (exists o, Backend.candidate c = Ok o) as (o & ->).
  { unfold Backend.candidate. destruct c; simpl; try congruence; eauto.
    destruct (JS.truthy _); simpl; eauto. }
  simpl. eauto.
Qed.

Section ReviseFacts.
Variable localeCompare : string -> string -> Z.
Variable tabs : list TabAnalysis.

Let leIds (a b : Z) : bool := Backend.compareIds localeCompare tabs a b <=? 0.

Lemma revise_spec (ps : list (string * value)) (n : value) (ids : list value)
    (assigned : list Z) :
  JS.lookup "name" ps = Some n -> JS.truthy n = true ->
  let kept := fst (Backend.claim tabs assigned ids) in
  let ks := sort leIds kept in
  Backend.revise localeCompare tabs assigned (VObj ps, ids)
  = (VObj (JS.update "clusterPriority" (revisedPriority tabs ks)
             (JS.update "tabIds" (VArr (map VInt ks)) ps)),
     (rev kept ++ assigned)%list)
  /\ shaped (VObj (JS.update "clusterPriority" (revisedPriority tabs ks)
                     (JS.update "tabIds" (VArr (map VInt ks)) ps)))
            ks (revisedPriority tabs ks).
Proof.
  intros Hn Ht kept ks. split.
  - unfold Backend.revise.
    destruct (Backend.claim tabs assigned ids) as [kept0 assigned0] eqn:E.
    pose proof (claim_spec tabs ids _ _ _ E) as (-> & _ & _).
    subst ks kept leIds. simpl fst.
    set (ks := sort _ kept0). simpl JS.set. unfold revisedPriority.
    destruct ks; reflexivity.
  - exists (JS.update "clusterPriority" (revisedPriority tabs ks)
              (JS.update "tabIds" (VArr (map VInt ks)) ps)), n.
    split; [reflexivity|]. split; [|split; [exact Ht|split]].
    + rewrite !lookup_update_other by discriminate. exact Hn.
    + rewrite lookup_update_other by discriminate. apply lookup_update_same.
    + apply lookup_update_same.
Qed.
End ReviseFacts.

Section ReviseAllFacts.
Variable localeCompare : string -> string -> Z.
Variable tabs : list TabAnalysis.

Let leIds (a b : Z) : bool := Backend.compareIds localeCompare tabs a b <=? 0.

Lemma reviseAll_spec (cs : list (value * list value)) : forall assigned revised assigned',
  Forall (fun x => exists ps n, fst x = VObj ps /\ JS.lookup "name" ps = Some n
                                /\ JS.truthy n = true
                                /\ JS.lookup "tabIds" ps = Some (VArr (snd x))) cs ->
  Backend.reviseAll localeCompare tabs assigned cs = (revised, assigned') ->
  Forall (revisedFrom localeCompare tabs (map fst cs)) revised
  /\ Permutation (flat_map ids_of revised ++ assigned) assigned'
  /\ (NoDup assigned -> NoDup assigned').
Proof.
  induction cs as [|[c ids] cs IH]; intros assigned revised assigned' Hcs H.
  - simpl in H. injection H as <- <-. simpl.
    split; [constructor | split; [apply Permutation_refl | auto]].
  - inversion Hcs as [|? ? (ps & n & Hc & Hn & Ht & _) Hcs']; subst.
    simpl in Hc. subst c.
    cbn [Backend.reviseAll] in H.
    destruct (revise_spec localeCompare tabs ps n ids assigned Hn Ht) as [E Hs].
    rewrite E in H. clear E.
    destruct (Backend.claim tabs assigned ids) as [kept a1] eqn:Ec.
    apply claim_spec in Ec as (-> & Hnd & Hk). simpl fst in *.
    destruct (Backend.reviseAll localeCompare tabs (rev kept ++ assigned) cs)
      as [revised0 assigned0] eqn:Er.
    injection H as <- <-.
    apply IH in Er as (Hok & Hp & Hn'); [|exact Hcs'].
    split; [|split].
    + constructor.
      * exists (VObj ps), kept. split; [now left|].
        split; [reflexivity|]. split; [exact Hs|].
        apply Forall_forall. intros k Hin. now apply Hk.
      * eapply Forall_impl; [|exact Hok].
        intros c (c0 & kept0 & Hin & H). exists c0, kept0. split; [now right | exact H].
    + simpl. rewrite (shaped_ids_of _ _ _ Hs).
      eapply Permutation_trans; [|exact Hp].
      rewrite <- app_assoc.
      eapply Permutation_trans;
        [apply Permutation_app_tail, (sort_perm leIds kept)|].
      eapply Permutation_trans; [apply Permutation_app_swap_app|].
      apply Permutation_app_head, Permutation_app_tail, Permutation_rev.
    + intros Ha. apply Hn'. apply NoDup_app.
      * apply (Permutation_NoDup (Permutation_rev kept)). exact Hnd.
      * exact Ha.
      * intros k Hin. apply in_rev in Hin. now apply Hk.
Qed.

Lemma flat_map_nonempty (l : list value) :
  flat_map ids_of (filter (fun c => negb (is_nil (tabIds_of c))) l) = flat_map ids_of l.
Proof.
  induction l as [|c l IH]; simpl; [reflexivity|].
  destruct (tabIds_of c) eqn:E; simpl.
  - unfold ids_of at 2. now rewrite E.
  - now rewrite IH.
Qed.

Variable URL_hostname : string -> option string.

Lemma validate_array (l : list value) :
  Backend.validateAndSortClusters URL_hostname localeCompare (VArr l) tabs
  = (cs <- Backend.candidates l ;;
     let '(revised, assigned) := Backend.reviseAll localeCompare tabs [] cs in
     Ok (sort priority_le
           (filter (fun c => negb (is_nil (tabIds_of c))) revised
              ++ otherCluster localeCompare tabs assigned)%list)).
Proof.
  unfold Backend.validateAndSortClusters, otherCluster.
  destruct (Backend.candidates l) as [cs|]; simpl; [|reflexivity].
  destruct (Backend.reviseAll localeCompare tabs [] cs) as [revised assigned].
  destruct (negb (is_nil _)); [reflexivity | now rewrite app_nil_r].
Qed.

(** On an array the validation throws only when [candidates] does. *)
Lemma validate_total (l : list value) :
  Forall (fun c => c <> VNull /\ c <> VUndefined) l ->
  exists out, Backend.validateAndSortClusters URL_hostname localeCompare (VArr l) tabs
              = Ok out.
Proof.
  intros H. rewrite validate_array.
  destruct (candidates_total l H) as (cs & ->). simpl.
  destruct (Backend.reviseAll localeCompare tabs [] cs). eauto.
Qed.
End ReviseAllFacts.

(** ** The shape of a validated result *)

Lemma candidates_origin (l : list value) : forall cs x,
  Backend.candidates l = Ok cs -> In x cs -> In (fst x) l.
Proof.
  induction l as [|c l IH]; simpl; intros cs x H Hin.
  - injection H as <-. contradiction.
  - destruct (Backend.candidate c) as [o|] eqn:Ec; simpl in H; [|discriminate].
    destruct (Backend.candidates l) as [r|]; simpl in H; [|discriminate].
    injection H as <-. destruct o as [[c' ids]|].
    + destruct Hin as [<-|Hin].
      * apply candidate_inv in Ec as [-> _]. now left.
      * right. now apply (IH r).
    + right. now apply (IH r).
Qed.

Lemma tabIds_of_Cluster_value (c : Cluster) :
  tabIds_of (Cluster_value c) = map VInt (tabIds c).
Proof. reflexivity. Qed.

Lemma ids_of_Cluster_value (c : Cluster) : ids_of (Cluster_value c) = tabIds c.
Proof. unfold ids_of. rewrite tabIds_of_Cluster_value. apply ids_of_map_VInt. Qed.

Lemma Cluster_value_shaped (c : Cluster) :
  name c <> EmptyString ->
  shaped (Cluster_value c) (tabIds c) (VNum (clusterPriority c)).
Proof.
  intros Hn. exists [("name", VStr (name c)); ("description", VStr (description c));
                     ("tabIds", VArr (map VInt (tabIds c)));
                     ("clusterPriority", VNum (clusterPriority c))], (VStr (name c)).
  repeat split. simpl. now destruct (name c).
Qed.

Lemma filter_map_commute {A B : Type} (f : A -> B) (p : B -> bool) (l : list A) :
  filter p (map f l) = map f (filter (fun x => p (f x)) l).
Proof.
  induction l as [|x l IH]; simpl; [reflexivity|].
  destruct (p (f x)); simpl; now rewrite IH.
Qed.

Lemma NoDup_filter {A : Type} (p : A -> bool) (l : list A) :
  NoDup l -> NoDup (filter p l).
Proof.
  induction 1 as [|x l Hx Hl IH]; simpl; [constructor|].
  destruct (p x); [constructor|]; auto.
  intros Hin. apply filter_In in Hin as [Hin _]. contradiction.
Qed.

(** The ids claimed and the ids left over make up the ids of the tabs. *)
Lemma claimed_and_left (ids assigned : list Z) :
  NoDup ids -> NoDup assigned -> (forall k, In k assigned -> In k ids) ->
  Permutation (assigned ++ filter (fun k => negb (mem k assigned)) ids) ids.
Proof.
  intros Hi Ha Hsub. apply NoDup_Permutation.
  - apply NoDup_app; [exact Ha | now apply NoDup_filter |].
    intros k Hk Hf. apply filter_In in Hf as [_ Hf].
    apply negb_true_iff, mem_false in Hf. contradiction.
  - exact Hi.
  - intros k. rewrite in_app_iff, filter_In. split.
    + intros [H|[H _]]; auto.
    + intros H. destruct (mem k assigned) eqn:E.
      * left. now apply mem_In.
      * right. now split.
Qed.

Lemma tabIds_of_flat_map (l : list value) :
  Forall (fun c => tabIds_of c = map VInt (ids_of c)) l ->
  flat_map tabIds_of l = map VInt (flat_map ids_of l).
Proof.
  induction 1 as [|c l Hc _ IH]; simpl; [reflexivity|].
  now rewrite map_app, Hc, IH.
Qed.

Section Structure.
Variable URL_hostname : string -> option string.
Variable localeCompare : string -> string -> Z.
Variable tabs : list TabAnalysis.

Lemma validate_structure (l : list value) (out : list value) :
  Backend.validateAndSortClusters URL_hostname localeCompare (VArr l) tabs = Ok out ->
  exists revised assigned,
    out = sort priority_le
            (filter (fun c => negb (is_nil (tabIds_of c))) revised
               ++ otherCluster localeCompare tabs assigned)%list
    /\ Forall (revisedFrom localeCompare tabs l) revised
    /\ Permutation (flat_map ids_of revised) assigned
    /\ NoDup assigned.
Proof.
  rewrite validate_array.
  destruct (Backend.candidates l) as [cs|] eqn:Ec; simpl; [|discriminate].
  destruct (Backend.reviseAll localeCompare tabs [] cs) as [revised assigned] eqn:Er.
  intros H. injection H as <-. exists revised, assigned.
  apply reviseAll_spec in Er as (Hok & Hp & Hnd); [|now apply (candidates_inv l)].
  split; [reflexivity|]. split; [|split].
  - eapply Forall_impl; [|exact Hok].
    intros c (c0 & kept & Hin & H). exists c0, kept. split; [|exact H].
    apply in_map_iff in Hin as (x & <- & Hin). now apply (candidates_origin l cs).
  - now rewrite app_nil_r in Hp.
  - apply Hnd. constructor.
Qed.

Lemma revisedFrom_known (origin : list value) (c : value) (k : Z) :
  revisedFrom localeCompare tabs origin c -> In k (ids_of c) -> In k (map id tabs).
Proof.
  intros (c0 & kept & _ & _ & Hs & Hk) Hin.
  rewrite (shaped_ids_of _ _ _ Hs) in Hin.
  apply (proj1 (sort_In _ _ _)) in Hin. rewrite Forall_forall in Hk. now apply Hk.
Qed.

Lemma otherCluster_ids (assigned : list Z) :
  Permutation (flat_map ids_of (otherCluster localeCompare tabs assigned))
              (filter (fun k => negb (mem k assigned)) (map id tabs)).
Proof.
  unfold otherCluster. rewrite filter_map_commute.
  destruct (filter _ tabs) as [|t u] eqn:E; [apply Permutation_refl|].
  cbn [is_nil negb flat_map]. rewrite app_nil_r, ids_of_Cluster_value.
  cbn [tabIds]. apply Permutation_map, sort_perm.
Qed.

Lemma otherCluster_shaped (assigned : list Z) :
  Forall (fun c => exists ks p, shaped c ks (VNum p))
         (otherCluster localeCompare tabs assigned).
Proof.
  unfold otherCluster. destruct (negb _); [|constructor].
  constructor; [|constructor]. eexists _, _. now apply Cluster_value_shaped.
Qed.

(** C1, in integers: the ids listed by the clusters of a validated
    result are the ids of the tabs, each once. *)
Lemma validate_ids (l : list value) (out : list value) :
  NoDup (map id tabs) ->
  Backend.validateAndSortClusters URL_hostname localeCompare (VArr l) tabs = Ok out ->
  Permutation (flat_map ids_of out) (map id tabs)
  /\ Forall (fun c => tabIds_of c = map VInt (ids_of c)) out.
Proof.
  intros Hnd H. apply validate_structure in H as (revised & assigned & -> & Hok & Hp & Ha).
  split.
  - eapply Permutation_trans; [apply Permutation_flat_map, sort_perm|].
    rewrite flat_map_app, flat_map_nonempty.
    eapply Permutation_trans;
      [apply Permutation_app; [exact Hp | apply otherCluster_ids]|].
    apply claimed_and_left; [exact Hnd | exact Ha |].
    intros k Hk. apply (Permutation_in _ (Permutation_sym Hp)) in Hk.
    apply in_flat_map in Hk as (c & Hc & Hk).
    rewrite Forall_forall in Hok. eapply revisedFrom_known; eauto.
  - apply Forall_forall. intros c Hc. apply (proj1 (sort_In _ _ _)) in Hc.
    apply in_app_or in Hc as [Hc|Hc].
    + apply filter_In in Hc as [Hc _]. rewrite Forall_forall in Hok.
      destruct (Hok c Hc) as (c0 & kept & _ & _ & Hs & _).
      now rewrite (shaped_ids_of _ _ _ Hs), (shaped_tabIds_of _ _ _ Hs).
    + pose proof (otherCluster_shaped assigned) as Ho. rewrite Forall_forall in Ho.
      destruct (Ho c Hc) as (ks & p & Hs).
      now rewrite (shaped_ids_of _ _ _ Hs), (shaped_tabIds_of _ _ _ Hs).
Qed.
End Structure.

(** ** The order of the clusters *)

Lemma sort_priority_le_sorted (l : list value) :
  Forall (fun c => exists p, priority_of c = Some p) l ->
  sortedByPriority (sort priority_le l).
Proof.
  intros Hp. rewrite Forall_forall in Hp.
  assert (Hs : StronglySorted (fun a b => priority_le a b = true) (sort priority_le l)).
  { apply sort_StronglySorted.
    - intros a b Ha Hb Hab. destruct (Hp a Ha) as [p Ea], (Hp b Hb) as [q Eb].
      apply (priority_le_iff b a q p Eb Ea).
      destruct (Qlt_le_dec q p) as [H|H]; [now apply Qlt_le_weak|].
      apply (priority_le_iff a b p q Ea Eb) in H. congruence.
    - intros a b c Ha Hb Hc Hab Hbc.
      destruct (Hp a Ha) as [p Ea], (Hp b Hb) as [q Eb], (Hp c Hc) as [r Ec].
      apply (priority_le_iff a c p r Ea Ec).
      apply (priority_le_iff a b p q Ea Eb) in Hab.
      apply (priority_le_iff b c q r Eb Ec) in Hbc.
      now apply Qle_trans with q. }
  assert (Hp' : forall c, In c (sort priority_le l) -> exists p, priority_of c = Some p).
  { intros c Hc. apply Hp. now apply (proj1 (sort_In priority_le _ _)). }
  revert Hs Hp'. generalize (sort priority_le l). clear. intros out Hs Hp.
  exists (map (fun c => match priority_of c with Some q => q | None => 0%Q end) out).
  split.
  - rewrite map_map. apply map_ext_in. intros c Hc.
    destruct (Hp c Hc) as [p ->]. reflexivity.
  - eapply StronglySorted_map; [|exact Hs].
    intros a b Ha Hb Hab. cbv beta.
    destruct (Hp a Ha) as [p Ea], (Hp b Hb) as [q Eb]. rewrite Ea, Eb.
    now apply (priority_le_iff a b p q Ea Eb).
Qed.

Lemma sort_clusters_sorted (l : list Cluster) :
  sortedByPriority
    (map Cluster_value
         (sort (fun a b => Qle_bool (clusterPriority a - clusterPriority b) 0) l)).
Proof.
  exists (map clusterPriority
              (sort (fun a b => Qle_bool (clusterPriority a - clusterPriority b) 0) l)).
  split; [now rewrite !map_map|].
  eapply StronglySorted_map with
    (RA := fun a b => Qle_bool (clusterPriority a - clusterPriority b) 0 = true).
  - intros a b _ _ H. now apply Qle_bool_minus.
  - apply sort_StronglySorted.
    + intros a b _ _ H. apply Qle_bool_minus.
      destruct (Qlt_le_dec (clusterPriority a) (clusterPriority b)) as [H'|H']; [|exact H'].
      apply Qlt_le_weak, Qle_bool_minus in H'. congruence.
    + intros a b c _ _ _ Hab Hbc. apply Qle_bool_minus.
      apply Qle_bool_minus in Hab. apply Qle_bool_minus in Hbc.
      now apply Qle_trans with (clusterPriority b).
Qed.

Section PriorityOrder.
Variable URL_hostname : string -> option string.
Variable JSON_parse : string -> result value.
Variable localeCompare : string -> string -> Z.
Variable tabs : list TabAnalysis.

Lemma revisedFrom_priority (origin : list value) (c : value) :
  revisedFrom localeCompare tabs origin c -> tabIds_of c <> [] ->
  exists p, priority_of c = Some p.
Proof.
  intros (c0 & kept & _ & _ & Hs & _) Hne.
  rewrite (shaped_tabIds_of _ _ _ Hs) in Hne.
  destruct (sort _ kept) as [|k ks] eqn:E; [now contradiction Hne|].
  unfold revisedPriority in Hs. eexists. eapply shaped_priority_of, Hs.
Qed.

Lemma validate_sorted (l : list value) (out : list value) :
  Backend.validateAndSortClusters URL_hostname localeCompare (VArr l) tabs = Ok out ->
  sortedByPriority out.
Proof.
  intros H. apply validate_structure in H as (revised & assigned & -> & Hok & _).
  apply sort_priority_le_sorted, Forall_app. split.
  - apply Forall_forall. intros c Hc. apply filter_In in Hc as [Hc Hne].
    rewrite Forall_forall in Hok. apply (revisedFrom_priority l c (Hok c Hc)).
    intros E. now rewrite E in Hne.
  - eapply Forall_impl; [|apply otherCluster_shaped].
    intros c (ks & p & Hs). exists p. eapply shaped_priority_of, Hs.
Qed.

Lemma fallback_sorted : sortedByPriority (Backend.fallbackClustering URL_hostname tabs).
Proof. apply sort_clusters_sorted. Qed.

Lemma validate_any_sorted (v : value) (out : list value) :
  Backend.validateAndSortClusters URL_hostname localeCompare v tabs = Ok out ->
  sortedByPriority out.
Proof.
  destruct v; try (intros H; injection H as <-; apply fallback_sorted).
  apply validate_sorted.
Qed.

Lemma Backend_clusterAndSortTabs_sorted (reply : provider_outcome) :
  sortedByPriority
    (Backend.clusterAndSortTabs URL_hostname JSON_parse localeCompare reply tabs).
Proof.
  unfold Backend.clusterAndSortTabs.
  destruct (List.length tabs <? 2)%nat.
  - eexists [_]. split; [reflexivity | repeat constructor].
  - destruct (reply_text reply) as [text|]; simpl; [|apply fallback_sorted].
    destruct (Backend.validateAndSortClusters _ _ _ _) as [out|] eqn:E; simpl.
    + now apply validate_any_sorted in E.
    + apply fallback_sorted.
Qed.
End PriorityOrder.

(** ** The extension's copy *)

(** On an array of candidates the two copies of the validation are the
    same function. *)
Lemma validate_copies (h h' : string -> option string) (lc : string -> string -> Z)
    (l : list value) (tabs : list TabAnalysis) :
  Extension.validateAndSortClusters h lc (VArr l) tabs
  = Backend.validateAndSortClusters h' lc (VArr l) tabs.
Proof. reflexivity. Qed.

Section ExtensionOrder.
Variable URL_hostname : string -> option string.
Variable JSON_parse : string -> result value.
Variable localeCompare : string -> string -> Z.
Variable tabs : list TabAnalysis.

Lemma Extension_fallback_sorted :
  sortedByPriority (Extension.fallbackClustering URL_hostname tabs).
Proof. apply sort_clusters_sorted. Qed.

Lemma Extension_validate_any_sorted (v : value) (out : list value) :
  Extension.validateAndSortClusters URL_hostname localeCompare v tabs = Ok out ->
  sortedByPriority out.
Proof.
  destruct v; try (intros H; injection H as <-; apply Extension_fallback_sorted).
  rewrite (validate_copies _ URL_hostname). apply validate_sorted.
Qed.

Lemma Extension_clusterAndSortTabs_sorted (apiKey : option string)
    (reply : provider_outcome) :
  sortedByPriority
    (Extension.clusterAndSortTabs URL_hostname JSON_parse localeCompare apiKey reply tabs).
Proof.
  unfold Extension.clusterAndSortTabs.
  destruct (negb (present apiKey) || (List.length tabs <? 2)%nat);
    [apply Extension_fallback_sorted|].
  destruct (reply_text reply) as [text|]; simpl; [|apply Extension_fallback_sorted].
  destruct (Str.match_span "[" "]" text) as [m|]; simpl;
    [|apply Extension_fallback_sorted].
  destruct (JSON_parse m) as [v|]; simpl; [|apply Extension_fallback_sorted].
  destruct (Extension.validateAndSortClusters _ _ _ _) as [out|] eqn:E; simpl.
  - now apply Extension_validate_any_sorted in E.
  - apply Extension_fallback_sorted.
Qed.
End ExtensionOrder.

(** ** The order of the ids within a cluster *)

Section MemberOrder.
Variable URL_hostname : string -> option string.
Variable localeCompare : string -> string -> Z.
Variable tabs : list TabAnalysis.

Hypothesis localeCompare_total :
  forall s t, localeCompare s t <= 0 \/ localeCompare t s <= 0.
Hypothesis localeCompare_trans :
  forall s t u, localeCompare s t <= 0 -> localeCompare t u <= 0 -> localeCompare s u <= 0.

Let leIds (a b : Z) : bool := Backend.compareIds localeCompare tabs a b <=? 0.
Let leTabs (a b : TabAnalysis) : bool := Backend.compareTabs localeCompare a b <=? 0.

Lemma leTabs_iff (a b : TabAnalysis) :
  leTabs a b = true <->
  priorityScore a < priorityScore b
  \/ (priorityScore a = priorityScore b /\ localeCompare (title a) (title b) <= 0).
Proof.
  unfold leTabs, Backend.compareTabs. rewrite Z.leb_le.
  destruct (Z.eqb_spec (priorityScore a - priorityScore b) 0); lia.
Qed.

Lemma leIds_iff (a b : Z) (tabA tabB : TabAnalysis) :
  tabMap tabs a = Some tabA -> tabMap tabs b = Some tabB ->
  leIds a b = leTabs tabA tabB.
Proof.
  intros Ha Hb. unfold leIds, leTabs, Backend.compareIds, Backend.compareTabs.
  rewrite Ha, Hb.
  destruct (Z.eqb_spec (priorityScore tabA) (priorityScore tabB)) as [E|E]; simpl.
  - rewrite E, Z.sub_diag. reflexivity.
  - destruct (Z.eqb_spec (priorityScore tabA - priorityScore tabB) 0); [lia | reflexivity].
Qed.

Lemma leTabs_total (a b : TabAnalysis) : leTabs a b = false -> leTabs b a = true.
Proof.
  intros H. apply leTabs_iff.
  assert (N : ~ (priorityScore a < priorityScore b
                 \/ (priorityScore a = priorityScore b
                     /\ localeCompare (title a) (title b) <= 0))).
  { intros C. apply leTabs_iff in C. congruence. }
  destruct (localeCompare_total (title a) (title b)); lia.
Qed.

Lemma leTabs_trans (a b c : TabAnalysis) :
  leTabs a b = true -> leTabs b c = true -> leTabs a c = true.
Proof.
  rewrite !leTabs_iff. intros [H1|[H1 L1]] [H2|[H2 L2]]; try lia.
  right. split; [lia|]. eapply localeCompare_trans; eauto.
Qed.

Lemma leIds_inOrder (a b : Z) :
  In a (map id tabs) -> In b (map id tabs) ->
  leIds a b = true -> inOrder localeCompare tabs a b.
Proof.
  intros Ha Hb H. apply has_tabMap in Ha, Hb. unfold has in *.
  destruct (tabMap tabs a) as [tabA|] eqn:Ea; [|discriminate].
  destruct (tabMap tabs b) as [tabB|] eqn:Eb; [|discriminate].
  exists tabA, tabB. rewrite (leIds_iff a b tabA tabB Ea Eb) in H.
  now apply leTabs_iff in H.
Qed.

Lemma sort_ids_inOrder (kept : list Z) :
  Forall (fun k => In k (map id tabs)) kept ->
  StronglySorted (inOrder localeCompare tabs) (sort leIds kept).
Proof.
  intros Hk. rewrite Forall_forall in Hk.
  assert (T : forall k, In k kept -> exists t, tabMap tabs k = Some t).
  { intros k Hin. apply Hk, has_tabMap in Hin. unfold has in Hin.
    destruct (tabMap tabs k); [eauto | discriminate]. }
  apply StronglySorted_weaken with (RA := fun a b => leIds a b = true).
  - intros a b Ha Hb. apply leIds_inOrder; apply Hk; now apply (proj1 (sort_In leIds _ _)).
  - apply sort_StronglySorted.
    + intros a b Ha Hb. destruct (T a Ha) as [ta Ea], (T b Hb) as [tb Eb].
      rewrite (leIds_iff a b ta tb Ea Eb), (leIds_iff b a tb ta Eb Ea).
      apply leTabs_total.
    + intros a b c Ha Hb Hc.
      destruct (T a Ha) as [ta Ea], (T b Hb) as [tb Eb], (T c Hc) as [tc Ec].
      rewrite (leIds_iff a b ta tb Ea Eb), (leIds_iff b c tb tc Eb Ec),
        (leIds_iff a c ta tc Ea Ec).
      apply leTabs_trans.
Qed.

Lemma revisedFrom_inOrder (origin : list value) (c : value) :
  revisedFrom localeCompare tabs origin c ->
  StronglySorted (inOrder localeCompare tabs) (ids_of c).
Proof.
  intros (c0 & kept & _ & _ & Hs & Hk).
  rewrite (shaped_ids_of _ _ _ Hs). now apply sort_ids_inOrder.
Qed.

Hypothesis ids_distinct : NoDup (map id tabs).

Lemma otherCluster_inOrder (assigned : list Z) :
  Forall (fun c => StronglySorted (inOrder localeCompare tabs) (ids_of c))
         (otherCluster localeCompare tabs assigned).
Proof.
  unfold otherCluster. destruct (negb _); [|constructor].
  constructor; [|constructor]. rewrite ids_of_Cluster_value. cbn [tabIds].
  set (u := filter _ tabs).
  assert (Hu : forall t, In t (sort leTabs u) -> In t tabs).
  { intros t Ht. apply (proj1 (sort_In leTabs _ _)) in Ht.
    now apply filter_In in Ht as [Ht _]. }
  eapply StronglySorted_map with (RA := fun a b => leTabs a b = true).
  - intros a b Ha Hb H. exists a, b.
    rewrite !tabMap_own by auto. repeat split. now apply leTabs_iff.
  - apply sort_StronglySorted.
    + intros a b _ _. apply leTabs_total.
    + intros a b c _ _ _. apply leTabs_trans.
Qed.

(** C6 on the validated path. *)
Lemma validate_inOrder (l : list value) (out : list value) :
  Backend.validateAndSortClusters URL_hostname localeCompare (VArr l) tabs = Ok out ->
  Forall (fun c => StronglySorted (inOrder localeCompare tabs) (ids_of c)) out.
Proof.
  intros H. apply validate_structure in H as (revised & assigned & -> & Hok & _).
  apply Forall_forall. intros c Hc. apply (proj1 (sort_In priority_le _ _)) in Hc.
  apply in_app_or in Hc as [Hc|Hc].
  - apply filter_In in Hc as [Hc _]. rewrite Forall_forall in Hok.
    eapply revisedFrom_inOrder, Hok, Hc.
  - pose proof (otherCluster_inOrder assigned) as Ho.
    rewrite Forall_forall in Ho. now apply Ho.
Qed.
End MemberOrder.

(** The fallback orders the ids of a cluster by score alone. *)
Lemma settle_inScoreOrder (tabs : list TabAnalysis) (c : Cluster) :
  StronglySorted (inScoreOrder tabs) (tabIds (Backend.settle tabs c)).
Proof.
  cbn [Backend.settle tabIds].
  apply StronglySorted_weaken with
    (RA := fun a b => (Backend.scoreOr3 tabs a - Backend.scoreOr3 tabs b <=? 0) = true).
  - intros a b _ _ H. apply Z.leb_le in H. unfold inScoreOrder. lia.
  - apply sort_StronglySorted.
    + intros a b _ _ H. apply Z.leb_gt in H. apply Z.leb_le. lia.
    + intros x y z _ _ _ H1 H2. apply Z.leb_le in H1, H2. apply Z.leb_le. lia.
Qed.

Lemma fallback_inScoreOrder (h : string -> option string) (tabs : list TabAnalysis) :
  Forall (fun c => StronglySorted (inScoreOrder tabs) (ids_of c))
         (Backend.fallbackClustering h tabs).
Proof.
  unfold Backend.fallbackClustering. apply Forall_forall. intros v Hv.
  apply in_map_iff in Hv as (c & <- & Hc). rewrite ids_of_Cluster_value.
  apply (proj1 (sort_In _ _ _)) in Hc. apply in_map_iff in Hc as (c0 & <- & _).
  apply settle_inScoreOrder.
Qed.

Lemma Extension_fallback_inScoreOrder (h : string -> option string)
    (tabs : list TabAnalysis) :
  Forall (fun c => StronglySorted (inScoreOrder tabs) (ids_of c))
         (Extension.fallbackClustering h tabs).
Proof.
  unfold Extension.fallbackClustering. apply Forall_forall. intros v Hv.
  apply in_map_iff in Hv as (c & <- & Hc). rewrite ids_of_Cluster_value.
  apply (proj1 (sort_In _ _ _)) in Hc. apply in_map_iff in Hc as (c0 & <- & _).
  apply (settle_inScoreOrder tabs c0).
Qed.

(** ** Validating a validated result *)

Lemma priority_of_obj (c : value) (p : Q) :
  priority_of c = Some p ->
  exists ps, c = VObj ps /\ JS.lookup "clusterPriority" ps = Some (VNum p).
Proof.
  unfold priority_of. destruct c as [ | | | | | | |ps]; simpl; try discriminate.
  destruct (JS.lookup "clusterPriority" ps) as [v|] eqn:E; [|discriminate].
  destruct v; try discriminate. intros H. injection H as ->. eauto.
Qed.

Lemma priority_of_rounded (c : value) :
  priority_of (rounded c) = option_map JS.round1 (priority_of c).
Proof.
  unfold rounded. destruct (priority_of c) as [p|] eqn:E; [|exact E].
  apply priority_of_obj in E as (ps & -> & _). unfold priority_of. simpl.
  now rewrite lookup_update_same.
Qed.

Lemma rounded_idempotent (c : value) : rounded (rounded c) = rounded c.
Proof.
  unfold rounded at 1. rewrite priority_of_rounded.
  unfold rounded. destruct (priority_of c) as [p|] eqn:E; simpl; [|reflexivity].
  apply priority_of_obj in E as (ps & -> & _). simpl.
  now rewrite update_update, round1_idempotent.
Qed.

Lemma rounded_monotone (a b : value) :
  priority_le a b = true -> priority_le (rounded a) (rounded b) = true.
Proof.
  unfold priority_le. rewrite !priority_of_rounded.
  destruct (priority_of a) as [p|], (priority_of b) as [q|]; simpl; try reflexivity.
  rewrite !Qle_bool_minus. apply round1_monotone.
Qed.

Lemma shaped_rounded (c : value) (ks : list Z) (p : Q) :
  shaped c ks (VNum p) ->
  rounded c = JS.set c "clusterPriority" (VNum (JS.round1 p))
  /\ shaped (rounded c) ks (VNum (JS.round1 p)).
Proof.
  intros Hs. pose proof (shaped_priority_of _ _ _ Hs) as Hp.
  unfold rounded. rewrite Hp. split; [reflexivity|].
  destruct Hs as (ps & n & -> & Hn & Ht & Hi & _). simpl.
  exists (JS.update "clusterPriority" (VNum (JS.round1 p)) ps), n.
  split; [reflexivity|]. split; [|split; [exact Ht|split]].
  - rewrite lookup_update_other by discriminate. exact Hn.
  - rewrite lookup_update_other by discriminate. exact Hi.
  - apply lookup_update_same.
Qed.

Section Rerun.
Variable URL_hostname : string -> option string.
Variable localeCompare : string -> string -> Z.
Variable tabs : list TabAnalysis.

Let leIds (a b : Z) : bool := Backend.compareIds localeCompare tabs a b <=? 0.

Let wf (c : value) : Prop :=
  exists ks p,
    shaped c ks (VNum p) /\ ks <> []
    /\ Sorted (fun a b => leIds a b = true) ks
    /\ JS.round1 p
       = JS.round1 (quotient (sum (map (Backend.scoreAt tabs) ks)) (List.length ks)).

Lemma revise_settled (c : value) (assigned : list Z) :
  wf c ->
  Forall (fun k => In k (map id tabs)) (ids_of c) ->
  NoDup (ids_of c ++ assigned) ->
  Backend.revise localeCompare tabs assigned (c, tabIds_of c)
  = (rounded c, (rev (ids_of c) ++ assigned)%list).
Proof.
  intros (ks & p & Hs & Hne & Hsorted & Hp) Hk Hnd.
  rewrite (shaped_ids_of _ _ _ Hs) in *. rewrite (shaped_tabIds_of _ _ _ Hs).
  destruct (shaped_rounded _ _ _ Hs) as [-> _].
  destruct Hs as (ps & n & -> & Hn & Ht & Hi & Hq).
  destruct (revise_spec localeCompare tabs ps n (map VInt ks) assigned Hn Ht) as [-> _].
  rewrite (claim_fresh tabs ks assigned Hk Hnd). simpl fst.
  fold leIds. rewrite (sort_fixed leIds ks Hsorted).
  rewrite (update_unchanged "tabIds" _ ps Hi).
  unfold revisedPriority. destruct ks as [|k ks]; [congruence|].
  now rewrite <- Hp.
Qed.

Lemma reviseAll_keeps (cs : list (value * list value)) : forall assigned revised assigned',
  Backend.reviseAll localeCompare tabs assigned cs = (revised, assigned') ->
  forall k, In k assigned -> In k assigned'.
Proof.
  induction cs as [|[c ids] cs IH]; simpl; intros assigned revised assigned' E k Hk.
  - now injection E as _ <-.
  - destruct (Backend.claim tabs assigned ids) as [kept a1] eqn:Ec.
    destruct (Backend.reviseAll localeCompare tabs a1 cs) as [r a2] eqn:Er.
    injection E as _ <-. apply (IH _ _ _ Er).
    apply claim_spec in Ec as (-> & _). apply in_or_app. now right.
Qed.

Lemma reviseAll_settled (L : list value) : forall assigned,
  Forall wf L ->
  Forall (fun k => In k (map id tabs)) (flat_map ids_of L) ->
  NoDup (flat_map ids_of L ++ assigned) ->
  exists assigned',
    Backend.reviseAll localeCompare tabs assigned (map (fun c => (c, tabIds_of c)) L)
    = (map rounded L, assigned')
    /\ forall k, In k (flat_map ids_of L) -> In k assigned'.
Proof.
  induction L as [|c L IH]; intros assigned Hwf Hk Hnd.
  - exists assigned. split; [reflexivity | contradiction].
  - inversion Hwf as [|? ? Hc Hwf']; subst. simpl in Hk, Hnd.
    apply Forall_app in Hk as [Hkc HkL]. rewrite <- app_assoc in Hnd.
    cbn [map Backend.reviseAll].
    rewrite revise_settled; [|exact Hc|exact Hkc|].
    2:{ apply NoDup_app_remove_l with (l := flat_map ids_of L).
        eapply Permutation_NoDup; [apply Permutation_app_swap_app | exact Hnd]. }
    destruct (IH (rev (ids_of c) ++ assigned)%list Hwf' HkL) as (a' & E & Hin).
    { eapply Permutation_NoDup; [|exact Hnd].
      eapply Permutation_trans; [apply Permutation_app_swap_app|].
      apply Permutation_app_head, Permutation_app_tail, Permutation_rev. }
    rewrite E. exists a'. split; [reflexivity|].
    intros k Hk'. simpl in Hk'. apply in_app_or in Hk' as [Hk'|Hk']; [|now apply Hin].
    apply (reviseAll_keeps _ _ _ _ E). apply in_or_app. left. now apply in_rev in Hk'.
Qed.
End Rerun.

Lemma filter_none {A : Type} (p : A -> bool) (l : list A) :
  (forall x, In x l -> p x = false) -> filter p l = [].
Proof.
  induction l as [|x l IH]; simpl; intros H; [reflexivity|].
  rewrite (H x) by now left. apply IH. intros y Hy. apply H. now right.
Qed.

Lemma filter_all {A : Type} (p : A -> bool) (l : list A) :
  (forall x, In x l -> p x = true) -> filter p l = l.
Proof.
  induction l as [|x l IH]; simpl; intros H; [reflexivity|].
  rewrite (H x) by now left. f_equal. apply IH. intros y Hy. apply H. now right.
Qed.

Section Settled.
Variable URL_hostname : string -> option string.
Variable localeCompare : string -> string -> Z.
Variable tabs : list TabAnalysis.

Hypothesis ids_distinct : NoDup (map id tabs).

Let leIds (a b : Z) : bool := Backend.compareIds localeCompare tabs a b <=? 0.

(** Validating a settled result rounds its priorities and changes
    nothing else. *)
Lemma validate_settled (L : list value) :
  settled localeCompare tabs L ->
  Backend.validateAndSortClusters URL_hostname localeCompare (VArr L) tabs
  = Ok (map rounded L).
Proof.
  intros (Hwf & Hperm & Hsorted). rewrite validate_array.
  rewrite candidates_shaped.
  2:{ eapply Forall_impl; [|exact Hwf]. intros c (ks & p & Hs & _). eauto. }
  cbn [bind].
  destruct (reviseAll_settled localeCompare tabs L [] Hwf) as (a' & -> & Hin).
  { apply Forall_forall. intros k Hk. now apply (Permutation_in _ Hperm). }
  { rewrite app_nil_r. apply (Permutation_NoDup (Permutation_sym Hperm) ids_distinct). }
  f_equal.
  assert (Ho : otherCluster localeCompare tabs a' = []).
  { unfold otherCluster. rewrite filter_none; [reflexivity|].
    intros t Ht. apply negb_false_iff, mem_In, Hin.
    apply (Permutation_in _ (Permutation_sym Hperm)). now apply in_map. }
  rewrite Ho, app_nil_r, filter_all.
  - apply sort_fixed. eapply Sorted_map; [|exact Hsorted]. apply rounded_monotone.
  - intros c' Hc'. apply in_map_iff in Hc' as (c & <- & Hc).
    rewrite Forall_forall in Hwf. destruct (Hwf c Hc) as (ks & p & Hs & Hne & _).
    destruct (shaped_rounded _ _ _ Hs) as [_ Hs'].
    rewrite (shaped_tabIds_of _ _ _ Hs'). now destruct ks.
Qed.

Lemma settled_rounded (L : list value) :
  settled localeCompare tabs L -> settled localeCompare tabs (map rounded L).
Proof.
  intros (Hwf & Hperm & Hsorted). split; [|split].
  - apply Forall_forall. intros c' Hc'. apply in_map_iff in Hc' as (c & <- & Hc).
    rewrite Forall_forall in Hwf. destruct (Hwf c Hc) as (ks & p & Hs & Hne & Hso & Hp).
    exists ks, (JS.round1 p). destruct (shaped_rounded _ _ _ Hs) as [_ Hs'].
    repeat split; try assumption. now rewrite round1_idempotent.
  - replace (flat_map ids_of (map rounded L)) with (flat_map ids_of L); [exact Hperm|].
    clear Hperm Hsorted. induction Hwf as [|c L (ks & p & Hs & _) _ IH]; simpl;
      [reflexivity|].
    destruct (shaped_rounded _ _ _ Hs) as [_ Hs'].
    now rewrite (shaped_ids_of _ _ _ Hs), (shaped_ids_of _ _ _ Hs'), IH.
  - eapply Sorted_map; [|exact Hsorted]. apply rounded_monotone.
Qed.

Hypothesis localeCompare_total :
  forall s t, localeCompare s t <= 0 \/ localeCompare t s <= 0.

Lemma leIds_total (a b : Z) : leIds a b = false -> leIds b a = true.
Proof.
  unfold leIds, Backend.compareIds.
  destruct (tabMap tabs a) as [ta|], (tabMap tabs b) as [tb|]; try discriminate.
  rewrite Z.eqb_sym.
  destruct (Z.eqb_spec (priorityScore tb) (priorityScore ta)) as [E|E]; simpl;
    rewrite ?Z.leb_le, ?Z.leb_gt.
  - destruct (localeCompare_total (title ta) (title tb)); lia.
  - lia.
Qed.

Lemma scoreAt_own (l : list TabAnalysis) :
  (forall t, In t l -> In t tabs) ->
  map (Backend.scoreAt tabs) (map id l) = map priorityScore l.
Proof.
  intros H. rewrite map_map. apply map_ext_in. intros t Ht.
  unfold Backend.scoreAt. now rewrite tabMap_own by auto.
Qed.

Lemma otherCluster_settled (assigned : list Z) :
  Forall (fun c => exists ks p,
              shaped c ks (VNum p) /\ ks <> []
              /\ Sorted (fun a b => leIds a b = true) ks
              /\ JS.round1 p
                 = JS.round1 (quotient (sum (map (Backend.scoreAt tabs) ks))
                                       (List.length ks)))
         (otherCluster localeCompare tabs assigned).
Proof.
  unfold otherCluster. set (u := filter _ tabs).
  destruct u as [|t0 u0] eqn:Eu; [constructor|]. cbn [is_nil negb].
  constructor; [|constructor]. rewrite <- Eu.
  set (leTabs := fun a b => Backend.compareTabs localeCompare a b <=? 0).
  assert (Hu : forall t, In t (sort leTabs u) -> In t tabs).
  { intros t Ht. apply (proj1 (sort_In leTabs _ _)) in Ht.
    now apply filter_In in Ht as [Ht _]. }
  eexists _, _. split; [now apply Cluster_value_shaped|]. cbn [tabIds clusterPriority].
  split; [|split].
  - intros E. apply map_eq_nil in E. apply sort_nil_iff in E. subst u. congruence.
  - eapply Sorted_map_in with (RA := fun a b => leTabs a b = true).
    + intros a b Ha Hb H. unfold leIds, Backend.compareIds.
      rewrite !tabMap_own by auto. unfold leTabs, Backend.compareTabs in H.
      destruct (Z.eqb_spec (priorityScore a) (priorityScore b)) as [E|E]; simpl.
      * now rewrite E, Z.sub_diag in H.
      * destruct (Z.eqb_spec (priorityScore a - priorityScore b) 0); [lia | exact H].
    + apply sort_Sorted. intros a b _ _ H.
      apply Z.leb_gt in H. apply Z.leb_le. unfold Backend.compareTabs in *.
      destruct (Z.eqb_spec (priorityScore a - priorityScore b) 0) as [E|E];
        destruct (Z.eqb_spec (priorityScore b - priorityScore a) 0) as [E'|E']; try lia.
      destruct (localeCompare_total (title a) (title b)); lia.
  - now rewrite scoreAt_own, length_map.
Qed.

Lemma validate_gives_settled (l : list value) (out : list value) :
  Backend.validateAndSortClusters URL_hostname localeCompare (VArr l) tabs = Ok out ->
  settled localeCompare tabs out.
Proof.
  intros H. pose proof (validate_ids URL_hostname localeCompare tabs l out ids_distinct H)
    as [Hperm _].
  apply validate_structure in H as (revised & assigned & -> & Hok & _).
  set (X := (filter _ revised ++ otherCluster localeCompare tabs assigned)%list) in *.
  assert (HX : Forall (fun c => exists ks p,
              shaped c ks (VNum p) /\ ks <> []
              /\ Sorted (fun a b => leIds a b = true) ks
              /\ JS.round1 p
                 = JS.round1 (quotient (sum (map (Backend.scoreAt tabs) ks))
                                       (List.length ks))) X).
  { apply Forall_app. split; [|apply otherCluster_settled].
    apply Forall_forall. intros c Hc. apply filter_In in Hc as [Hc Hne].
    rewrite Forall_forall in Hok. destruct (Hok c Hc) as (c0 & kept & _ & _ & Hs & _).
    rewrite (shaped_tabIds_of _ _ _ Hs) in Hne.
    change (fun a b => Backend.compareIds localeCompare tabs a b <=? 0) with leIds in Hs, Hne.
    assert (Hso : Sorted (fun a b => leIds a b = true) (sort leIds kept)).
    { apply sort_Sorted. intros a b _ _. apply leIds_total. }
    destruct (sort leIds kept) as [|k ks]; [discriminate|].
    unfold revisedPriority in Hs. eexists _, _. split; [exact Hs|].
    split; [discriminate|]. split; [exact Hso | now rewrite round1_idempotent]. }
  split; [|split; [exact Hperm|]].
  - apply Forall_forall. intros c Hc. apply (proj1 (sort_In priority_le _ _)) in Hc.
    rewrite Forall_forall in HX. now apply HX.
  - apply sort_Sorted. intros a b Ha Hb Hab. rewrite Forall_forall in HX.
    destruct (HX a Ha) as (ka & p & Hsa & _), (HX b Hb) as (kb & q & Hsb & _).
    apply shaped_priority_of in Hsa, Hsb.
    apply (priority_le_iff b a q p Hsb Hsa).
    destruct (Qlt_le_dec q p) as [H|H]; [now apply Qlt_le_weak|].
    apply (priority_le_iff a b p q Hsa Hsb) in H. congruence.
Qed.
End Settled.

(** ** The domain-based fallback *)

Lemma has_In (k : string) (m : SMap.t Cluster) :
  SMap.has k m = true <-> In k (map fst m).
Proof.
  unfold SMap.has. rewrite existsb_exists. split.
  - intros (e & He & E). apply String.eqb_eq in E. subst. now apply in_map.
  - intros H. apply in_map_iff in H as (e & <- & He). exists e.
    split; [exact He | apply String.eqb_refl].
Qed.

Lemma adjust_keys (f : Cluster -> Cluster) (k : string) (m : SMap.t Cluster) :
  map fst (SMap.adjust f k m) = map fst m.
Proof.
  unfold SMap.adjust. rewrite map_map. apply map_ext. intros [k' c]. simpl.
  now destruct (String.eqb k k').
Qed.

Lemma adjust_absent (f : Cluster -> Cluster) (k : string) (m : SMap.t Cluster) :
  ~ In k (map fst m) -> SMap.adjust f k m = m.
Proof.
  induction m as [|[k' c] m IH]; simpl; intros H; [reflexivity|].
  destruct (String.eqb_spec k k') as [->|_].
  - exfalso. apply H. now left.
  - f_equal. apply IH. intros H'. apply H. now right.
Qed.

Lemma adjust_push (i : Z) (k : string) (m : SMap.t Cluster) :
  NoDup (map fst m) -> In k (map fst m) ->
  Permutation (all_ids (SMap.adjust (push i) k m)) (i :: all_ids m).
Proof.
  unfold all_ids. induction m as [|[k' c] m IH]; simpl; intros Hnd Hin; [contradiction|].
  inversion Hnd as [|? ? Hk' Hm]; subst.
  destruct (String.eqb_spec k k') as [->|Hne]; simpl.
  - rewrite adjust_absent by exact Hk'. rewrite <- app_assoc. simpl.
    apply Permutation_sym, Permutation_middle.
  - destruct Hin as [E|Hin]; [congruence|].
    eapply Permutation_trans; [apply Permutation_app_head, IH; assumption|].
    apply Permutation_sym, Permutation_middle.
Qed.

Lemma add_keys (k : string) (c : Cluster) (m : SMap.t Cluster) :
  map fst (SMap.add k c m) = (map fst m ++ [k])%list.
Proof. unfold SMap.add. now rewrite map_app. Qed.

(** Entering a tab under a key: the keys stay distinct and the tab's id
    is added once. *)
Lemma enter_spec (i : Z) (k : string) (fresh : Cluster) (m : SMap.t Cluster) :
  tabIds fresh = [] -> NoDup (map fst m) ->
  let m' := SMap.adjust (push i) k (if SMap.has k m then m else SMap.add k fresh m) in
  NoDup (map fst m') /\ Permutation (all_ids m') (i :: all_ids m).
Proof.
  intros Hf Hnd m'. subst m'. destruct (SMap.has k m) eqn:E.
  - rewrite adjust_keys. split; [exact Hnd|].
    apply adjust_push; [exact Hnd | now apply has_In].
  - assert (Hk : ~ In k (map fst m)).
    { intros H. apply has_In in H. congruence. }
    assert (Hnd' : NoDup (map fst (SMap.add k fresh m))).
    { rewrite add_keys. apply NoDup_app; [exact Hnd | repeat constructor; auto |].
      intros a Ha [<-|[]]. contradiction. }
    rewrite adjust_keys. split; [exact Hnd'|].
    eapply Permutation_trans.
    + apply adjust_push; [exact Hnd'|]. rewrite add_keys. apply in_or_app. right. now left.
    + apply perm_skip. unfold all_ids, SMap.values, SMap.add.
      rewrite map_app, flat_map_app. simpl. now rewrite Hf, !app_nil_r.
Qed.

(** The second half of the fallback: empty clusters dropped, ids and
    clusters sorted. *)
Lemma finish_ids (tabs : list TabAnalysis) (m : SMap.t Cluster) :
  Permutation
    (flat_map tabIds_of
       (map Cluster_value
          (sort (fun a b => Qle_bool (clusterPriority a - clusterPriority b) 0)
                (map (Backend.settle tabs)
                     (filter (fun c => negb (is_nil (tabIds c))) (SMap.values m))))))
    (map VInt (all_ids m)).
Proof.
  assert (E : forall l, flat_map tabIds_of (map Cluster_value l) = map VInt (flat_map tabIds l)).
  { induction l as [|c l IH]; simpl; [reflexivity|].
    now rewrite map_app, IH. }
  rewrite E. apply Permutation_map.
  eapply Permutation_trans; [apply Permutation_flat_map, sort_perm|].
  unfold all_ids. induction (SMap.values m) as [|c l IH]; simpl; [constructor|].
  destruct (is_nil (tabIds c)) eqn:En; simpl.
  - destruct (tabIds c); [exact IH | discriminate].
  - apply Permutation_app; [apply sort_perm | exact IH].
Qed.

Section FallbackIds.
Variable URL_hostname : string -> option string.

Lemma Backend_place_spec (m : SMap.t Cluster) (tab : TabAnalysis) :
  NoDup (map fst m) ->
  NoDup (map fst (Backend.place URL_hostname m tab))
  /\ Permutation (all_ids (Backend.place URL_hostname m tab)) (id tab :: all_ids m).
Proof.
  intros Hnd. unfold Backend.place.
  destruct (URL_hostname (url tab)); now apply enter_spec.
Qed.

Lemma Extension_place_spec (m : SMap.t Cluster) (tab : TabAnalysis) :
  NoDup (map fst m) ->
  NoDup (map fst (Extension.place URL_hostname m tab))
  /\ Permutation (all_ids (Extension.place URL_hostname m tab))
                 ((if parses URL_hostname tab then [id tab] else []) ++ all_ids m).
Proof.
  intros Hnd. unfold Extension.place, parses.
  destruct (URL_hostname (url tab)); [now apply enter_spec|].
  split; [exact Hnd | apply Permutation_refl].
Qed.

Lemma Backend_grouping (tabs : list TabAnalysis) : forall m,
  NoDup (map fst m) ->
  Permutation (all_ids (fold_left (Backend.place URL_hostname) tabs m))
              (all_ids m ++ map id tabs).
Proof.
  induction tabs as [|t tabs IH]; simpl; intros m Hnd.
  - now rewrite app_nil_r.
  - destruct (Backend_place_spec m t Hnd) as [Hnd' Hp].
    eapply Permutation_trans; [apply IH, Hnd'|].
    eapply Permutation_trans; [apply Permutation_app_tail, Hp|].
    simpl. apply Permutation_middle.
Qed.

Lemma Extension_grouping (tabs : list TabAnalysis) : forall m,
  NoDup (map fst m) ->
  Permutation (all_ids (fold_left (Extension.place URL_hostname) tabs m))
              (all_ids m ++ map id (filter (parses URL_hostname) tabs)).
Proof.
  induction tabs as [|t tabs IH]; simpl; intros m Hnd.
  - now rewrite app_nil_r.
  - destruct (Extension_place_spec m t Hnd) as [Hnd' Hp].
    eapply Permutation_trans; [apply IH, Hnd'|].
    eapply Permutation_trans; [apply Permutation_app_tail, Hp|].
    destruct (parses URL_hostname t); simpl; [apply Permutation_middle | apply Permutation_refl].
Qed.

(** The backend's fallback lists every id once. *)
Lemma Backend_fallback_ids (tabs : list TabAnalysis) :
  Permutation (flat_map tabIds_of (Backend.fallbackClustering URL_hostname tabs))
              (map VInt (map id tabs)).
Proof.
  unfold Backend.fallbackClustering.
  eapply Permutation_trans; [apply finish_ids|].
  apply Permutation_map. apply (Backend_grouping tabs []). constructor.
Qed.

(** The extension's fallback lists the ids of the tabs whose URL
    parses. *)
Lemma Extension_fallback_ids (tabs : list TabAnalysis) :
  Permutation (flat_map tabIds_of (Extension.fallbackClustering URL_hostname tabs))
              (map VInt (map id (filter (parses URL_hostname) tabs))).
Proof.
  unfold Extension.fallbackClustering.
  eapply Permutation_trans; [apply (finish_ids tabs)|].
  apply Permutation_map. apply (Extension_grouping tabs []). constructor.
Qed.
End FallbackIds.

(** ** Every tab in one cluster *)

Section IdsEndToEnd.
Variable URL_hostname : string -> option string.
Variable JSON_parse : string -> result value.
Variable localeCompare : string -> string -> Z.
Variable tabs : list TabAnalysis.
Hypothesis ids_distinct : NoDup (map id tabs).

Lemma validate_tabIds (l : list value) (out : list value) :
  Backend.validateAndSortClusters URL_hostname localeCompare (VArr l) tabs = Ok out ->
  Permutation (flat_map tabIds_of out) (map VInt (map id tabs)).
Proof.
  intros H.
  destruct (validate_ids URL_hostname localeCompare tabs l out ids_distinct H) as [Hp Hf].
  rewrite (tabIds_of_flat_map out Hf). now apply Permutation_map.
Qed.

Lemma validate_any_tabIds (v : value) (out : list value) :
  Backend.validateAndSortClusters URL_hostname localeCompare v tabs = Ok out ->
  Permutation (flat_map tabIds_of out) (map VInt (map id tabs)).
Proof.
  destruct v; try (intros H; injection H as <-; apply Backend_fallback_ids).
  apply validate_tabIds.
Qed.

Lemma Backend_clusterAndSortTabs_ids (reply : provider_outcome) :
  Permutation
    (flat_map tabIds_of
       (Backend.clusterAndSortTabs URL_hostname JSON_parse localeCompare reply tabs))
    (map VInt (map id tabs)).
Proof.
  unfold Backend.clusterAndSortTabs. destruct (List.length tabs <? 2)%nat.
  - cbn [flat_map]. rewrite tabIds_of_Cluster_value, app_nil_r. apply Permutation_refl.
  - destruct (reply_text reply) as [text|]; simpl; [|apply Backend_fallback_ids].
    destruct (Backend.validateAndSortClusters _ _ _ _) as [out|] eqn:E; simpl.
    + now apply validate_any_tabIds in E.
    + apply Backend_fallback_ids.
Qed.

Lemma Extension_clusterAndSortTabs_ids (apiKey : option string)
    (reply : provider_outcome) :
  (forall tab, In tab tabs -> parses URL_hostname tab = true) ->
  Permutation
    (flat_map tabIds_of
       (Extension.clusterAndSortTabs URL_hostname JSON_parse localeCompare
          apiKey reply tabs))
    (map VInt (map id tabs)).
Proof.
  intros Hp.
  assert (F : Permutation (flat_map tabIds_of (Extension.fallbackClustering URL_hostname tabs))
                          (map VInt (map id tabs))).
  { eapply Permutation_trans; [apply Extension_fallback_ids|].
    now rewrite filter_all. }
  unfold Extension.clusterAndSortTabs.
  destruct (negb (present apiKey) || (List.length tabs <? 2)%nat); [exact F|].
  destruct (reply_text reply) as [text|]; simpl; [|exact F].
  destruct (Str.match_span "[" "]" text) as [m|]; simpl; [|exact F].
  destruct (JSON_parse m) as [v|]; simpl; [|exact F].
  destruct (Extension.validateAndSortClusters _ _ _ _) as [out|] eqn:E; simpl; [|exact F].
  destruct v; try (injection E as <-; exact F).
  rewrite (validate_copies _ URL_hostname) in E. now apply validate_tabIds in E.
Qed.
End IdsEndToEnd.

(** The fallback's clusters are objects, so that validating them does not
    throw. *)
Lemma Cluster_values_total (h : string -> option string) (lc : string -> string -> Z)
    (cs : list Cluster) (tabs : list TabAnalysis) :
  exists out, Backend.validateAndSortClusters h lc (VArr (map Cluster_value cs)) tabs = Ok out.
Proof.
  apply validate_total. apply Forall_forall. intros v Hv.
  apply in_map_iff in Hv as (c & <- & _). split; discriminate.
Qed.

(** ** The priority of a cluster *)

Lemma quotient_mean (l : list Z) : (quotient (sum l) (List.length l) == mean l)%Q.
Proof. unfold quotient, mean. apply Qred_correct. Qed.

Lemma quotient_mean_map {A : Type} (f : A -> Z) (l : list A) :
  (quotient (sum (map f l)) (List.length l) == mean (map f l))%Q.
Proof.
  pose proof (quotient_mean (map f l)) as H. now rewrite length_map in H.
Qed.

Lemma round1_round_to_tenth (x y : Q) : (x == y)%Q -> (JS.round1 x == round_to_tenth y)%Q.
Proof.
  intros E. unfold JS.round1, round_to_tenth, JS.round. rewrite Qred_correct.
  assert (F : Qfloor (x * inject_Z 10 + (1 # 2)) = Qfloor (y * inject_Z 10 + (1 # 2))).
  { apply Qfloor_comp. now rewrite E. }
  now rewrite F.
Qed.

Lemma scoreAt_scores_of (tabs : list TabAnalysis) (ks : list Z) :
  Forall (fun k => In k (map id tabs)) ks ->
  map (Backend.scoreAt tabs) ks = scores_of tabs ks.
Proof.
  induction 1 as [|k ks Hk _ IH]; simpl; [reflexivity|].
  apply has_tabMap in Hk. unfold has in Hk. unfold Backend.scoreAt at 1.
  destruct (tabMap tabs k); [|discriminate]. simpl. now rewrite IH.
Qed.

Section Priorities.
Variable URL_hostname : string -> option string.
Variable localeCompare : string -> string -> Z.
Variable tabs : list TabAnalysis.

(** A cluster made of a candidate has the mean of its members' scores,
    rounded to one decimal place. *)
Lemma revisedFrom_mean (origin : list value) (c : value) :
  revisedFrom localeCompare tabs origin c -> tabIds_of c <> [] ->
  exists p, priority_of c = Some p
            /\ (p == round_to_tenth (mean (scores_of tabs (ids_of c))))%Q.
Proof.
  intros (c0 & kept & _ & _ & Hs & Hk) Hne.
  rewrite (shaped_tabIds_of _ _ _ Hs) in Hne. rewrite (shaped_ids_of _ _ _ Hs).
  assert (Hks : Forall (fun k => In k (map id tabs))
                       (sort (fun a b => Backend.compareIds localeCompare tabs a b <=? 0)
                             kept)).
  { rewrite Forall_forall in *. intros k Hin. apply Hk.
    now apply (proj1 (sort_In _ _ _)) in Hin. }
  destruct (sort _ kept) as [|k0 ks0]; [now contradiction Hne|].
  unfold revisedPriority in Hs.
  eexists. split; [eapply shaped_priority_of, Hs|].
  apply round1_round_to_tenth.
  rewrite <- (scoreAt_scores_of tabs _ Hks). apply quotient_mean_map.
Qed.

(** The cluster of the unclaimed tabs has the mean itself. *)
Lemma otherCluster_mean (assigned : list Z) :
  NoDup (map id tabs) ->
  Forall (fun c => exists p, priority_of c = Some p
                             /\ (p == mean (scores_of tabs (ids_of c)))%Q)
         (otherCluster localeCompare tabs assigned).
Proof.
  intros Hnd. unfold otherCluster. destruct (negb _); [|constructor].
  constructor; [|constructor]. eexists. split; [reflexivity|].
  rewrite ids_of_Cluster_value. cbn [tabIds clusterPriority].
  set (s := sort _ _).
  assert (Hs : forall t, In t s -> In t tabs).
  { intros t Ht. apply (proj1 (sort_In _ _ _)) in Ht.
    now apply filter_In in Ht as [Ht _]. }
  rewrite <- scoreAt_scores_of.
  - rewrite (scoreAt_own tabs Hnd s Hs). apply quotient_mean_map.
  - apply Forall_forall. intros k Hk. apply in_map_iff in Hk as (t & <- & Ht).
    apply in_map. auto.
Qed.

Lemma validate_priorities (l : list value) (out : list value) :
  NoDup (map id tabs) ->
  Backend.validateAndSortClusters URL_hostname localeCompare (VArr l) tabs = Ok out ->
  exists regular other,
    Permutation out (regular ++ other)
    /\ Forall (fun c => revisedFrom localeCompare tabs l c
                        /\ exists p, priority_of c = Some p
                           /\ (p == round_to_tenth (mean (scores_of tabs (ids_of c))))%Q)
              regular
    /\ (exists assigned, other = otherCluster localeCompare tabs assigned)
    /\ Forall (fun c => exists p, priority_of c = Some p
                                  /\ (p == mean (scores_of tabs (ids_of c)))%Q) other.
Proof.
  intros Hnd H. apply validate_structure in H as (revised & assigned & -> & Hok & _).
  exists (filter (fun c => negb (is_nil (tabIds_of c))) revised),
         (otherCluster localeCompare tabs assigned).
  split; [apply sort_perm|]. split; [|split; [eauto | now apply otherCluster_mean]].
  apply Forall_forall. intros c Hc. apply filter_In in Hc as [Hc Hne].
  rewrite Forall_forall in Hok. split; [now apply Hok|].
  apply (revisedFrom_mean l c (Hok c Hc)). intros E. now rewrite E in Hne.
Qed.
End Priorities.

(** A cluster of the fallback has the mean itself, a missing or zero
    score counting as 3. *)
Lemma settle_mean (tabs : list TabAnalysis) (c : Cluster) :
  (clusterPriority (Backend.settle tabs c)
   == mean (map (Backend.scoreOr3 tabs) (tabIds (Backend.settle tabs c))))%Q.
Proof.
  cbn [Backend.settle clusterPriority tabIds]. apply quotient_mean_map.
Qed.

Lemma fallback_mean (h : string -> option string) (tabs : list TabAnalysis) :
  Forall (fun c => exists p, priority_of c = Some p
                             /\ (p == mean (map (Backend.scoreOr3 tabs) (ids_of c)))%Q)
         (Backend.fallbackClustering h tabs).
Proof.
  unfold Backend.fallbackClustering. apply Forall_forall. intros v Hv.
  apply in_map_iff in Hv as (c & <- & Hc). rewrite ids_of_Cluster_value.
  apply (proj1 (sort_In _ _ _)) in Hc. apply in_map_iff in Hc as (c0 & <- & _).
  eexists. split; [reflexivity | apply settle_mean].
Qed.

Lemma Extension_fallback_mean (h : string -> option string) (tabs : list TabAnalysis) :
  Forall (fun c => exists p, priority_of c = Some p
                             /\ (p == mean (map (Backend.scoreOr3 tabs) (ids_of c)))%Q)
         (Extension.fallbackClustering h tabs).
Proof.
  unfold Extension.fallbackClustering. apply Forall_forall. intros v Hv.
  apply in_map_iff in Hv as (c & <- & Hc). rewrite ids_of_Cluster_value.
  apply (proj1 (sort_In _ _ _)) in Hc. apply in_map_iff in Hc as (c0 & <- & _).
  eexists. split; [reflexivity | apply (settle_mean tabs c0)].
Qed.

(** ** Fewer than two tabs *)

Lemma quotient_one (x : Z) : quotient x 1 = inject_Z x.
Proof.
  unfold quotient. transitivity (Qred (inject_Z x)); [|apply Qred_inject_Z].
  apply Qred_complete. unfold Qeq, Qdiv, Qmult, Qinv, inject_Z. simpl. lia.
Qed.

Lemma tabMap_single (tab : TabAnalysis) : tabMap [tab] (id tab) = Some tab.
Proof. unfold tabMap. simpl. now rewrite Z.eqb_refl. Qed.

Section Few.
Variable URL_hostname : string -> option string.
Variable JSON_parse : string -> result value.
Variable localeCompare : string -> string -> Z.

Lemma Backend_no_tab (reply : provider_outcome) :
  Backend.clusterAndSortTabs URL_hostname JSON_parse localeCompare reply []
  = [Cluster_value {| name := "All Tabs"; description := "All your open tabs";
                      tabIds := []; clusterPriority := inject_Z 3 |}].
Proof. reflexivity. Qed.

Lemma Backend_one_tab (reply : provider_outcome) (tab : TabAnalysis) :
  priorityScore tab <> 0 ->
  Backend.clusterAndSortTabs URL_hostname JSON_parse localeCompare reply [tab]
  = [Cluster_value {| name := "All Tabs"; description := "All your open tabs";
                      tabIds := [id tab];
                      clusterPriority := inject_Z (priorityScore tab) |}].
Proof.
  intros H. unfold Backend.clusterAndSortTabs. cbn [List.length Nat.ltb Nat.leb map].
  destruct (Z.eqb_spec (priorityScore tab) 0); [contradiction | reflexivity].
Qed.

Lemma Extension_few (apiKey : option string) (reply : provider_outcome)
    (tabs : list TabAnalysis) :
  (List.length tabs < 2)%nat ->
  Extension.clusterAndSortTabs URL_hostname JSON_parse localeCompare apiKey reply tabs
  = Extension.fallbackClustering URL_hostname tabs.
Proof.
  intros H. unfold Extension.clusterAndSortTabs.
  apply Nat.ltb_lt in H. rewrite H, orb_true_r. reflexivity.
Qed.

Lemma Extension_fallback_none : Extension.fallbackClustering URL_hostname [] = [].
Proof. reflexivity. Qed.

Lemma Extension_fallback_unparsed (tab : TabAnalysis) :
  URL_hostname (url tab) = None ->
  Extension.fallbackClustering URL_hostname [tab] = [].
Proof.
  intros H. unfold Extension.fallbackClustering. cbn [fold_left].
  unfold Extension.place. rewrite H. reflexivity.
Qed.

Lemma Extension_fallback_one (tab : TabAnalysis) (hostname : string) :
  URL_hostname (url tab) = Some hostname ->
  priorityScore tab <> 0 ->
  let domain := Str.replace "www." EmptyString hostname in
  let clusterKey := Str.split_head "." domain in
  Extension.fallbackClustering URL_hostname [tab]
  = [Cluster_value {| name := Str.capitalize clusterKey;
                      description := "Pages from " ++ domain;
                      tabIds := [id tab];
                      clusterPriority := inject_Z (priorityScore tab) |}].
Proof.
  intros H Hs domain clusterKey. unfold Extension.fallbackClustering. cbn [fold_left].
  unfold Extension.place. rewrite H. fold domain. fold clusterKey.
  cbn [SMap.has existsb SMap.add app SMap.adjust map fst snd].
  rewrite String.eqb_refl.
  cbn [SMap.values map snd push tabIds app filter is_nil negb Extension.settle
       name description sort fold_right insert List.length].
  unfold Extension.settle, push.
  cbn [tabIds name description app sort fold_right insert List.length map].
  unfold Extension.scoreOr3. rewrite tabMap_single.
  destruct (Z.eqb_spec (priorityScore tab) 0); [contradiction|].
  unfold sum. cbn [fold_left]. rewrite Z.add_0_l, quotient_one. reflexivity.
Qed.
End Few.

(** ** The reference collation is a total preorder *)

Lemma ascii_compare_N (a b : ascii) :
  Ascii.compare a b = N.compare (N_of_ascii a) (N_of_ascii b).
Proof. reflexivity. Qed.

Lemma string_compare_le_trans (s : string) : forall t u,
  String.compare s t <> Gt -> String.compare t u <> Gt -> String.compare s u <> Gt.
Proof.
  induction s as [|a s IH]; intros [|b t] [|c u]; simpl; try congruence.
  rewrite !ascii_compare_N.
  destruct (N.compare_spec (N_of_ascii a) (N_of_ascii b)) as [E1|L1|G1];
    destruct (N.compare_spec (N_of_ascii b) (N_of_ascii c)) as [E2|L2|G2];
    try congruence; intros H1 H2.
  - rewrite E1, E2, N.compare_refl. now apply IH with t.
  - rewrite E1. now apply N.compare_lt_iff in L2 as ->.
  - rewrite <- E2. now apply N.compare_lt_iff in L1 as ->.
  - assert (L : (N_of_ascii a < N_of_ascii c)%N) by now apply N.lt_trans with (N_of_ascii b).
    now apply N.compare_lt_iff in L as ->.
Qed.

Lemma Platform_localeCompare_le (s t : string) :
  Platform.localeCompare s t <= 0 <-> String.compare s t <> Gt.
Proof.
  unfold Platform.localeCompare. destruct (String.compare s t); split; intros H;
    try lia; try discriminate; congruence.
Qed.

Lemma Platform_localeCompare_total (s t : string) :
  Platform.localeCompare s t <= 0 \/ Platform.localeCompare t s <= 0.
Proof.
  rewrite !Platform_localeCompare_le, (String.compare_antisym s t).
  destruct (String.compare t s); simpl; [left | right | left]; discriminate.
Qed.

Lemma Platform_localeCompare_trans (s t u : string) :
  Platform.localeCompare s t <= 0 -> Platform.localeCompare t u <= 0 ->
  Platform.localeCompare s u <= 0.
Proof. rewrite !Platform_localeCompare_le. apply string_compare_le_trans. Qed.

(** ** The analysis of one tab *)

Lemma clamp_min_max (v : value) :
  Z.min 5 (Z.max 1 (match JS.parseInt v with
                    | Some n => if n =? 0 then 3 else n
                    | None => 3
                    end)) = scoreFor v.
Proof.
  unfold scoreFor, clamp. destruct (JS.parseInt v) as [n|]; [|reflexivity].
  destruct (Z.eqb_spec n 0); [reflexivity|].
  destruct (Z.ltb_spec n 1); [lia|]. destruct (Z.ltb_spec 5 n); lia.
Qed.

Lemma scoreFor_range (v : value) : 1 <= scoreFor v <= 5.
Proof.
  unfold scoreFor, clamp. destruct (JS.parseInt v) as [n|]; [|lia].
  destruct (Z.eqb_spec n 0); [lia|].
  destruct (Z.ltb_spec n 1); [lia|]. destruct (Z.ltb_spec 5 n); lia.
Qed.

Section Analysis.
Variable JSON_parse : string -> result value.
Variable tab : Tab.t.

Lemma Backend_provider_fails (e : string) :
  Backend.analyzeOrDefault JSON_parse (tab, Fails e) = unavailableRecord tab e.
Proof. reflexivity. Qed.

Lemma Backend_reply_unparseable (content : string) :
  unparseable JSON_parse "{" "}" (Str.trim content) ->
  Backend.analyzeAndPrioritizeTab JSON_parse tab (Replies content)
  = Ok (unableRecord tab (Str.trim content)).
Proof.
  unfold unparseable, Backend.analyzeAndPrioritizeTab. cbn [reply_text bind].
  destruct (Str.match_span "{" "}" (Str.trim content)) as [m|]; [|reflexivity].
  intros [e ->]. reflexivity.
Qed.

Lemma Backend_reply_parsed (content jsonMatch : string) (ps : list (string * value)) :
  Str.match_span "{" "}" (Str.trim content) = Some jsonMatch ->
  JSON_parse jsonMatch = Ok (VObj ps) ->
  Backend.analyzeAndPrioritizeTab JSON_parse tab (Replies content)
  = Ok {| id := Tab.id tab; title := Tab.title tab; url := Tab.url tab;
          summary := JS.or (property ps "summary") (VStr (Tab.title tab));
          priorityScore := scoreFor (property ps "priorityScore");
          priorityRationale :=
            JS.or (property ps "priorityRationale") (VStr "Standard content");
          topics := JS.or (property ps "topics")
                          (VArr (map VStr (Backend.extractTopics (Str.trim content) tab)));
          error := None |}.
Proof.
  intros Hm Hp. unfold Backend.analyzeAndPrioritizeTab. cbn [reply_text bind].
  rewrite Hm, Hp. cbn [bind JS.get try_catch]. fold (property ps "summary").
  fold (property ps "priorityScore"). fold (property ps "priorityRationale").
  fold (property ps "topics"). now rewrite clamp_min_max.
Qed.

Lemma Backend_score_range (reply : provider_outcome) :
  1 <= priorityScore (Backend.analyzeOrDefault JSON_parse (tab, reply)) <= 5.
Proof.
  unfold Backend.analyzeOrDefault, Backend.analyzeAndPrioritizeTab.
  destruct reply as [e|content]; cbn [reply_text bind try_catch priorityScore]; [lia|].
  destruct (Str.match_span "{" "}" (Str.trim content)) as [m|];
    cbn [bind try_catch priorityScore]; [|lia].
  destruct (JSON_parse m) as [parsed|]; cbn [bind try_catch priorityScore]; [|lia].
  destruct parsed; cbn [bind JS.get try_catch priorityScore]; try lia;
    rewrite clamp_min_max; apply scoreFor_range.
Qed.

Lemma Extension_fails (apiKey : option string) (e : string) :
  present apiKey = true ->
  Extension.analyzeAndPrioritizeTab JSON_parse apiKey tab (Fails e)
  = Ok (defaultRecord tab).
Proof.
  intros H. unfold Extension.analyzeAndPrioritizeTab. now rewrite H.
Qed.

Lemma Extension_reply_unparseable (apiKey : option string) (content : string) :
  present apiKey = true ->
  unparseable JSON_parse "{" "}" (Str.trim content) ->
  Extension.analyzeAndPrioritizeTab JSON_parse apiKey tab (Replies content)
  = Ok (defaultRecord tab).
Proof.
  intros H. unfold unparseable, Extension.analyzeAndPrioritizeTab. rewrite H.
  cbn [negb reply_text bind].
  destruct (Str.match_span "{" "}" (Str.trim content)) as [m|]; [|reflexivity].
  intros [e ->]. reflexivity.
Qed.

Lemma Extension_reply_parsed (apiKey : option string) (content jsonMatch : string)
    (ps : list (string * value)) :
  present apiKey = true ->
  Str.match_span "{" "}" (Str.trim content) = Some jsonMatch ->
  JSON_parse jsonMatch = Ok (VObj ps) ->
  Extension.analyzeAndPrioritizeTab JSON_parse apiKey tab (Replies content)
  = Ok {| Extension.Analysis.summary :=
            JS.or (property ps "summary") (VStr (Tab.title tab));
          Extension.Analysis.priorityScore := scoreFor (property ps "priorityScore");
          Extension.Analysis.priorityRationale :=
            JS.or (property ps "priorityRationale") (VStr "Standard content");
          Extension.Analysis.topics :=
            JS.or (property ps "topics")
                  (VArr (map VStr (Extension.extractBasicTopics tab))) |}.
Proof.
  intros H Hm Hp. unfold Extension.analyzeAndPrioritizeTab. rewrite H.
  cbn [negb reply_text bind]. rewrite Hm, Hp. cbn [bind JS.get try_catch].
  fold (property ps "summary"). fold (property ps "priorityScore").
  fold (property ps "priorityRationale"). fold (property ps "topics").
  now rewrite clamp_min_max.
Qed.

Lemma Extension_score_range (apiKey : option string) (reply : provider_outcome)
    (a : Extension.Analysis.t) :
  Extension.analyzeAndPrioritizeTab JSON_parse apiKey tab reply = Ok a ->
  1 <= Extension.Analysis.priorityScore a <= 5.
Proof.
  unfold Extension.analyzeAndPrioritizeTab.
  destruct (negb (present apiKey)); [discriminate|].
  intros H. injection H as <-.
  destruct reply as [e|content];
    cbn [reply_text bind try_catch Extension.Analysis.priorityScore]; [lia|].
  destruct (Str.match_span "{" "}" (Str.trim content)) as [m|];
    cbn [bind try_catch Extension.Analysis.priorityScore]; [|lia].
  destruct (JSON_parse m) as [parsed|];
    cbn [bind try_catch Extension.Analysis.priorityScore]; [|lia].
  destruct parsed; cbn [bind JS.get try_catch Extension.Analysis.priorityScore];
    try lia; rewrite clamp_min_max; apply scoreFor_range.
Qed.
End Analysis.

(** ** Replies that cannot be parsed, in the clustering *)

Section ClusteringReplies.
Variable URL_hostname : string -> option string.
Variable JSON_parse : string -> result value.
Variable localeCompare : string -> string -> Z.
Variable tabs : list TabAnalysis.

Lemma Extension_cluster_unparseable (apiKey : option string) (content e : string) :
  unparseable JSON_parse "[" "]" (Str.trim content) ->
  Extension.clusterAndSortTabs URL_hostname JSON_parse localeCompare apiKey
    (Replies content) tabs
  = Extension.clusterAndSortTabs URL_hostname JSON_parse localeCompare apiKey
      (Fails e) tabs.
Proof.
  unfold unparseable, Extension.clusterAndSortTabs.
  destruct (negb (present apiKey) || (List.length tabs <? 2)%nat); [reflexivity|].
  cbn [reply_text bind try_catch].
  destruct (Str.match_span "[" "]" (Str.trim content)) as [m|]; [|reflexivity].
  intros [e' ->]. reflexivity.
Qed.

Lemma Backend_parse_unparseable (text : string) :
  unparseableArray JSON_parse text ->
  Backend.parseClusteringResponse URL_hostname JSON_parse text tabs
  = VArr (Backend.fallbackClustering URL_hostname tabs).
Proof.
  unfold unparseableArray, Backend.parseClusteringResponse.
  destruct (Str.match_span "[" "]" text) as [m|]; intros [e ->]; reflexivity.
Qed.

Lemma Backend_cluster_fails (e : string) :
  (2 <= List.length tabs)%nat ->
  Backend.clusterAndSortTabs URL_hostname JSON_parse localeCompare (Fails e) tabs
  = Backend.fallbackClustering URL_hostname tabs.
Proof.
  intros H. unfold Backend.clusterAndSortTabs.
  destruct (Nat.ltb_spec (List.length tabs) 2); [lia | reflexivity].
Qed.

Lemma Backend_cluster_unparseable (content : string) :
  unparseableArray JSON_parse (Str.trim content) ->
  (2 <= List.length tabs)%nat ->
  Backend.validateAndSortClusters URL_hostname localeCompare
    (VArr (Backend.fallbackClustering URL_hostname tabs)) tabs
  = Ok (Backend.clusterAndSortTabs URL_hostname JSON_parse localeCompare
          (Replies content) tabs).
Proof.
  intros Hu H. unfold Backend.clusterAndSortTabs.
  destruct (Nat.ltb_spec (List.length tabs) 2); [lia|].
  cbn [reply_text bind]. rewrite (Backend_parse_unparseable _ Hu).
  destruct (Cluster_values_total URL_hostname localeCompare
              (sort (fun a b => Qle_bool (clusterPriority a - clusterPriority b) 0)
                    (map (Backend.settle tabs)
                         (filter (fun cluster => negb (is_nil (tabIds cluster)))
                                 (SMap.values
                                    (fold_left (Backend.place URL_hostname) tabs [])))))
              tabs) as [out E].
  change (Backend.validateAndSortClusters URL_hostname localeCompare
            (VArr (Backend.fallbackClustering URL_hostname tabs)) tabs = Ok out) in E.
  now rewrite E.
Qed.
End ClusteringReplies.

(** * The claims *)

Ltac distinct_ids := repeat constructor; simpl; lia.

(** C1, as amended.  For every batch with distinct ids: the final clusters
    of the backend list every input id exactly once, whatever the provider
    replies; so does every result of [validateAndSortClusters] on an array
    of candidates, in either copy; the domain-based fallback of the
    extension, whose result is returned without validation, lists exactly
    the ids of the tabs whose URL parses, each once; hence the final
    clusters of the extension list every input id exactly once when every
    URL parses. *)
Theorem C1_final_clusters_list_every_tab_once
    (URL_hostname : string -> option string) (JSON_parse : string -> result value)
    (localeCompare : string -> string -> Z) (tabs : list TabAnalysis) :
  NoDup (map id tabs) ->
  (forall reply,
      Permutation
        (flat_map tabIds_of
           (Backend.clusterAndSortTabs URL_hostname JSON_parse localeCompare reply tabs))
        (map VInt (map id tabs)))
  /\ (forall clusters out,
         Extension.validateAndSortClusters URL_hostname localeCompare (VArr clusters) tabs
         = Ok out
         \/ Backend.validateAndSortClusters URL_hostname localeCompare (VArr clusters) tabs
            = Ok out ->
         Permutation (flat_map tabIds_of out) (map VInt (map id tabs)))
  /\ Permutation (flat_map tabIds_of (Extension.fallbackClustering URL_hostname tabs))
                 (map VInt (map id (filter (parses URL_hostname) tabs)))
  /\ (forall apiKey reply,
         (forall tab, In tab tabs -> parses URL_hostname tab = true) ->
         Permutation
           (flat_map tabIds_of
              (Extension.clusterAndSortTabs URL_hostname JSON_parse localeCompare
                 apiKey reply tabs))
           (map VInt (map id tabs))).
Proof.
  intros Hnd. split; [|split; [|split]].
  - intros reply. now apply Backend_clusterAndSortTabs_ids.
  - intros clusters out [H|H].
    + rewrite (validate_copies _ URL_hostname) in H.
      now apply (validate_tabIds URL_hostname localeCompare tabs Hnd clusters).
    + now apply (validate_tabIds URL_hostname localeCompare tabs Hnd clusters).
  - apply Extension_fallback_ids.
  - intros apiKey reply Hp. now apply Extension_clusterAndSortTabs_ids.
Qed.

Lemma C1_witness :
  NoDup (map id Sample.threeTabs)
  /\ Permutation
       (flat_map tabIds_of
          (Backend.clusterAndSortTabs Platform.hostname Platform.JSON_parse
             Platform.localeCompare (Replies Sample.proposal) Sample.threeTabs))
       (map VInt (map id Sample.threeTabs)).
Proof.
  assert (H : NoDup (map id Sample.threeTabs)) by distinct_ids.
  split; [exact H|].
  apply (C1_final_clusters_list_every_tab_once Platform.hostname Platform.JSON_parse
           Platform.localeCompare Sample.threeTabs H).
Defined.

(** Against C1 as stated: without an API key the extension returns its
    fallback, which has no cluster at all for a tab whose URL does not
    parse. *)
Lemma C1_extension_fallback_drops_a_tab :
  Extension.clusterAndSortTabs Platform.hostname Platform.JSON_parse
    Platform.localeCompare None (Fails "no provider") Sample.noUrl = []
  /\ ~ Permutation
         (flat_map tabIds_of
            (Extension.clusterAndSortTabs Platform.hostname Platform.JSON_parse
               Platform.localeCompare None (Fails "no provider") Sample.noUrl))
         (map VInt (map id Sample.noUrl)).
Proof.
  split; [reflexivity|]. intros H. apply Permutation_length in H. discriminate H.
Qed.

(** The final priorityScore of every analysed tab is between 1 and 5.
    When the reply carries a JSON object, the score is made of its
    [priorityScore] as [scoreFor] says: a number other than zero is
    clamped to the nearest bound (7 gives 5, -2 gives 1), and zero, like
    a value that is no number or is absent, gives 3. *)
Theorem priority_score_between_1_and_5
    (JSON_parse : string -> result value) (tab : Tab.t) (reply : provider_outcome) :
  1 <= priorityScore (Backend.analyzeOrDefault JSON_parse (tab, reply)) <= 5
  /\ (forall apiKey a,
         Extension.analyzeAndPrioritizeTab JSON_parse apiKey tab reply = Ok a ->
         1 <= Extension.Analysis.priorityScore a <= 5)
  /\ (forall content jsonMatch ps,
         reply = Replies content ->
         Str.match_span "{" "}" (Str.trim content) = Some jsonMatch ->
         JSON_parse jsonMatch = Ok (VObj ps) ->
         priorityScore (Backend.analyzeOrDefault JSON_parse (tab, reply))
         = scoreFor (property ps "priorityScore")
         /\ forall apiKey,
             present apiKey = true ->
             exists a,
               Extension.analyzeAndPrioritizeTab JSON_parse apiKey tab reply = Ok a
               /\ Extension.Analysis.priorityScore a
                  = scoreFor (property ps "priorityScore")).
Proof.
  split; [apply Backend_score_range|]. split.
  - intros apiKey a. apply Extension_score_range.
  - intros content jsonMatch ps -> Hm Hp. split.
    + unfold Backend.analyzeOrDefault.
      now rewrite (Backend_reply_parsed JSON_parse tab content jsonMatch ps Hm Hp).
    + intros apiKey Hk. eexists. split;
        [apply (Extension_reply_parsed JSON_parse tab apiKey content jsonMatch ps Hk Hm Hp)|].
      reflexivity.
Qed.

(** How [scoreFor] reads: the cases that the claim names. *)
Lemma scoreFor_cases :
  scoreFor (VInt 7) = 5 /\ scoreFor (VInt (-2)) = 1 /\ scoreFor (VInt 4) = 4
  /\ scoreFor (VInt 0) = 3 /\ scoreFor (VStr "high") = 3 /\ scoreFor VNull = 3
  /\ scoreFor VUndefined = 3.
Proof. repeat split; reflexivity. Qed.

Lemma priority_score_of_seven :
  Str.match_span "{" "}" (Str.trim (Platform.requote "ok {'summary':'S','priorityScore':7}"))
  = Some (Platform.requote "{'summary':'S','priorityScore':7}")
  /\ Platform.JSON_parse (Platform.requote "{'summary':'S','priorityScore':7}")
     = Ok (VObj [("summary", VStr "S"); ("priorityScore", VNum 7)])
  /\ priorityScore
       (Backend.analyzeOrDefault Platform.JSON_parse
          (Sample.page, Replies (Platform.requote "ok {'summary':'S','priorityScore':7}")))
     = 5.
Proof.
  assert (Hm : Str.match_span "{" "}"
                 (Str.trim (Platform.requote "ok {'summary':'S','priorityScore':7}"))
               = Some (Platform.requote "{'summary':'S','priorityScore':7}"))
    by reflexivity.
  assert (Hp : Platform.JSON_parse (Platform.requote "{'summary':'S','priorityScore':7}")
               = Ok (VObj [("summary", VStr "S"); ("priorityScore", VNum 7)]))
    by reflexivity.
  split; [exact Hm|]. split; [exact Hp|].
  destruct (priority_score_between_1_and_5 Platform.JSON_parse Sample.page
              (Replies (Platform.requote "ok {'summary':'S','priorityScore':7}")))
    as (_ & _ & H).
  destruct (H _ _ _ eq_refl Hm Hp) as [-> _]. reflexivity.
Defined.

(** C2, where the code departs from it.  A parsed score outside the range
    from 1 to 5 is to be clamped to the nearest bound, so that 0 gives 1;
    but both analysers compute [parseInt(parsed.priorityScore) || 3]
    before they clamp, and 0 counts as false: a reply whose priorityScore
    is the number 0 ends with the score 3. *)
Lemma C2_zero_gives_3 :
  Platform.JSON_parse (Platform.requote "{'summary':'S','priorityScore':0}")
  = Ok (VObj [("summary", VStr "S"); ("priorityScore", VNum 0)])
  /\ priorityScore
       (Backend.analyzeOrDefault Platform.JSON_parse
          (Sample.page, Replies (Platform.requote "{'summary':'S','priorityScore':0}")))
     = 3
  /\ (exists a,
        Extension.analyzeAndPrioritizeTab Platform.JSON_parse (Some "key") Sample.page
          (Replies (Platform.requote "{'summary':'S','priorityScore':0}")) = Ok a
        /\ Extension.Analysis.priorityScore a = 3).
Proof.
  split; [reflexivity|]. split; [reflexivity|]. eexists. split; reflexivity.
Qed.

(** C3, as amended.  A failed analysis of one tab always ends in a record
    with priorityScore 3, but the record depends on the service and on
    the failure.  In the extension (with an API key), a provider failure
    and an unparseable reply both give the summary built from title and
    metaDescription and the topics of the keyword vocabulary; the record
    has no error field.  In the backend, a provider failure gives the
    summary built from title and metaDescription, no topics at all and the
    error message; an unparseable reply gives the first 200 characters of
    the reply as summary, the topics that [extractTopics] finds in the
    reply and no error.  The failure is local: the backend analyses every
    tab of the batch from its own reply, counts them all and clusters them
    all. *)
Theorem C3_failed_analysis_degrades_locally
    (URL_hostname : string -> option string) (JSON_parse : string -> result value)
    (localeCompare : string -> string -> Z) (tab : Tab.t) :
  (forall apiKey reply,
      present apiKey = true ->
      (exists e, reply = Fails e)
      \/ (exists content, reply = Replies content
                          /\ unparseable JSON_parse "{" "}" (Str.trim content)) ->
      Extension.analyzeAndPrioritizeTab JSON_parse apiKey tab reply
      = Ok (defaultRecord tab))
  /\ (forall e,
         Backend.analyzeOrDefault JSON_parse (tab, Fails e) = unavailableRecord tab e)
  /\ (forall content,
         unparseable JSON_parse "{" "}" (Str.trim content) ->
         Backend.analyzeOrDefault JSON_parse (tab, Replies content)
         = unableRecord tab (Str.trim content))
  /\ (forall calls clustering,
         exists r,
           Backend.analyzeTabs URL_hostname JSON_parse localeCompare calls clustering = Ok r
           /\ Backend.AnalysisResult.processed r = List.length calls
           /\ Backend.AnalysisResult.summaries r
              = filter (fun s => negb (Backend.failed s))
                       (map (Backend.analyzeOrDefault JSON_parse) calls)
           /\ Backend.AnalysisResult.clusters r
              = Backend.clusterAndSortTabs URL_hostname JSON_parse localeCompare clustering
                  (map (Backend.analyzeOrDefault JSON_parse) calls)).
Proof.
  split; [|split; [|split]].
  - intros apiKey reply Hk [[e ->]|(content & -> & Hu)].
    + now apply Extension_fails.
    + now apply Extension_reply_unparseable.
  - intros e. reflexivity.
  - intros content Hu. unfold Backend.analyzeOrDefault.
    now rewrite (Backend_reply_unparseable JSON_parse tab content Hu).
  - intros calls clustering. eexists. split; [reflexivity|].
    cbn [Backend.AnalysisResult.processed Backend.AnalysisResult.summaries
         Backend.AnalysisResult.clusters].
    now rewrite length_map.
Qed.

Lemma C3_witness :
  unparseable Platform.JSON_parse "{" "}" (Str.trim "  no json here ")
  /\ Backend.analyzeOrDefault Platform.JSON_parse (Sample.page, Replies "  no json here ")
     = unableRecord Sample.page "no json here".
Proof.
  assert (H : unparseable Platform.JSON_parse "{" "}" (Str.trim "  no json here "))
    by exact I.
  split; [exact H|].
  destruct (C3_failed_analysis_degrades_locally Platform.hostname Platform.JSON_parse
              Platform.localeCompare Sample.page) as (_ & _ & U & _).
  exact (U "  no json here " H).
Defined.

(** Against C3 as stated: after an unparseable reply the backend sets no
    error and does not build the summary from title and metaDescription;
    after a provider failure it returns no topics, where the keyword
    heuristic finds two. *)
Lemma C3_degraded_records_differ :
  unparseable Platform.JSON_parse "{" "}" (Str.trim "no json here")
  /\ error (Backend.analyzeOrDefault Platform.JSON_parse
              (Sample.page, Replies "no json here")) = None
  /\ summary (Backend.analyzeOrDefault Platform.JSON_parse
                (Sample.page, Replies "no json here")) = VStr "no json here"
  /\ titleAndDescription Sample.page = "Rust programming tutorial - Learn Rust"
  /\ topics (Backend.analyzeOrDefault Platform.JSON_parse (Sample.page, Fails "down"))
     = VArr []
  /\ Extension.extractBasicTopics Sample.page = ["programming"; "tutorial"].
Proof. repeat split; reflexivity. Qed.

(** C4, as amended.  In a result of [validateAndSortClusters] on an array
    of candidates (tabs with distinct ids), every cluster made of a
    candidate has as clusterPriority the mean of its members' scores
    rounded to one decimal place; the result holds these clusters and at
    most the cluster of the unclaimed tabs, of which nothing is said
    here.  Every cluster of the domain-based fallback has the mean
    itself, not rounded, a missing or zero score counting as 3. *)
Theorem C4_cluster_priority_is_the_mean
    (URL_hostname : string -> option string) (localeCompare : string -> string -> Z)
    (clusters : list value) (tabs : list TabAnalysis) (out : list value) :
  NoDup (map id tabs) ->
  Extension.validateAndSortClusters URL_hostname localeCompare (VArr clusters) tabs = Ok out
  \/ Backend.validateAndSortClusters URL_hostname localeCompare (VArr clusters) tabs = Ok out ->
  (exists regular other,
      Permutation out (regular ++ other)
      /\ Forall (fun c => revisedFrom localeCompare tabs clusters c
                          /\ exists p, priority_of c = Some p
                             /\ (p == round_to_tenth (mean (scores_of tabs (ids_of c))))%Q)
                regular
      /\ (exists assigned, other = otherCluster localeCompare tabs assigned))
  /\ Forall (fun c => exists p, priority_of c = Some p
                                /\ (p == mean (map (Backend.scoreOr3 tabs) (ids_of c)))%Q)
            (Backend.fallbackClustering URL_hostname tabs)
  /\ Forall (fun c => exists p, priority_of c = Some p
                                /\ (p == mean (map (Extension.scoreOr3 tabs) (ids_of c)))%Q)
            (Extension.fallbackClustering URL_hostname tabs).
Proof.
  intros Hnd H. split; [|split].
  - assert (H' : Backend.validateAndSortClusters URL_hostname localeCompare
                   (VArr clusters) tabs = Ok out).
    { destruct H as [H|H]; [now rewrite (validate_copies _ URL_hostname) in H | exact H]. }
    destruct (validate_priorities URL_hostname localeCompare tabs clusters out Hnd H')
      as (regular & other & Hp & Hr & Ho & _).
    now exists regular, other.
  - apply fallback_mean.
  - apply Extension_fallback_mean.
Qed.

Lemma C4_witness :
  NoDup (map id Sample.threeTabs)
  /\ Backend.validateAndSortClusters Platform.hostname Platform.localeCompare
       (VArr Sample.candidates) Sample.threeTabs
     = Ok [VObj [("name", VStr "N"); ("tabIds", VArr [VInt 2; VInt 1]);
                 ("clusterPriority", VNum (3 # 2))];
           Cluster_value {| name := "Other"; description := "Uncategorized tabs";
                            tabIds := [3]; clusterPriority := 4 |}]
  /\ Forall (fun c => exists p, priority_of c = Some p
                                /\ (p == mean (map (Backend.scoreOr3 Sample.threeTabs)
                                                   (ids_of c)))%Q)
            (Backend.fallbackClustering Platform.hostname Sample.threeTabs).
Proof.
  assert (Hnd : NoDup (map id Sample.threeTabs)) by distinct_ids.
  assert (H : Backend.validateAndSortClusters Platform.hostname Platform.localeCompare
                (VArr Sample.candidates) Sample.threeTabs
              = Ok [VObj [("name", VStr "N"); ("tabIds", VArr [VInt 2; VInt 1]);
                          ("clusterPriority", VNum (3 # 2))];
                    Cluster_value {| name := "Other"; description := "Uncategorized tabs";
                                     tabIds := [3]; clusterPriority := 4 |}])
    by reflexivity.
  split; [exact Hnd|]. split; [exact H|].
  exact (proj1 (proj2 (C4_cluster_priority_is_the_mean Platform.hostname
                         Platform.localeCompare Sample.candidates Sample.threeTabs _
                         Hnd (or_intror H)))).
Defined.

(** Against C4 as stated: when the provider fails, three pages of one site
    with the scores 1, 1 and 2 end in a cluster whose clusterPriority is
    4/3, not 1.3. *)
Lemma C4_mean_is_not_rounded :
  Backend.clusterAndSortTabs Platform.hostname Platform.JSON_parse Platform.localeCompare
    (Fails "down") Sample.thirds
  = [Cluster_value {| name := "Example"; description := "Pages from example.com";
                      tabIds := [1; 2; 3]; clusterPriority := 4 # 3 |}]
  /\ scores_of Sample.thirds [1; 2; 3] = [1; 1; 2]
  /\ (round_to_tenth (mean [1; 1; 2]%Z) == 13 # 10)%Q
  /\ ~ (4 # 3 == round_to_tenth (mean [1; 1; 2]%Z))%Q.
Proof.
  split; [reflexivity|]. split; [reflexivity|].
  split; [reflexivity|]. intros H. vm_compute in H. discriminate H.
Qed.

(** C5, as amended.  The backend answers a batch of fewer than two
    analyses with exactly one cluster, named [All Tabs], that lists all
    the ids and has as clusterPriority the score of the single tab, or 3
    when there is none.  The extension hands such a batch to its
    domain-based fallback: no cluster for an empty batch or for a tab
    whose URL does not parse, and otherwise one cluster named after the
    host of the tab, with the tab's score as clusterPriority. *)
Theorem C5_fewer_than_two_analyses
    (URL_hostname : string -> option string) (JSON_parse : string -> result value)
    (localeCompare : string -> string -> Z) (apiKey : option string)
    (reply : provider_outcome) (tab : TabAnalysis) :
  priorityScore tab <> 0 ->
  Backend.clusterAndSortTabs URL_hostname JSON_parse localeCompare reply []
  = [Cluster_value {| name := "All Tabs"; description := "All your open tabs";
                      tabIds := []; clusterPriority := inject_Z 3 |}]
  /\ Backend.clusterAndSortTabs URL_hostname JSON_parse localeCompare reply [tab]
     = [Cluster_value {| name := "All Tabs"; description := "All your open tabs";
                         tabIds := [id tab];
                         clusterPriority := inject_Z (priorityScore tab) |}]
  /\ Extension.clusterAndSortTabs URL_hostname JSON_parse localeCompare apiKey reply [] = []
  /\ (URL_hostname (url tab) = None ->
      Extension.clusterAndSortTabs URL_hostname JSON_parse localeCompare apiKey reply [tab]
      = [])
  /\ (forall hostname,
         URL_hostname (url tab) = Some hostname ->
         Extension.clusterAndSortTabs URL_hostname JSON_parse localeCompare apiKey reply [tab]
         = [Cluster_value
              {| name := Str.capitalize
                           (Str.split_head "." (Str.replace "www." EmptyString hostname));
                 description := "Pages from " ++ Str.replace "www." EmptyString hostname;
                 tabIds := [id tab];
                 clusterPriority := inject_Z (priorityScore tab) |}]).
Proof.
  intros Hs. split; [reflexivity|]. split; [now apply Backend_one_tab|].
  split; [now rewrite Extension_few by (simpl; lia)|]. split.
  - intros H. rewrite Extension_few by (simpl; lia).
    now apply Extension_fallback_unparsed.
  - intros hostname H. rewrite Extension_few by (simpl; lia).
    now apply Extension_fallback_one.
Qed.

Lemma C5_witness :
  priorityScore (Sample.analysis 3 "C" "https://www.example.com/c" 4) <> 0
  /\ Backend.clusterAndSortTabs Platform.hostname Platform.JSON_parse Platform.localeCompare
       (Replies "unused") [Sample.analysis 3 "C" "https://www.example.com/c" 4]
     = [Cluster_value {| name := "All Tabs"; description := "All your open tabs";
                         tabIds := [3]; clusterPriority := 4 |}]
  /\ Extension.clusterAndSortTabs Platform.hostname Platform.JSON_parse
       Platform.localeCompare (Some "key") (Replies "unused")
       [Sample.analysis 3 "C" "https://www.example.com/c" 4]
     = [Cluster_value {| name := "Example"; description := "Pages from example.com";
                         tabIds := [3]; clusterPriority := 4 |}].
Proof.
  assert (H : priorityScore (Sample.analysis 3 "C" "https://www.example.com/c" 4) <> 0)
    by (simpl; lia).
  split; [exact H|].
  destruct (C5_fewer_than_two_analyses Platform.hostname Platform.JSON_parse
              Platform.localeCompare (Some "key") (Replies "unused")
              (Sample.analysis 3 "C" "https://www.example.com/c" 4) H)
    as (_ & B & _ & _ & E).
  split; [exact B|]. exact (E "www.example.com" eq_refl).
Defined.

(** Against C5 as stated: for an empty batch the extension returns no
    cluster at all. *)
Lemma C5_extension_returns_no_cluster :
  Extension.clusterAndSortTabs Platform.hostname Platform.JSON_parse Platform.localeCompare
    (Some "key") (Replies "[]") [] = []
  /\ List.length
       (Extension.clusterAndSortTabs Platform.hostname Platform.JSON_parse
          Platform.localeCompare (Some "key") (Replies "[]") []) <> 1%nat.
Proof. split; [reflexivity | discriminate]. Qed.

Lemma Cluster_values_integral (l : list Cluster) :
  Forall (fun c => tabIds_of c = map VInt (ids_of c)) (map Cluster_value l).
Proof.
  apply Forall_forall. intros v Hv. apply in_map_iff in Hv as (c & <- & _).
  now rewrite ids_of_Cluster_value.
Qed.




(** C7, as amended.  A reply from which no JSON value is recovered never
    makes the services throw.  In the extension it ends exactly as a
    provider failure does, for the analysis of a tab and for the
    clustering.  In the backend it does not: the clustering parser
    answers with the clusters of the domain-based fallback, which the
    caller then validates like provider clusters, whereas a provider
    failure returns the fallback clusters as they are; and the analysis of
    a tab returns a record of its own, made from the reply, whereas a
    provider failure returns the record with the error message. *)
Theorem C7_unparseable_reply_falls_back
    (URL_hostname : string -> option string) (JSON_parse : string -> result value)
    (localeCompare : string -> string -> Z) (content e : string) :
  (forall apiKey tab,
      unparseable JSON_parse "{" "}" (Str.trim content) ->
      Extension.analyzeAndPrioritizeTab JSON_parse apiKey tab (Replies content)
      = Extension.analyzeAndPrioritizeTab JSON_parse apiKey tab (Fails e))
  /\ (forall apiKey tabs,
         unparseable JSON_parse "[" "]" (Str.trim content) ->
         Extension.clusterAndSortTabs URL_hostname JSON_parse localeCompare apiKey
           (Replies content) tabs
         = Extension.clusterAndSortTabs URL_hostname JSON_parse localeCompare apiKey
             (Fails e) tabs)
  /\ (forall tabs,
         unparseableArray JSON_parse (Str.trim content) ->
         Backend.parseClusteringResponse URL_hostname JSON_parse (Str.trim content) tabs
         = VArr (Backend.fallbackClustering URL_hostname tabs))
  /\ (forall tabs,
         unparseableArray JSON_parse (Str.trim content) ->
         (2 <= List.length tabs)%nat ->
         Backend.clusterAndSortTabs URL_hostname JSON_parse localeCompare (Fails e) tabs
         = Backend.fallbackClustering URL_hostname tabs
         /\ Backend.validateAndSortClusters URL_hostname localeCompare
              (VArr (Backend.fallbackClustering URL_hostname tabs)) tabs
            = Ok (Backend.clusterAndSortTabs URL_hostname JSON_parse localeCompare
                    (Replies content) tabs))
  /\ (forall tab,
         unparseable JSON_parse "{" "}" (Str.trim content) ->
         Backend.analyzeAndPrioritizeTab JSON_parse tab (Replies content)
         = Ok (unableRecord tab (Str.trim content))
         /\ Backend.analyzeOrDefault JSON_parse (tab, Fails e) = unavailableRecord tab e).
Proof.
  split; [|split; [|split; [|split]]].
  - intros apiKey tab Hu. unfold Extension.analyzeAndPrioritizeTab.
    destruct (negb (present apiKey)) eqn:E; [reflexivity|].
    apply negb_false_iff in E.
    pose proof (Extension_reply_unparseable JSON_parse tab apiKey content E Hu) as H1.
    pose proof (Extension_fails JSON_parse tab apiKey e E) as H2.
    unfold Extension.analyzeAndPrioritizeTab in H1, H2. rewrite E in H1, H2. simpl negb in *.
    cbv iota in H1, H2. congruence.
  - intros apiKey tabs Hu. now apply Extension_cluster_unparseable.
  - intros tabs Hu. now apply Backend_parse_unparseable.
  - intros tabs Hu Hl. split.
    + now apply Backend_cluster_fails.
    + now apply Backend_cluster_unparseable.
  - intros tab Hu. split; [now apply Backend_reply_unparseable | reflexivity].
Qed.

Lemma C7_witness :
  unparseable Platform.JSON_parse "[" "]" (Str.trim "I cannot group these tabs.")
  /\ Extension.clusterAndSortTabs Platform.hostname Platform.JSON_parse
       Platform.localeCompare (Some "key") (Replies "I cannot group these tabs.")
       Sample.threeTabs
     = Extension.clusterAndSortTabs Platform.hostname Platform.JSON_parse
         Platform.localeCompare (Some "key") (Fails "Groq API error: 500")
         Sample.threeTabs.
Proof.
  assert (H : unparseable Platform.JSON_parse "[" "]"
                (Str.trim "I cannot group these tabs.")) by exact I.
  split; [exact H|].
  destruct (C7_unparseable_reply_falls_back Platform.hostname Platform.JSON_parse
              Platform.localeCompare "I cannot group these tabs." "Groq API error: 500")
    as (_ & E & _).
  exact (E (Some "key") Sample.threeTabs H).
Defined.

(** Against C7 as stated: in the backend an unparseable reply and a
    provider failure do not end in the same fallback, neither for the
    analysis of a tab nor for the clustering. *)
Lemma C7_backend_fallbacks_differ :
  unparseable Platform.JSON_parse "{" "}" (Str.trim "no json here")
  /\ Backend.analyzeOrDefault Platform.JSON_parse (Sample.page, Replies "no json here")
     <> Backend.analyzeOrDefault Platform.JSON_parse (Sample.page, Fails "down")
  /\ unparseableArray Platform.JSON_parse (Str.trim "no json here")
  /\ Backend.clusterAndSortTabs Platform.hostname Platform.JSON_parse Platform.localeCompare
       (Replies "no json here") Sample.thirds
     <> Backend.clusterAndSortTabs Platform.hostname Platform.JSON_parse
          Platform.localeCompare (Fails "down") Sample.thirds.
Proof.
  split; [exact I|]. split; [intros H; vm_compute in H; discriminate H|].
  split; [now exists "SyntaxError: Unexpected token"|].
  intros H. vm_compute in H. discriminate H.
Qed.

Lemma revisedFrom_rounded (lc : string -> string -> Z) (tabs : list TabAnalysis)
    (origin : list value) (c : value) :
  revisedFrom lc tabs origin c -> rounded c = c.
Proof.
  intros (c0 & kept & _ & _ & Hs & _).
  destruct (sort _ kept) as [|k ks].
  - unfold rounded. destruct Hs as (ps & n & -> & _ & _ & _ & Hp).
    unfold priority_of. simpl. now rewrite Hp.
  - unfold revisedPriority in Hs. destruct (shaped_rounded _ _ _ Hs) as [-> _].
    destruct Hs as (ps & n & -> & _ & _ & _ & Hp). cbn [JS.set].
    rewrite round1_idempotent. f_equal. now apply update_unchanged.
Qed.

(** How far the validation is from idempotent.  For tabs with distinct
    ids and a total [localeCompare], validating a validated result again
    returns the same clusters in the same order with the same members;
    the only change is that every clusterPriority is rounded to one
    decimal place, which leaves the clusters made of candidates as they
    are and rounds the mean of the cluster of unclaimed tabs.  From the
    second run on the validation returns its input. *)
Theorem revalidation_only_rounds
    (URL_hostname : string -> option string) (localeCompare : string -> string -> Z)
    (clusters : list value) (tabs : list TabAnalysis) (out : list value) :
  NoDup (map id tabs) ->
  (forall s t, localeCompare s t <= 0 \/ localeCompare t s <= 0) ->
  Extension.validateAndSortClusters URL_hostname localeCompare (VArr clusters) tabs = Ok out
  \/ Backend.validateAndSortClusters URL_hostname localeCompare (VArr clusters) tabs = Ok out ->
  Backend.validateAndSortClusters URL_hostname localeCompare (VArr out) tabs
  = Ok (map rounded out)
  /\ Extension.validateAndSortClusters URL_hostname localeCompare (VArr out) tabs
     = Ok (map rounded out)
  /\ Backend.validateAndSortClusters URL_hostname localeCompare (VArr (map rounded out)) tabs
     = Ok (map rounded out)
  /\ Extension.validateAndSortClusters URL_hostname localeCompare (VArr (map rounded out)) tabs
     = Ok (map rounded out)
  /\ Forall (fun c => revisedFrom localeCompare tabs clusters c -> rounded c = c) out.
Proof.
  intros Hnd Htot H.
  assert (H' : Backend.validateAndSortClusters URL_hostname localeCompare (VArr clusters) tabs
               = Ok out).
  { destruct H as [H|H]; [now rewrite (validate_copies _ URL_hostname) in H | exact H]. }
  pose proof (validate_gives_settled URL_hostname localeCompare tabs Hnd Htot clusters out H')
    as Hs.
  pose proof (settled_rounded localeCompare tabs out Hs) as Hs'.
  pose proof (validate_settled URL_hostname localeCompare tabs Hnd out Hs) as E1.
  pose proof (validate_settled URL_hostname localeCompare tabs Hnd _ Hs') as E2.
  assert (R : map rounded (map rounded out) = map rounded out).
  { rewrite map_map. apply map_ext. apply rounded_idempotent. }
  rewrite R in E2.
  split; [exact E1|]. split; [now rewrite (validate_copies _ URL_hostname)|].
  split; [exact E2|]. split; [now rewrite (validate_copies _ URL_hostname)|].
  apply Forall_forall. intros c _. apply revisedFrom_rounded.
Qed.

Lemma revalidation_of_a_sample :
  NoDup (map id Sample.thirds)
  /\ Backend.validateAndSortClusters Platform.hostname Platform.localeCompare
       (VArr [VObj [("name", VStr "First"); ("tabIds", VArr [VInt 3; VInt 9])]])
       Sample.thirds
     = Ok [Cluster_value {| name := "Other"; description := "Uncategorized tabs";
                            tabIds := [1; 2]; clusterPriority := 1 |};
           VObj [("name", VStr "First"); ("tabIds", VArr [VInt 3]);
                 ("clusterPriority", VNum 2)]]
  /\ Backend.validateAndSortClusters Platform.hostname Platform.localeCompare
       (VArr [Cluster_value {| name := "Other"; description := "Uncategorized tabs";
                               tabIds := [1; 2]; clusterPriority := 1 |};
              VObj [("name", VStr "First"); ("tabIds", VArr [VInt 3]);
                    ("clusterPriority", VNum 2)]])
       Sample.thirds
     = Ok (map rounded
             [Cluster_value {| name := "Other"; description := "Uncategorized tabs";
                               tabIds := [1; 2]; clusterPriority := 1 |};
              VObj [("name", VStr "First"); ("tabIds", VArr [VInt 3]);
                    ("clusterPriority", VNum 2)]]).
Proof.
  assert (Hnd : NoDup (map id Sample.thirds)) by distinct_ids.
  assert (H : Backend.validateAndSortClusters Platform.hostname Platform.localeCompare
                (VArr [VObj [("name", VStr "First"); ("tabIds", VArr [VInt 3; VInt 9])]])
                Sample.thirds
              = Ok [Cluster_value {| name := "Other"; description := "Uncategorized tabs";
                                     tabIds := [1; 2]; clusterPriority := 1 |};
                    VObj [("name", VStr "First"); ("tabIds", VArr [VInt 3]);
                          ("clusterPriority", VNum 2)]])
    by reflexivity.
  split; [exact Hnd|]. split; [exact H|].
  exact (proj1 (revalidation_only_rounds Platform.hostname Platform.localeCompare
                  _ Sample.thirds _ Hnd Platform_localeCompare_total (or_intror H))).
Defined.

(** C8, where the code departs from it.  The validation rounds the
    clusterPriority of the clusters made of candidates but not that of
    the cluster of unclaimed tabs, so it is not idempotent: with no
    candidate at all, three tabs with the scores 1, 1 and 2 end in one
    cluster of unclaimed tabs whose clusterPriority is 4/3, and validating
    this result again changes the clusterPriority to 1.3. *)
Lemma C8_second_run_differs :
  Backend.validateAndSortClusters Platform.hostname Platform.localeCompare
    (VArr []) Sample.thirds
  = Ok [Cluster_value {| name := "Other"; description := "Uncategorized tabs";
                         tabIds := [1; 2; 3]; clusterPriority := 4 # 3 |}]
  /\ Backend.validateAndSortClusters Platform.hostname Platform.localeCompare
       (VArr [Cluster_value {| name := "Other"; description := "Uncategorized tabs";
                               tabIds := [1; 2; 3]; clusterPriority := 4 # 3 |}])
       Sample.thirds
     = Ok [Cluster_value {| name := "Other"; description := "Uncategorized tabs";
                            tabIds := [1; 2; 3]; clusterPriority := 13 # 10 |}]
  /\ Backend.validateAndSortClusters Platform.hostname Platform.localeCompare
       (VArr [Cluster_value {| name := "Other"; description := "Uncategorized tabs";
                               tabIds := [1; 2; 3]; clusterPriority := 4 # 3 |}])
       Sample.thirds
     <> Ok [Cluster_value {| name := "Other"; description := "Uncategorized tabs";
                             tabIds := [1; 2; 3]; clusterPriority := 4 # 3 |}].
Proof.
  split; [reflexivity|]. split; [reflexivity|].
  intros H. vm_compute in H. discriminate H.
Qed.

(** C9.  For every batch the final clusters are sorted by clusterPriority,
    lowest first: in the backend and in the extension, whatever the
    provider replies, so on the provider path and on the fallback path
    alike. *)
Theorem C9_clusters_sorted_by_priority
    (URL_hostname : string -> option string) (JSON_parse : string -> result value)
    (localeCompare : string -> string -> Z) (tabs : list TabAnalysis) :
  (forall reply,
      sortedByPriority
        (Backend.clusterAndSortTabs URL_hostname JSON_parse localeCompare reply tabs))
  /\ (forall apiKey reply,
         sortedByPriority
           (Extension.clusterAndSortTabs URL_hostname JSON_parse localeCompare
              apiKey reply tabs)).
Proof.
  split.
  - intros reply. apply Backend_clusterAndSortTabs_sorted.
  - intros apiKey reply. apply Extension_clusterAndSortTabs_sorted.
Qed.

(** C10.  On every array of candidate clusters and every list of analyses
    the validation of the extension and the validation of the backend
    return the same thing: the same clusters with the same members and
    priorities in the same order, or the same exception. *)
Theorem C10_validation_copies_agree
    (URL_hostname : string -> option string) (localeCompare : string -> string -> Z)
    (clusters : list value) (tabs : list TabAnalysis) :
  Extension.validateAndSortClusters URL_hostname localeCompare (VArr clusters) tabs
  = Backend.validateAndSortClusters URL_hostname localeCompare (VArr clusters) tabs.
Proof.
  unfold Extension.validateAndSortClusters, Backend.validateAndSortClusters.
  replace (Extension.candidates clusters) with (Backend.candidates clusters).
  - destruct (Backend.candidates clusters) as [cs|]; [|reflexivity]. cbn [bind].
    replace (Extension.reviseAll localeCompare tabs [] cs)
      with (Backend.reviseAll localeCompare tabs [] cs); [reflexivity|].
    generalize (@nil Z). induction cs as [|[c ids] cs IH]; intros assigned; [reflexivity|].
    cbn [Backend.reviseAll Extension.reviseAll].
    replace (Extension.revise localeCompare tabs assigned (c, ids))
      with (Backend.revise localeCompare tabs assigned (c, ids)).
    + destruct (Backend.revise localeCompare tabs assigned (c, ids)) as [c' assigned'].
      now rewrite IH.
    + unfold Backend.revise, Extension.revise.
      replace (Extension.claim tabs assigned ids) with (Backend.claim tabs assigned ids);
        [reflexivity|].
      revert assigned. clear. induction ids as [|v ids IH]; intros assigned; [reflexivity|].
      cbn [Backend.claim Extension.claim].
      destruct (key_of v) as [k|]; [|apply IH].
      destruct (has (tabMap tabs) k && negb (mem k assigned)); [|apply IH].
      now rewrite IH.
  - induction clusters as [|c l IH]; [reflexivity|].
    cbn [Backend.candidates Extension.candidates]. now rewrite IH.
Qed.

(** * Further properties *)

(** ** The topic heuristics *)

Lemma lower_char_idempotent (c : ascii) : Str.lower_char (Str.lower_char c) = Str.lower_char c.
Proof. destruct c as [[] [] [] [] [] [] [] []]; reflexivity. Qed.

Lemma toLowerCase_app (a b : string) :
  Str.toLowerCase (a ++ b) = (Str.toLowerCase a ++ Str.toLowerCase b)%string.
Proof. induction a as [|c a IH]; simpl; [reflexivity | now rewrite IH]. Qed.

Lemma toLowerCase_idempotent (s : string) :
  Str.toLowerCase (Str.toLowerCase s) = Str.toLowerCase s.
Proof.
  induction s as [|c s IH]; simpl; [reflexivity|].
  now rewrite lower_char_idempotent, IH.
Qed.

Lemma toLowerCase_join (sep : string) (l : list string) :
  Str.toLowerCase (Str.join sep l)
  = Str.join (Str.toLowerCase sep) (map Str.toLowerCase l).
Proof.
  induction l as [|x l IH]; [reflexivity|].
  destruct l as [|y l]; [reflexivity|].
  change (Str.join sep (x :: y :: l)) with (x ++ sep ++ Str.join sep (y :: l))%string.
  change (Str.join (Str.toLowerCase sep) (map Str.toLowerCase (x :: y :: l)))
    with (Str.toLowerCase x ++ Str.toLowerCase sep
          ++ Str.join (Str.toLowerCase sep) (map Str.toLowerCase (y :: l)))%string.
  now rewrite !toLowerCase_app, IH.
Qed.

Lemma toLowerCase_chars (s : string) (c : ascii) :
  In c (chars (Str.toLowerCase s)) -> Str.lower_char c = c.
Proof.
  induction s as [|d s IH]; simpl; [contradiction|].
  intros [<-|H]; [apply lower_char_idempotent | now apply IH].
Qed.

Lemma chars_app (a b : string) : chars (a ++ b) = (chars a ++ chars b)%list.
Proof. induction a as [|c a IH]; simpl; [reflexivity | now rewrite IH]. Qed.

Lemma In_firstn {A : Type} (n : nat) (l : list A) (x : A) : In x (firstn n l) -> In x l.
Proof.
  revert n. induction l as [|y l IH]; intros [|n]; simpl; try contradiction.
  intros [E|H]; [now left | right; now apply (IH n)].
Qed.

Lemma NoDup_firstn {A : Type} (n : nat) (l : list A) : NoDup l -> NoDup (firstn n l).
Proof.
  intros H. revert n. induction H as [|x l Hx _ IH]; intros [|n]; simpl.
  - constructor.
  - constructor.
  - constructor.
  - constructor; [|apply IH]. intros Hin. apply Hx. now apply In_firstn in Hin.
Qed.


(** The pieces that [split] cuts out of lower-case text are lower-case
    words. *)
Lemma split_nonword_words (s : string) : forall cur in_sep w,
  (forall c, In c (chars s) -> Str.lower_char c = c) ->
  lowerWord cur ->
  In w (Str.split_nonword_aux s cur in_sep) -> lowerWord w.
Proof.
  induction s as [|d s IH]; simpl; intros cur in_sep w Hs Hcur Hw.
  - destruct Hw as [<-|[]]. exact Hcur.
  - assert (Hs' : forall c, In c (chars s) -> Str.lower_char c = c) by auto.
    destruct (Str.is_word d) eqn:Ed.
    + apply (IH _ _ _ Hs') in Hw; [exact Hw|].
      intros c Hc. unfold chars in Hc. fold (chars (cur ++ String d EmptyString)) in Hc.
      rewrite chars_app in Hc. apply in_app_or in Hc as [Hc|[<-|[]]]; [now apply Hcur|].
      split; [exact Ed | apply Hs; now left].
    + destruct in_sep.
      * now apply (IH _ _ _ Hs') in Hw.
      * destruct Hw as [<-|Hw]; [exact Hcur|].
        apply (IH _ _ _ Hs') in Hw; [exact Hw|]. intros c [].
Qed.

(** X1.  The topics that the extension falls back on are entries of its
    fixed vocabulary, at most three of them and none twice; the case of
    the letters in the tab's title, description and headings does not
    matter. *)
Theorem basic_topics_come_from_the_vocabulary (tab : Tab.t) :
  (List.length (Extension.extractBasicTopics tab) <= 3)%nat
  /\ NoDup (Extension.extractBasicTopics tab)
  /\ (forall topic, In topic (Extension.extractBasicTopics tab) ->
                    In topic Extension.domains)
  /\ Extension.extractBasicTopics (lowercased tab) = Extension.extractBasicTopics tab.
Proof.
  unfold Extension.extractBasicTopics. split; [|split; [|split]].
  - apply firstn_le_length.
  - apply NoDup_firstn, NoDup_filter. unfold Extension.domains.
    repeat (constructor; [simpl; intuition discriminate|]).
    constructor.
  - intros topic H. apply In_firstn in H. now apply filter_In in H.
  - unfold lowercased. cbn [Tab.title Tab.metaDescription Tab.headings].
    rewrite !toLowerCase_app, !toLowerCase_join, !toLowerCase_idempotent, map_map.
    rewrite (map_ext _ Str.toLowerCase toLowerCase_idempotent). reflexivity.
Qed.

(** X2.  The topics that the backend draws from a reply and a tab are at
    most five lower-case words of four characters or more, none of them
    one of the common words. *)
Theorem topics_are_long_uncommon_words (text : string) (tab : Tab.t) :
  (List.length (Backend.extractTopics text tab) <= 5)%nat
  /\ Forall (fun word => (4 <= String.length word)%nat
                         /\ ~ In word Backend.commonWords
                         /\ lowerWord word)
            (Backend.extractTopics text tab).
Proof.
  unfold Backend.extractTopics. split; [apply firstn_le_length|].
  apply Forall_forall. intros word H. apply In_firstn in H.
  apply filter_In in H as [Hin Hf]. apply andb_true_iff in Hf as [Hl Hc].
  split; [|split].
  - apply Nat.ltb_lt in Hl. lia.
  - intros Hcw. apply negb_true_iff in Hc.
    assert (E : existsb (String.eqb word) Backend.commonWords = true).
    { apply existsb_exists. exists word. split; [exact Hcw | apply String.eqb_refl]. }
    congruence.
  - unfold Str.split_nonword in Hin. revert Hin. apply split_nonword_words.
    + intros c. apply toLowerCase_chars.
    + intros c [].
Qed.

(** ** The tab manager *)

Lemma find_app_first {A : Type} (p : A -> bool) (l l' : list A) :
  find p (l ++ l') = match find p l with Some x => Some x | None => find p l' end.
Proof.
  induction l as [|x l IH]; simpl; [reflexivity|]. now destruct (p x).
Qed.

Lemma ZMap_get_set {A : Type} (k k' : Z) (v : A) (m : ZMap.t A) :
  ZMap.get k' (ZMap.set k v m) = if k =? k' then Some v else ZMap.get k' m.
Proof.
  unfold ZMap.get. induction m as [|[k0 v0] m IH]; simpl.
  - now destruct (k =? k').
  - destruct (Z.eqb_spec k0 k) as [->|Hne]; simpl.
    + now destruct (k =? k').
    + destruct (Z.eqb_spec k0 k') as [->|Hne']; simpl.
      * destruct (Z.eqb_spec k k'); [congruence | reflexivity].
      * exact IH.
Qed.

Lemma ZMap_get_fold {A : Type} (key : A -> Z) (k : Z) (l : list A) : forall m,
  ZMap.get k (fold_left (fun m x => ZMap.set (key x) x m) l m)
  = match find (fun x => key x =? k) (rev l) with
    | Some x => Some x
    | None => ZMap.get k m
    end.
Proof.
  induction l as [|x l IH]; intros m; simpl; [reflexivity|].
  rewrite IH, find_app_first, ZMap_get_set. simpl.
  destruct (find _ (rev l)); [reflexivity|]. now destruct (key x =? k).
Qed.

(** The map that [storeResults] builds answers as the map of the
    clustering does. *)
Lemma ZMap_get_of_list (l : list TabAnalysis) (k : Z) :
  ZMap.get k (ZMap.of_list id l) = tabMap l k.
Proof.
  unfold ZMap.of_list. rewrite ZMap_get_fold. unfold tabMap.
  now destruct (find _ (rev l)).
Qed.

Lemma ZMap_get_delete {A : Type} (k k' : Z) (m : ZMap.t A) :
  ZMap.get k' (ZMap.delete k m) = if k' =? k then None else ZMap.get k' m.
Proof.
  unfold ZMap.get, ZMap.delete. induction m as [|[k0 v0] m IH]; simpl.
  - now destruct (k' =? k).
  - destruct (Z.eqb_spec k0 k) as [->|Hne]; simpl.
    + rewrite IH. destruct (Z.eqb_spec k' k) as [->|Hne']; [reflexivity|].
      destruct (Z.eqb_spec k k'); [congruence | reflexivity].
    + destruct (Z.eqb_spec k0 k') as [->|Hne']; simpl.
      * destruct (Z.eqb_spec k' k); [congruence | reflexivity].
      * exact IH.
Qed.

Lemma tabMap_absent (tabs : list TabAnalysis) (k : Z) :
  ~ In k (map id tabs) -> tabMap tabs k = None.
Proof.
  intros H. destruct (tabMap tabs k) as [t|] eqn:E; [|reflexivity].
  exfalso. apply H. apply has_tabMap. unfold has. now rewrite E.
Qed.

Lemma get_total (c v : value) (k k' : string) :
  JS.get c k = Ok v -> exists v', JS.get c k' = Ok v'.
Proof. destruct c; simpl; intros H; try discriminate; eauto. Qed.

Lemma listing_ids_of (c : value) (ks : list Z) : listing c ks -> ids_of c = ks.
Proof.
  intros (H & _). unfold ids_of, tabIds_of. rewrite H. apply ids_of_map_VInt.
Qed.

Lemma Cluster_value_listing (c : Cluster) : listing (Cluster_value c) (tabIds c).
Proof. repeat split; eexists; reflexivity. Qed.

Lemma shaped_listing (c : value) (ks : list Z) (p : value) : shaped c ks p -> listing c ks.
Proof.
  intros (ps & n & -> & Hn & _ & Ht & Hp). unfold listing. simpl.
  rewrite Hn, Ht, Hp. eauto.
Qed.

Lemma flat_mapM_app {A B : Type} (f : A -> result (list B)) (l l' : list A) :
  flat_mapM f (l ++ l')
  = (r <- flat_mapM f l ;; r' <- flat_mapM f l' ;; Ok (r ++ r')%list).
Proof.
  induction l as [|x l IH]; simpl.
  - destruct (flat_mapM f l'); reflexivity.
  - destruct (f x) as [r|]; simpl; [|reflexivity]. rewrite IH.
    destruct (flat_mapM f l) as [rs|]; simpl; [|reflexivity].
    destruct (flat_mapM f l') as [rs'|]; simpl; [|reflexivity].
    now rewrite app_assoc.
Qed.

(** A loop whose body never throws is a [flat_map]. *)
Lemma flat_mapM_pure {A B : Type} (f : A -> result (list B)) (g : A -> list B)
    (l : list A) :
  (forall x, In x l -> f x = Ok (g x)) -> flat_mapM f l = Ok (flat_map g l).
Proof.
  induction l as [|x l IH]; simpl; intros H; [reflexivity|].
  rewrite (H x) by now left. simpl. rewrite IH by auto. reflexivity.
Qed.

(** Filtering the results of every body filters the result of the
    loop. *)
Lemma flat_mapM_filter {A B : Type} (p : B -> bool) (f f' : A -> result (list B))
    (l : list A) :
  (forall x, In x l -> f' x = (r <- f x ;; Ok (filter p r))) ->
  flat_mapM f' l = (r <- flat_mapM f l ;; Ok (filter p r)).
Proof.
  induction l as [|x l IH]; simpl; intros H; [reflexivity|].
  rewrite (H x) by now left. destruct (f x) as [r|]; simpl; [|reflexivity].
  rewrite IH by auto. destruct (flat_mapM f l) as [rs|]; simpl; [|reflexivity].
  now rewrite filter_app.
Qed.

Section SortedResults.
Variable this : TabManager.t.

(** The rows that a listing cluster contributes. *)
Lemma rows_of_a_cluster (c : value) (ks : list Z) :
  listing c ks ->
  exists rows,
    (tabIds <- JS.get c "tabIds" ;;
     ids <- iterate tabIds ;;
     flat_mapM
       (fun tabId =>
          match TabManager.summaryAt this tabId with
          | Some tab =>
              n <- JS.get c "name" ;;
              p <- JS.get c "clusterPriority" ;;
              Ok [{| TabManager.ResultRow.tab := tab; TabManager.ResultRow.clusterName := n;
                     TabManager.ResultRow.clusterPriority := p |}]
          | None => Ok []
          end)
       ids) = Ok rows
    /\ map TabManager.ResultRow.tab rows
       = flat_map (kept (TabManager.tabSummaries this)) ks
    /\ Forall (fun row => (exists k, In k ks
                                      /\ ZMap.get k (TabManager.tabSummaries this)
                                         = Some (TabManager.ResultRow.tab row))
                          /\ JS.get c "name" = Ok (TabManager.ResultRow.clusterName row)
                          /\ JS.get c "clusterPriority"
                             = Ok (TabManager.ResultRow.clusterPriority row)) rows.
Proof.
  intros (Ht & (n & Hn) & (p & Hp)). rewrite Ht. cbn [bind iterate].
  rewrite Hn, Hp. cbn [bind].
  exists (flat_map (fun k => map (fun tab => {| TabManager.ResultRow.tab := tab;
                                                TabManager.ResultRow.clusterName := n;
                                                TabManager.ResultRow.clusterPriority := p |})
                               (kept (TabManager.tabSummaries this) k)) ks).
  split; [|split].
  - rewrite (flat_mapM_pure _
               (fun v => match TabManager.summaryAt this v with
                         | Some tab => [{| TabManager.ResultRow.tab := tab;
                                           TabManager.ResultRow.clusterName := n;
                                           TabManager.ResultRow.clusterPriority := p |}]
                         | None => []
                         end)).
    + f_equal. clear. induction ks as [|k ks IH]; simpl; [reflexivity|].
      rewrite IH. f_equal. unfold TabManager.summaryAt, kept.
      rewrite key_of_VInt. now destruct (ZMap.get k _).
    + intros v _. now destruct (TabManager.summaryAt this v).
  - clear. induction ks as [|k ks IH]; simpl; [reflexivity|].
    rewrite map_app, IH. f_equal. unfold kept. now destruct (ZMap.get k _).
  - apply Forall_forall. intros row Hr. apply in_flat_map in Hr as (k & Hk & Hr).
    apply in_map_iff in Hr as (tab & <- & Htab). cbn. split; [|split; auto].
    unfold kept in Htab. destruct (ZMap.get k _) as [t|] eqn:E; [|contradiction].
    destruct Htab as [<-|[]]. now exists k.
Qed.
End SortedResults.

(** The rows of [getSortedResults], for clusters that list integer
    ids: the summaries kept under the ids, cluster after cluster. *)
Lemma getSortedResults_listing (this : TabManager.t) :
  Forall (fun c => exists ks, listing c ks) (TabManager.clusters this) ->
  exists rows,
    TabManager.getSortedResults this = Ok rows
    /\ map TabManager.ResultRow.tab rows
       = flat_map (kept (TabManager.tabSummaries this))
                  (flat_map ids_of (TabManager.clusters this))
    /\ Forall (fun row =>
                 exists c k,
                   In c (TabManager.clusters this) /\ In k (ids_of c)
                   /\ ZMap.get k (TabManager.tabSummaries this)
                      = Some (TabManager.ResultRow.tab row)
                   /\ JS.get c "name" = Ok (TabManager.ResultRow.clusterName row)
                   /\ JS.get c "clusterPriority"
                      = Ok (TabManager.ResultRow.clusterPriority row)) rows.
Proof.
  unfold TabManager.getSortedResults.
  induction (TabManager.clusters this) as [|c cs IH]; intros H.
  - exists []. repeat split. constructor.
  - inversion H as [|? ? (ks & Hc) Hcs]; subst.
    destruct (IH Hcs) as (rows' & E' & Ht' & Hr').
    destruct (rows_of_a_cluster this c ks Hc) as (rows & E & Ht & Hr).
    exists (rows ++ rows')%list. split; [|split].
    + cbn [flat_mapM]. rewrite E. cbn [bind]. rewrite E'. reflexivity.
    + rewrite map_app, Ht, Ht'. cbn [flat_map]. rewrite flat_map_app.
      now rewrite (listing_ids_of c ks Hc).
    + apply Forall_app. split.
      * eapply Forall_impl; [|exact Hr]. intros row ((k & Hk & Hg) & Hn & Hp).
        exists c, k. rewrite (listing_ids_of c ks Hc). repeat split; auto. now left.
      * eapply Forall_impl; [|exact Hr']. intros row (c' & k & Hin & Hrest).
        exists c', k. split; [now right | exact Hrest].
Qed.

Section StoredAnalysis.
Variable URL_hostname : string -> option string.
Variable JSON_parse : string -> result value.
Variable localeCompare : string -> string -> Z.

(** Every cluster that the backend returns lists integer ids. *)
Lemma Backend_clusters_listing (reply : provider_outcome) (tabs : list TabAnalysis) :
  Forall (fun c => exists ks, listing c ks)
         (Backend.clusterAndSortTabs URL_hostname JSON_parse localeCompare reply tabs).
Proof.
  assert (F : Forall (fun c => exists ks, listing c ks)
                     (Backend.fallbackClustering URL_hostname tabs)).
  { unfold Backend.fallbackClustering. apply Forall_forall. intros c Hc.
    apply in_map_iff in Hc as (cl & <- & _). eexists. apply Cluster_value_listing. }
  unfold Backend.clusterAndSortTabs. destruct (List.length tabs <? 2)%nat.
  - constructor; [|constructor]. eexists. apply Cluster_value_listing.
  - destruct (reply_text reply) as [text|]; simpl; [|exact F].
    destruct (Backend.validateAndSortClusters _ _ _ _) as [out|] eqn:E; simpl; [|exact F].
    destruct (Backend.parseClusteringResponse _ _ _ _) as [| | | | | |l|];
      try (injection E as <-; exact F).
    apply validate_structure in E as (revised & assigned & -> & Hok & _ & _).
    apply Forall_forall. intros c Hc. apply (proj1 (sort_In _ _ _)) in Hc.
    apply in_app_or in Hc as [Hc|Hc].
    + apply filter_In in Hc as [Hc _]. rewrite Forall_forall in Hok.
      destruct (Hok c Hc) as (c0 & kept0 & _ & _ & Hs & _).
      eexists. eapply shaped_listing, Hs.
    + unfold otherCluster in Hc. destruct (negb _); [|contradiction].
      destruct Hc as [<-|[]]. eexists. apply Cluster_value_listing.
Qed.

Lemma analyzeOrDefault_id (call : Tab.t * provider_outcome) :
  id (Backend.analyzeOrDefault JSON_parse call) = Tab.id (fst call).
Proof.
  destruct call as [tab reply]. unfold Backend.analyzeOrDefault, Backend.analyzeAndPrioritizeTab.
  destruct reply as [e|content]; cbn [reply_text bind try_catch id fst]; [reflexivity|].
  destruct (Str.match_span "{" "}" (Str.trim content)) as [m|];
    cbn [bind try_catch id]; [|reflexivity].
  destruct (JSON_parse m) as [parsed|]; cbn [bind try_catch id]; [|reflexivity].
  destruct parsed; reflexivity.
Qed.

Lemma analyzeOrDefault_failed (call : Tab.t * provider_outcome) :
  Backend.failed (Backend.analyzeOrDefault JSON_parse call) = rejected (snd call).
Proof.
  destruct call as [tab reply].
  unfold Backend.failed, Backend.analyzeOrDefault, Backend.analyzeAndPrioritizeTab.
  destruct reply as [e|content]; cbn [reply_text bind try_catch error snd rejected present];
    [reflexivity|].
  destruct (Str.match_span "{" "}" (Str.trim content)) as [m|];
    cbn [bind try_catch error present]; [|reflexivity].
  destruct (JSON_parse m) as [parsed|]; cbn [bind try_catch error present]; [|reflexivity].
  destruct parsed; reflexivity.
Qed.

Lemma map_id_analyzeOrDefault (calls : list (Tab.t * provider_outcome)) :
  map id (map (Backend.analyzeOrDefault JSON_parse) calls)
  = map (fun call => Tab.id (fst call)) calls.
Proof. rewrite map_map. apply map_ext. intros call. apply analyzeOrDefault_id. Qed.

(** Distinct keys stay distinct when items are dropped. *)
Lemma NoDup_map_filter {Item Key : Type} (key : Item -> Key) (keep : Item -> bool)
    (items : list Item) (distinct : NoDup (map key items)) :
  NoDup (map key (filter keep items)).
Proof.
  induction items as [|x items IH]; simpl; [constructor|].
  inversion distinct as [|? ? Hx Hl]; subst. destruct (keep x); simpl; [|auto].
  constructor; [|auto]. intros Hin. apply Hx.
  apply in_map_iff in Hin as (y & E & Hy). apply filter_In in Hy as [Hy _].
  rewrite <- E. now apply in_map.
Qed.

Lemma flat_map_pick {A B : Type} (f : A -> B) (h : B -> list A) (p : A -> bool)
    (l : list A) :
  (forall x, In x l -> h (f x) = if p x then [x] else []) ->
  flat_map h (map f l) = filter p l.
Proof.
  induction l as [|x l IH]; simpl; intros H; [reflexivity|].
  rewrite (H x) by now left. rewrite IH by auto. now destruct (p x).
Qed.

(** With distinct ids, the summaries kept under the ids of all the tabs
    are the summaries that were stored. *)
Lemma kept_of_filtered (p : TabAnalysis -> bool) (all : list TabAnalysis) :
  NoDup (map id all) ->
  flat_map (kept (ZMap.of_list id (filter p all))) (map id all) = filter p all.
Proof.
  intros Hnd. apply flat_map_pick. intros s Hs.
  unfold kept. rewrite ZMap_get_of_list. destruct (p s) eqn:Ep.
  - rewrite tabMap_own; [reflexivity | now apply NoDup_map_filter | now apply filter_In].
  - rewrite tabMap_absent; [reflexivity|]. intros Hin.
    apply in_map_iff in Hin as (t & E & Ht). apply filter_In in Ht as [Ht Hp].
    assert (t = s) by now apply (NoDup_map_eq id all). subst. congruence.
Qed.

Lemma Backend_clusters_ids (reply : provider_outcome) (tabs : list TabAnalysis) :
  NoDup (map id tabs) ->
  Permutation
    (flat_map ids_of
       (Backend.clusterAndSortTabs URL_hostname JSON_parse localeCompare reply tabs))
    (map id tabs).
Proof.
  intros Hnd.
  pose proof (Backend_clusterAndSortTabs_ids URL_hostname JSON_parse localeCompare
                tabs Hnd reply) as Hp.
  rewrite tabIds_of_flat_map in Hp.
  - apply Permutation_sym, Permutation_map_inv in Hp as (l & E & Hp).
    apply map_VInt_inj in E. subst. now apply Permutation_sym.
  - eapply Forall_impl; [|apply Backend_clusters_listing].
    intros c (ks & Hc). rewrite (listing_ids_of c ks Hc).
    destruct Hc as (Hc & _). unfold tabIds_of. now rewrite Hc.
Qed.
End StoredAnalysis.

(** X3.  [analyzeTabs] of the backend always returns a result.  Every
    tab of the request counts as processed; a tab counts as an error
    exactly when its provider call threw with a message that is not empty;
    the summaries returned are those of the other tabs, in the order of
    the request, so that summaries and errors add up to the tabs
    processed. *)
Theorem analyzeTabs_accounts_for_every_tab
    (URL_hostname : string -> option string) (JSON_parse : string -> result value)
    (localeCompare : string -> string -> Z)
    (calls : list (Tab.t * provider_outcome)) (clustering : provider_outcome) :
  exists r,
    Backend.analyzeTabs URL_hostname JSON_parse localeCompare calls clustering = Ok r
    /\ Backend.AnalysisResult.processed r = List.length calls
    /\ Backend.AnalysisResult.errors r
       = List.length (filter (fun call => rejected (snd call)) calls)
    /\ map id (Backend.AnalysisResult.summaries r)
       = map (fun call => Tab.id (fst call))
             (filter (fun call => negb (rejected (snd call))) calls)
    /\ (List.length (Backend.AnalysisResult.summaries r)
        + Backend.AnalysisResult.errors r)%nat
       = Backend.AnalysisResult.processed r.
Proof.
  eexists. split; [reflexivity|].
  cbn [Backend.AnalysisResult.processed Backend.AnalysisResult.errors
       Backend.AnalysisResult.summaries].
  assert (Hf : filter Backend.failed (map (Backend.analyzeOrDefault JSON_parse) calls)
               = map (Backend.analyzeOrDefault JSON_parse)
                     (filter (fun call => rejected (snd call)) calls)).
  { rewrite filter_map_commute. f_equal. apply filter_ext.
    intros call. apply analyzeOrDefault_failed. }
  assert (Hs : filter (fun s => negb (Backend.failed s))
                      (map (Backend.analyzeOrDefault JSON_parse) calls)
               = map (Backend.analyzeOrDefault JSON_parse)
                     (filter (fun call => negb (rejected (snd call))) calls)).
  { rewrite filter_map_commute. f_equal. apply filter_ext.
    intros call. now rewrite analyzeOrDefault_failed. }
  rewrite Hf, Hs, !length_map. split; [reflexivity|]. split; [reflexivity|].
  split; [apply map_id_analyzeOrDefault|].
  clear. induction calls as [|call calls IH]; simpl; [reflexivity|].
  destruct (rejected (snd call)); simpl; lia.
Qed.

(** X4.  What the tab manager shows of a backend analysis.  For a
    request with distinct tab ids, the clusters of the result list every
    tab of the request once, the tabs whose analysis failed included;
    once the result is stored, [getSortedResults] returns one row for
    each summary of the result and none for a tab whose analysis failed,
    each row with the name and the priority of the cluster that lists its
    tab. *)
Theorem sorted_results_show_the_analysed_tabs
    (URL_hostname : string -> option string) (JSON_parse : string -> result value)
    (localeCompare : string -> string -> Z) (now : Z)
    (calls : list (Tab.t * provider_outcome)) (clustering : provider_outcome)
    (this : TabManager.t) (store : Storage.t) :
  NoDup (map (fun call => Tab.id (fst call)) calls) ->
  exists r rows,
    Backend.analyzeTabs URL_hostname JSON_parse localeCompare calls clustering = Ok r
    /\ Permutation (flat_map ids_of (Backend.AnalysisResult.clusters r))
                   (map (fun call => Tab.id (fst call)) calls)
    /\ TabManager.getSortedResults
         (fst (fst (TabManager.storeResults now (Backend.AnalysisResult.summaries r)
                      (Backend.AnalysisResult.clusters r) this store)))
       = Ok rows
    /\ Permutation (map TabManager.ResultRow.tab rows) (Backend.AnalysisResult.summaries r)
    /\ Forall (fun row =>
                 exists c,
                   In c (Backend.AnalysisResult.clusters r)
                   /\ In (id (TabManager.ResultRow.tab row)) (ids_of c)
                   /\ JS.get c "name" = Ok (TabManager.ResultRow.clusterName row)
                   /\ JS.get c "clusterPriority"
                      = Ok (TabManager.ResultRow.clusterPriority row)) rows.
Proof.
  intros Hnd. rewrite <- (map_id_analyzeOrDefault JSON_parse) in Hnd.
  eexists. 
  cbn [Backend.analyzeTabs TabManager.storeResults fst
       Backend.AnalysisResult.summaries Backend.AnalysisResult.clusters].
  set (all := map (Backend.analyzeOrDefault JSON_parse) calls) in *.
  set (cs := Backend.clusterAndSortTabs URL_hostname JSON_parse localeCompare clustering all).
  set (stored := {| TabManager.tabs := TabManager.tabs this;
                    TabManager.tabSummaries :=
                      ZMap.of_list id (filter (fun s => negb (Backend.failed s)) all);
                    TabManager.clusters := cs;
                    TabManager.isAnalyzing := TabManager.isAnalyzing this |}).
  assert (Hp : Permutation (flat_map ids_of cs) (map id all))
    by now apply Backend_clusters_ids.
  destruct (getSortedResults_listing stored) as (rows & E & Ht & Hr).
  { apply Backend_clusters_listing. }
  exists rows. split; [reflexivity|]. split; [|split; [|split]].
  - subst all. now rewrite map_id_analyzeOrDefault in Hp.
  - exact E.
  - rewrite Ht. cbn [TabManager.tabSummaries TabManager.clusters stored].
    eapply Permutation_trans; [apply Permutation_flat_map, Hp|].
    now rewrite kept_of_filtered.
  - eapply Forall_impl; [|exact Hr]. intros row (c & k & Hc & Hk & Hg & Hn & Hq).
    exists c. cbn [TabManager.tabSummaries TabManager.clusters stored] in *.
    rewrite ZMap_get_of_list in Hg. apply tabMap_Some in Hg as [_ <-]. auto.
Qed.

Lemma sorted_results_of_a_batch :
  NoDup (map (fun call => Tab.id (fst call)) Further.calls)
  /\ exists r rows,
       Backend.analyzeTabs Platform.hostname Platform.JSON_parse Platform.localeCompare
         Further.calls (Fails "provider down") = Ok r
       /\ Permutation (flat_map ids_of (Backend.AnalysisResult.clusters r))
                      (map (fun call => Tab.id (fst call)) Further.calls)
       /\ TabManager.getSortedResults
            (fst (fst (TabManager.storeResults 0 (Backend.AnalysisResult.summaries r)
                         (Backend.AnalysisResult.clusters r) TabManager.init [])))
          = Ok rows
       /\ Permutation (map TabManager.ResultRow.tab rows) (Backend.AnalysisResult.summaries r)
       /\ Forall (fun row =>
                    exists c,
                      In c (Backend.AnalysisResult.clusters r)
                      /\ In (id (TabManager.ResultRow.tab row)) (ids_of c)
                      /\ JS.get c "name" = Ok (TabManager.ResultRow.clusterName row)
                      /\ JS.get c "clusterPriority"
                         = Ok (TabManager.ResultRow.clusterPriority row)) rows.
Proof.
  assert (H : NoDup (map (fun call => Tab.id (fst call)) Further.calls)) by distinct_ids.
  split; [exact H|].
  apply (sorted_results_show_the_analysed_tabs Platform.hostname Platform.JSON_parse
           Platform.localeCompare 0 Further.calls (Fails "provider down")
           TabManager.init [] H).
Defined.

(** X5.  When a tab is closed, the tab manager forgets its summary but
    leaves the clusters as they are: from a stored analysis,
    [getSortedResults] after the removal returns the rows it returned
    before, without the rows of the closed tab. *)
Theorem closed_tabs_leave_the_sorted_results
    (now : Z) (summaries : list TabAnalysis) (clusters : list value)
    (this : TabManager.t) (store : Storage.t) (tabId : Z) :
  let stored := fst (fst (TabManager.storeResults now summaries clusters this store)) in
  TabManager.clusters (TabManager.onRemoved tabId stored) = clusters
  /\ TabManager.getSortedResults (TabManager.onRemoved tabId stored)
     = (rows <- TabManager.getSortedResults stored ;;
        Ok (filter (fun row => negb (id (TabManager.ResultRow.tab row) =? tabId)) rows)).
Proof.
  cbn [TabManager.storeResults fst]. split; [reflexivity|].
  unfold TabManager.getSortedResults.
  cbn [TabManager.onRemoved TabManager.clusters].
  apply flat_mapM_filter. intros c _.
  destruct (JS.get c "tabIds") as [tabIds|] eqn:Et; cbn [bind]; [|reflexivity].
  destruct (iterate tabIds) as [ids|]; cbn [bind]; [|reflexivity].
  apply flat_mapM_filter. intros v _.
  unfold TabManager.summaryAt. cbn [TabManager.tabSummaries].
  destruct (key_of v) as [k|]; [|reflexivity].
  cbn [TabManager.onRemoved TabManager.tabSummaries].
  rewrite ZMap_get_delete, ZMap_get_of_list.
  destruct (get_total c tabIds "tabIds" "name" Et) as (n & ->).
  destruct (get_total c tabIds "tabIds" "clusterPriority" Et) as (p & ->).
  destruct (tabMap summaries k) as [tab|] eqn:E.
  - apply tabMap_Some in E as [_ <-]. cbn [bind filter TabManager.ResultRow.tab].
    now destruct (id tab =? tabId).
  - now destruct (k =? tabId).
Qed.

(** ** Extracting and arranging tabs *)

Lemma ZMap_get_own {A : Type} (key : A -> Z) (l : list A) (x : A) :
  NoDup (map key l) -> In x l -> ZMap.get (key x) (ZMap.of_list key l) = Some x.
Proof.
  intros Hnd Hin. unfold ZMap.of_list. rewrite ZMap_get_fold.
  destruct (find _ (rev l)) as [y|] eqn:E.
  - apply find_some in E as [Hy E]. apply Z.eqb_eq in E. f_equal.
    rewrite <- in_rev in Hy. now apply (NoDup_map_eq key l).
  - assert (Hx : In x (rev l)) by now rewrite <- in_rev.
    pose proof (find_none _ _ E x Hx) as Hn. simpl in Hn.
    rewrite Z.eqb_refl in Hn. discriminate Hn.
Qed.

Lemma inTurn_nil (moved : nat -> bool) (t c : nat) : inTurn moved t c [].
Proof. intros [|i] m H; discriminate H. Qed.

Lemma inTurn_cons (moved : nat -> bool) (t c : nat) (m : Move.t) (trace : list Move.t) :
  Move.index m = t -> Move.moved m = moved c ->
  inTurn moved (if Move.moved m then S t else t) (S c) trace ->
  inTurn moved t c (m :: trace).
Proof.
  intros Hi Hm H [|i] m' E; simpl in E.
  - injection E as <-. simpl. rewrite !Nat.add_0_r. split; [lia | exact Hm].
  - destruct (H i m' E) as [Hi' Hm']. split.
    + rewrite Hi'. cbn [firstn filter]. destruct (Move.moved m); simpl; lia.
    + rewrite Hm'. f_equal. lia.
Qed.

Lemma inTurn_app (moved : nat -> bool) (t c : nat) (tr tr' : list Move.t) :
  inTurn moved t c tr ->
  inTurn moved (t + List.length (filter Move.moved tr)) (c + List.length tr) tr' ->
  inTurn moved t c (tr ++ tr').
Proof.
  intros H H' i m E. destruct (Nat.lt_ge_cases i (List.length tr)) as [Hlt|Hge].
  - rewrite nth_error_app1 in E by exact Hlt. destruct (H i m E) as [Hi Hm].
    split; [|exact Hm]. rewrite Hi. rewrite firstn_app.
    replace (i - List.length tr)%nat with 0%nat by lia. simpl. now rewrite app_nil_r.
  - rewrite nth_error_app2 in E by exact Hge. destruct (H' _ m E) as [Hi Hm]. split.
    + rewrite Hi, firstn_app, filter_app, length_app.
      rewrite (firstn_all2 tr) by exact Hge. lia.
    + rewrite Hm. f_equal. lia.
Qed.

Section Organize.
Variable allIds : list Z.
Variable moved : nat -> bool.

Lemma moveEach_spec (ids : list value) : forall t c t' c' trace,
  TabManager.moveEach allIds moved ids t c = (t', c', trace) ->
  inTurn moved t c trace
  /\ t' = (t + List.length (filter Move.moved trace))%nat
  /\ c' = (c + List.length trace)%nat
  /\ map Move.tabId trace
     = openAmong allIds
         (flat_map (fun v => match key_of v with Some k => [k] | None => [] end) ids).
Proof.
  induction ids as [|v ids IH]; intros t c t' c' trace H; cbn [TabManager.moveEach] in H.
  - injection H as <- <- <-. simpl. split; [apply inTurn_nil|]. repeat split; lia.
  - cbn [flat_map]. unfold openAmong. rewrite filter_app. fold (openAmong allIds).
    destruct (key_of v) as [k|]; [|now apply IH].
    cbn [filter]. destruct (mem k allIds); [|now apply IH].
    destruct (TabManager.moveEach allIds moved ids _ _) as [[t0 c0] tr] eqn:E.
    injection H as <- <- <-. apply IH in E as (Ht & -> & -> & Hm).
    split; [|split; [|split]].
    + apply inTurn_cons; [reflexivity | reflexivity | exact Ht].
    + cbn [filter Move.moved]. destruct (moved c); simpl; lia.
    + simpl. lia.
    + cbn [map Move.tabId app]. now rewrite Hm.
Qed.

Lemma moveClusters_spec (clusters : list value) : forall t c trace e,
  TabManager.moveClusters allIds moved clusters t c = (trace, e) ->
  inTurn moved t c trace
  /\ Forall (fun m => In (Move.tabId m) allIds) trace
  /\ (Forall (fun cl => exists ks, listing cl ks) clusters ->
      e = None
      /\ map Move.tabId trace = openAmong allIds (flat_map ids_of clusters)).
Proof.
  induction clusters as [|cl clusters IH]; intros t c trace e H;
    cbn [TabManager.moveClusters] in H.
  - injection H as <- <-. split; [apply inTurn_nil|]. split; [constructor|].
    intros _. now split.
  - destruct (tabIds <- JS.get cl "tabIds" ;; iterate tabIds) as [ids|m] eqn:Ei.
    + destruct (TabManager.moveEach allIds moved ids t c) as [[t0 c0] tr] eqn:E.
      destruct (TabManager.moveClusters allIds moved clusters t0 c0) as [tr' e'] eqn:E'.
      injection H as <- <-. apply moveEach_spec in E as (Ht & -> & -> & Hm).
      apply IH in E' as (Ht' & Hin' & Hl'). split; [|split].
      * now apply inTurn_app.
      * apply Forall_app. split; [|exact Hin'].
        apply Forall_forall. intros m Hmin.
        assert (Hk : In (Move.tabId m) (map Move.tabId tr)) by now apply in_map.
        rewrite Hm in Hk. apply filter_In in Hk as [_ Hk]. now apply mem_In.
      * intros Hf. inversion Hf as [|? ? (ks & Hks) Hrest]; subst.
        destruct (Hl' Hrest) as [-> Hm']. split; [reflexivity|].
        rewrite map_app, Hm, Hm'. cbn [flat_map]. unfold openAmong at 3.
        rewrite filter_app. f_equal. f_equal.
        destruct Hks as (Hks & _). rewrite Hks in Ei. cbn in Ei. injection Ei as <-.
        unfold ids_of, tabIds_of. now rewrite Hks.
    + injection H as <- <-. split; [apply inTurn_nil|]. split; [constructor|].
      intros Hf. inversion Hf as [|? ? (ks & Hks & _) _]; subst.
      rewrite Hks in Ei. discriminate Ei.
Qed.
End Organize.

(** X6.  [extractAllTabs], when no extraction is under way, returns one
    record for every open tab that is not an internal page ([chrome://],
    [about:], [moz-extension://]), in the order of the browser and under
    the id of the tab, whatever becomes of the scripts; so tabs with
    distinct ids give records with distinct ids, and the manager then
    finds each record under its id. *)
Theorem extraction_gives_one_record_per_tab
    (open : list BrowserTab.t) (script : BrowserTab.t -> result Content.t)
    (this : TabManager.t) :
  TabManager.isAnalyzing this = false ->
  exists tabData this' updates,
    TabManager.extractAllTabs open script this = (tabData, this', updates)
    /\ map TabData.id tabData = map BrowserTab.id (TabManager.getAllTabs open)
    /\ TabManager.isAnalyzing this' = false
    /\ (NoDup (map BrowserTab.id open) ->
        NoDup (map TabData.id tabData)
        /\ forall d, In d tabData ->
                     ZMap.get (TabData.id d) (TabManager.tabs this') = Some d)
    /\ (forall tab e,
          In tab (TabManager.getAllTabs open) -> script tab = Throw e ->
          In (TabManager.tabDataOf tab
                {| Content.title := BrowserTab.title tab;
                   Content.url := BrowserTab.url tab;
                   Content.metaDescription := EmptyString;
                   Content.headings := [];
                   Content.textContent := EmptyString |}) tabData).
Proof.
  intros Ha. unfold TabManager.extractAllTabs. rewrite Ha.
  eexists _, _, _. split; [reflexivity|].
  assert (Hids : map TabData.id
                   (map (fun tab => TabManager.tabDataOf tab
                                      (TabManager.extractTabContent tab (script tab)))
                        (TabManager.getAllTabs open))
                 = map BrowserTab.id (TabManager.getAllTabs open)).
  { rewrite map_map. apply map_ext. reflexivity. }
  split; [exact Hids|]. split; [reflexivity|]. split.
  - intros Hnd.
    assert (Hnd' : NoDup (map TabData.id
                            (map (fun tab => TabManager.tabDataOf tab
                                               (TabManager.extractTabContent tab (script tab)))
                                 (TabManager.getAllTabs open)))).
    { rewrite Hids. unfold TabManager.getAllTabs. now apply NoDup_map_filter. }
    split; [exact Hnd'|]. intros d Hd. cbn [TabManager.tabs].
    now apply ZMap_get_own.
  - intros tab e Hin He. apply in_map_iff. exists tab. split; [|exact Hin].
    unfold TabManager.extractTabContent. now rewrite He.
Qed.

Lemma extraction_of_two_tabs :
  TabManager.isAnalyzing TabManager.init = false
  /\ exists tabData this' updates,
       TabManager.extractAllTabs
         [{| BrowserTab.id := 1; BrowserTab.url := "about:config";
             BrowserTab.title := "Settings"; BrowserTab.favIconUrl := None |};
          {| BrowserTab.id := 2; BrowserTab.url := "https://example.com";
             BrowserTab.title := "Example"; BrowserTab.favIconUrl := None |}]
         (fun _ => Throw "no access") TabManager.init
       = (tabData, this', updates)
       /\ map TabData.id tabData = [2].
Proof.
  split; [reflexivity|].
  destruct (extraction_gives_one_record_per_tab
              [{| BrowserTab.id := 1; BrowserTab.url := "about:config";
                  BrowserTab.title := "Settings"; BrowserTab.favIconUrl := None |};
               {| BrowserTab.id := 2; BrowserTab.url := "https://example.com";
                  BrowserTab.title := "Example"; BrowserTab.favIconUrl := None |}]
              (fun _ => Throw "no access") TabManager.init eq_refl)
    as (tabData & this' & updates & E & Hids & _).
  exists tabData, this', updates. split; [exact E | exact Hids].
Defined.

(** X7.  [organizeTabsIntoGroups] only moves tabs that are open and
    not internal pages, and makes its calls in turn: every call aims at
    the place right after the tabs that were moved so far, so that a
    failed move leaves no gap.  When every cluster lists integer ids, the
    tabs are tried in the order of the clusters and of their ids, and the
    result is [true]. *)
Theorem organizing_moves_tabs_in_turn
    (open : list BrowserTab.t) (moved : nat -> bool) (this : TabManager.t) :
  exists trace r updates,
    TabManager.organizeTabsIntoGroups open moved this = (trace, r, updates)
    /\ inTurn moved 0 0 trace
    /\ Forall (fun m => In (Move.tabId m)
                           (map BrowserTab.id (TabManager.getAllTabs open))) trace
    /\ (Forall (fun c => exists ks, listing c ks) (TabManager.clusters this) ->
        r = Ok true
        /\ map Move.tabId trace
           = openAmong (map BrowserTab.id (TabManager.getAllTabs open))
                       (flat_map ids_of (TabManager.clusters this))).
Proof.
  unfold TabManager.organizeTabsIntoGroups.
  destruct (TabManager.moveClusters _ moved (TabManager.clusters this) 0 0)
    as [trace e] eqn:E.
  apply moveClusters_spec in E as (Ht & Hin & Hl).
  destruct e as [m|]; eexists _, _, _; (split; [reflexivity|]);
    (split; [exact Ht|]); (split; [exact Hin|]); intros Hf;
    destruct (Hl Hf) as [He Hm]; [discriminate He | now split].
Qed.

(** ** Closing a tab in the side bar *)

Lemma filter_same (tabId : Z) (ks : list Z) :
  filter (fun v => negb (Sidebar.same v tabId)) (map VInt ks) = map VInt (others tabId ks).
Proof.
  induction ks as [|k ks IH]; simpl; [reflexivity|].
  unfold Sidebar.same at 1. rewrite key_of_VInt.
  destruct (k =? tabId); simpl; now rewrite IH.
Qed.

Lemma without_listing (tabId : Z) (c : value) (ks : list Z) :
  listing c ks ->
  exists c',
    Sidebar.without tabId c = Ok c'
    /\ listing c' (others tabId ks) /\ leftOf tabId c c'.
Proof.
  intros Hl. pose proof (listing_ids_of c ks Hl) as Hids.
  destruct Hl as (Ht & Hn & Hp).
  destruct c as [| | | | | | |ps]; try discriminate Ht.
  unfold Sidebar.without. rewrite Ht. cbn [bind JS.set]. rewrite filter_same.
  eexists. split; [reflexivity|].
  assert (Hl' : listing (VObj (JS.update "tabIds" (VArr (map VInt (others tabId ks))) ps))
                        (others tabId ks)).
  { unfold listing. cbn [JS.get]. rewrite lookup_update_same.
    rewrite !lookup_update_other by discriminate. split; [reflexivity|]. split; eauto. }
  split; [exact Hl'|]. unfold leftOf.
  rewrite (listing_ids_of _ _ Hl'), Hids. cbn [JS.get].
  rewrite !lookup_update_other by discriminate. repeat split.
Qed.

Lemma withoutEach_listing (tabId : Z) (cs : list value) :
  Forall (fun c => exists ks, listing c ks) cs ->
  exists cs',
    Sidebar.withoutEach tabId cs = (cs', None)
    /\ Forall2 (fun c c' => (exists ks, listing c' ks) /\ leftOf tabId c c') cs cs'.
Proof.
  induction 1 as [|c cs (ks & Hc) _ (cs' & E & IH)]; simpl.
  - exists []. split; [reflexivity | constructor].
  - destruct (without_listing tabId c ks Hc) as (c' & -> & Hl & Hleft).
    rewrite E. exists (c' :: cs'). split; [reflexivity|].
    constructor; [|exact IH]. split; [eauto | exact Hleft].
Qed.

Lemma listing_nonempty (c : value) (ks : list Z) :
  listing c ks -> negb (is_nil (tabIds_of c)) = negb (is_nil (ids_of c)).
Proof.
  intros Hl. rewrite (listing_ids_of c ks Hl). destruct Hl as (Ht & _).
  unfold tabIds_of. rewrite Ht. now destruct ks.
Qed.

Lemma others_flat_map {A : Type} (f : A -> list Z) (tabId : Z) (l : list A) :
  others tabId (flat_map f l) = flat_map (fun x => others tabId (f x)) l.
Proof.
  unfold others. induction l as [|x l IH]; simpl; [reflexivity|].
  now rewrite filter_app, IH.
Qed.

Lemma Permutation_filter {A : Type} (p : A -> bool) (l l' : list A) :
  Permutation l l' -> Permutation (filter p l) (filter p l').
Proof.
  induction 1 as [|x l l' _ IH|x y l|l l' l'' _ IH _ IH']; simpl.
  - constructor.
  - destruct (p x); [now constructor | exact IH].
  - destruct (p x), (p y); try apply Permutation_refl. apply perm_swap.
  - eapply Permutation_trans; eassumption.
Qed.

(** The clusters left by [closeTab]: what remains of the clusters that
    keep a tab, in their order. *)
Lemma remaining_clusters (tabId : Z) (cs cs' : list value) :
  Forall2 (fun c c' => (exists ks, listing c' ks) /\ leftOf tabId c c') cs cs' ->
  let left := filter (fun c => negb (is_nil (tabIds_of c))) cs' in
  flat_map ids_of left = others tabId (flat_map ids_of cs)
  /\ Forall (fun c' => ids_of c' <> [] /\ exists c, In c cs /\ leftOf tabId c c') left
  /\ (forall qs, map priority_of cs = map Some qs -> StronglySorted Qle qs ->
                 exists qs', map priority_of left = map Some qs'
                             /\ StronglySorted Qle qs'
                             /\ forall q, In q qs' -> In q qs).
Proof.
  induction 1 as [|c c' cs cs' [(ks & Hl) Hleft] _ IH]; cbn zeta.
  - split; [reflexivity|]. split; [constructor|].
    intros [|q qs] Hq _; [|discriminate Hq]. exists [].
    split; [reflexivity|]. split; [constructor | intros q []].
  - destruct IH as (Hi & Hf & Hs). cbn [filter flat_map].
    rewrite (listing_nonempty c' ks Hl). unfold others in *. rewrite filter_app.
    fold (others tabId (ids_of c)). destruct Hleft as (Hids & Hn & Hd & Hp).
    rewrite <- Hids.
    assert (Hf' : Forall (fun c'0 => ids_of c'0 <> []
                                     /\ exists c0, In c0 (c :: cs) /\ leftOf tabId c0 c'0)
                         (filter (fun c0 => negb (is_nil (tabIds_of c0))) cs')).
    { eapply Forall_impl; [|exact Hf]. intros x (Hx & c0 & Hin & Hl0).
      split; [exact Hx|]. exists c0. split; [now right | exact Hl0]. }
    destruct (ids_of c') as [|k ks'] eqn:Ek; cbn [is_nil negb].
    + split; [exact Hi|]. split; [exact Hf'|].
      intros [|q qs] Hq Hsorted; [discriminate Hq|]. simpl in Hq.
      injection Hq as _ Hq. inversion Hsorted as [|? ? Hs' _]; subst.
      destruct (Hs qs Hq Hs') as (qs' & E & Hs'' & Hin).
      exists qs'. split; [exact E|]. split; [exact Hs''|]. intros x Hx. right. auto.
    + split; [|split].
      * cbn [flat_map]. rewrite Ek. f_equal. exact Hi.
      * constructor; [|exact Hf']. rewrite Ek. split; [discriminate|].
        exists c. split; [now left|]. unfold leftOf. rewrite Ek. repeat split; auto.
      * intros [|q qs] Hq Hsorted; [discriminate Hq|]. simpl in Hq.
        injection Hq as Hq0 Hq. inversion Hsorted as [|? ? Hs' Hall]; subst.
        destruct (Hs qs Hq Hs') as (qs' & E & Hs'' & Hin).
        exists (q :: qs'). cbn [map]. split; [|split].
        -- f_equal; [|exact E]. unfold priority_of in *. now rewrite Hp.
        -- constructor; [exact Hs''|]. apply Forall_forall. intros x Hx.
           rewrite Forall_forall in Hall. apply Hall. auto.
        -- intros x [<-|Hx]; [now left | right; auto].
Qed.

(** X8.  Closing a tab in the side bar, when the browser has closed it
    and the clusters list integer ids: the tab's summary and its id are
    gone, the clusters that keep a tab stay in their order and those left
    empty are dropped; so clusters that listed every tab once still do,
    and clusters sorted by priority stay sorted.  What a cluster says
    besides its ids is left as it was: its priority is not computed
    again. *)
Theorem closing_a_tab_keeps_the_clusters_consistent
    (tabId : Z) (this : Sidebar.t) (store : Storage.t) :
  Forall (fun c => exists ks, listing c ks) (Sidebar.clusters this) ->
  exists this' store',
    Sidebar.closeTab (Ok tt) tabId this store = (this', store')
    /\ Sidebar.tabSummaries this'
       = filter (fun tab => negb (id tab =? tabId)) (Sidebar.tabSummaries this)
    /\ flat_map ids_of (Sidebar.clusters this')
       = others tabId (flat_map ids_of (Sidebar.clusters this))
    /\ Forall (fun c' => ids_of c' <> []
                         /\ exists c, In c (Sidebar.clusters this) /\ leftOf tabId c c')
              (Sidebar.clusters this')
    /\ (Permutation (flat_map ids_of (Sidebar.clusters this))
                    (map id (Sidebar.tabSummaries this)) ->
        Permutation (flat_map ids_of (Sidebar.clusters this'))
                    (map id (Sidebar.tabSummaries this')))
    /\ (sortedByPriority (Sidebar.clusters this) ->
        sortedByPriority (Sidebar.clusters this'))
    /\ Storage.get "clusters" store' = VArr (Sidebar.clusters this').
Proof.
  intros Hl. unfold Sidebar.closeTab.
  destruct (withoutEach_listing tabId _ Hl) as (cs' & -> & H2).
  destruct (remaining_clusters tabId _ _ H2) as (Hi & Hf & Hs).
  eexists _, _. split; [reflexivity|]. cbn [Sidebar.tabSummaries Sidebar.clusters].
  split; [reflexivity|]. split; [exact Hi|]. split; [exact Hf|]. split; [|split].
  - intros Hp. rewrite Hi. unfold others.
    eapply Permutation_trans; [apply Permutation_filter, Hp|].
    rewrite filter_map_commute. apply Permutation_refl.
  - intros (qs & Hq & Hsorted). destruct (Hs qs Hq Hsorted) as (qs' & E & Hs' & _).
    now exists qs'.
  - unfold Storage.get, Storage.set.
    rewrite lookup_update_other by discriminate. now rewrite lookup_update_same.
Qed.

Lemma closing_a_sample_tab :
  Forall (fun c => exists ks, listing c ks) (Sidebar.clusters SidebarSample.state)
  /\ exists this' store',
       Sidebar.closeTab (Ok tt) 3 SidebarSample.state [] = (this', store')
       /\ flat_map ids_of (Sidebar.clusters this') = [2; 1].
Proof.
  assert (H : Forall (fun c => exists ks, listing c ks)
                     (Sidebar.clusters SidebarSample.state)).
  { repeat constructor; eexists; apply Cluster_value_listing. }
  split; [exact H|].
  destruct (closing_a_tab_keeps_the_clusters_consistent 3 SidebarSample.state [] H)
    as (this' & store' & E & _ & Hi & _).
  exists this', store'. split; [exact E|]. rewrite Hi. reflexivity.
Defined.

(** ** What validation and the fallback promise *)

Lemma candidate_throws (c : value) (e : string) :
  Backend.candidate c = Throw e -> c = VNull \/ c = VUndefined.
Proof.
  unfold Backend.candidate. destruct c; simpl; auto; try discriminate.
  destruct (JS.truthy _); simpl; discriminate.
Qed.

Lemma candidates_throw (l : list value) :
  (exists e, Backend.candidates l = Throw e)
  <-> Exists (fun c => c = VNull \/ c = VUndefined) l.
Proof.
  split.
  - induction l as [|c l IH]; simpl; intros (e & H); [discriminate H|].
    destruct (Backend.candidate c) as [o|e'] eqn:Ec; simpl in H.
    + right. apply IH. destruct (Backend.candidates l) as [r|e'']; simpl in H;
        [discriminate H | eauto].
    + left. now apply candidate_throws in Ec.
  - induction 1 as [c l [->| ->]|c l _ (e & IH)]; simpl; eauto.
    rewrite IH. destruct (Backend.candidate c); simpl; eauto.
Qed.

Section Validated.
Variable URL_hostname : string -> option string.
Variable localeCompare : string -> string -> Z.
Variable tabs : list TabAnalysis.

Lemma validate_throws (l : list value) :
  (exists e, Backend.validateAndSortClusters URL_hostname localeCompare (VArr l) tabs
             = Throw e)
  <-> Exists (fun c => c = VNull \/ c = VUndefined) l.
Proof.
  rewrite <- candidates_throw, validate_array.
  destruct (Backend.candidates l) as [cs|e]; simpl.
  - destruct (Backend.reviseAll localeCompare tabs [] cs).
    split; intros (e & H); discriminate H.
  - split; eauto.
Qed.

Lemma validate_wellFormed (l out : list value) :
  Backend.validateAndSortClusters URL_hostname localeCompare (VArr l) tabs = Ok out ->
  Forall (wellFormed tabs) out.
Proof.
  intros H. apply validate_structure in H as (revised & assigned & -> & Hok & _ & _).
  apply Forall_forall. intros c Hc. apply (proj1 (sort_In _ _ _)) in Hc.
  apply in_app_or in Hc as [Hc|Hc].
  - apply filter_In in Hc as [Hc Hne]. rewrite Forall_forall in Hok.
    destruct (Hok c Hc) as (c0 & kept0 & _ & _ & Hs & Hk).
    rewrite (shaped_tabIds_of _ _ _ Hs) in Hne.
    destruct Hs as (ps & n & -> & Hn & Ht & Hi & _).
    exists n, (sort (fun a b => Backend.compareIds localeCompare tabs a b <=? 0) kept0).
    cbn [JS.get]. rewrite Hn, Hi. repeat split; auto.
    + intros E. rewrite E in Hne. discriminate Hne.
    + apply Forall_forall. intros k Hin. apply (proj1 (sort_In _ _ _)) in Hin.
      rewrite Forall_forall in Hk. auto.
  - unfold otherCluster in Hc.
    destruct (filter _ tabs) as [|t u] eqn:E; [contradiction|].
    cbn [is_nil negb] in Hc. destruct Hc as [<-|[]].
    eexists (VStr "Other"), _. cbn [JS.get JS.lookup Cluster_value tabIds].
    repeat split.
    + intros E'. apply map_eq_nil in E'. apply sort_nil_iff in E'. discriminate E'.
    + apply Forall_forall. intros k Hk. apply in_map_iff in Hk as (x & <- & Hx).
      apply in_map. apply (proj1 (sort_In _ _ _)) in Hx. rewrite <- E in Hx.
      now apply filter_In in Hx.
Qed.
End Validated.

(** X9.  Whatever array of candidates is validated, in either copy:
    every cluster of the result has a name that counts as true and at
    least one id, and lists only ids of tabs of the batch, as integers.
    Ids that are unknown, repeated or no integers, and candidates without
    a name or without an array of ids, leave no trace. *)
Theorem validated_clusters_are_well_formed
    (URL_hostname : string -> option string) (localeCompare : string -> string -> Z)
    (tabs : list TabAnalysis) (clusters out : list value) :
  Backend.validateAndSortClusters URL_hostname localeCompare (VArr clusters) tabs = Ok out
  \/ Extension.validateAndSortClusters URL_hostname localeCompare (VArr clusters) tabs
     = Ok out ->
  Forall (wellFormed tabs) out.
Proof.
  intros [H|H].
  - now apply (validate_wellFormed URL_hostname localeCompare tabs clusters).
  - rewrite (validate_copies _ URL_hostname) in H.
    now apply (validate_wellFormed URL_hostname localeCompare tabs clusters).
Qed.

Lemma validated_sample_is_well_formed :
  exists out,
    Backend.validateAndSortClusters Platform.hostname Platform.localeCompare
      (VArr Sample.candidates) Sample.threeTabs = Ok out
    /\ Forall (wellFormed Sample.threeTabs) out.
Proof.
  eexists. split; [reflexivity|].
  apply (validated_clusters_are_well_formed Platform.hostname Platform.localeCompare
           Sample.threeTabs Sample.candidates).
  left. reflexivity.
Defined.

(** X10.  Validation of an array of candidates throws exactly when one
    of the candidates is [null] or [undefined]; every other array is
    repaired.  This holds for both copies. *)
Theorem validation_throws_on_null_candidates_only
    (URL_hostname : string -> option string) (localeCompare : string -> string -> Z)
    (tabs : list TabAnalysis) (clusters : list value) :
  ((exists e, Backend.validateAndSortClusters URL_hostname localeCompare
                (VArr clusters) tabs = Throw e)
   <-> Exists (fun c => c = VNull \/ c = VUndefined) clusters)
  /\ ((exists e, Extension.validateAndSortClusters URL_hostname localeCompare
                   (VArr clusters) tabs = Throw e)
      <-> Exists (fun c => c = VNull \/ c = VUndefined) clusters).
Proof.
  split; [apply validate_throws|].
  rewrite <- (validate_throws URL_hostname localeCompare tabs clusters).
  split; intros (e & H); exists e.
  - now rewrite <- (validate_copies URL_hostname URL_hostname).
  - now rewrite (validate_copies URL_hostname URL_hostname).
Qed.

(** ** The grouping of the fallback *)

Lemma In_adjust (f : Cluster -> Cluster) (k k' : string) (c' : Cluster)
    (m : SMap.t Cluster) :
  In (k', c') (SMap.adjust f k m)
  <-> exists c, In (k', c) m /\ c' = if String.eqb k k' then f c else c.
Proof.
  unfold SMap.adjust. rewrite in_map_iff. split.
  - intros ([k0 c0] & E & Hin). simpl in E.
    destruct (String.eqb k k0) eqn:Ek; injection E as <- <-;
      exists c0; rewrite Ek; auto.
  - intros (c & Hin & ->). exists (k', c). split; [|exact Hin]. simpl.
    now destruct (String.eqb k k').
Qed.

Lemma NoDup_keys_eq (m : SMap.t Cluster) (k : string) (c c' : Cluster) :
  NoDup (map fst m) -> In (k, c) m -> In (k, c') m -> c = c'.
Proof.
  intros Hnd H H'.
  assert (E : (k, c) = (k, c')) by now apply (NoDup_map_eq fst m).
  now injection E.
Qed.

(** Filing one more tab. *)
Lemma filed_enter (key : TabAnalysis -> string) (m : SMap.t Cluster)
    (done : list TabAnalysis) (tab : TabAnalysis) (fresh : Cluster) :
  name fresh = Str.capitalize (key tab) -> tabIds fresh = [] ->
  filed key m done ->
  filed key
    (SMap.adjust (push (id tab)) (key tab)
       (if SMap.has (key tab) m then m else SMap.add (key tab) fresh m))
    (tab :: done).
Proof.
  intros Hname Hids (Hnd & Hc & Ht).
  set (k := key tab). set (m0 := if SMap.has k m then m else SMap.add k fresh m).
  assert (Hnd0 : NoDup (map fst m0)).
  { subst m0. destruct (SMap.has k m) eqn:E; [exact Hnd|].
    rewrite add_keys. apply NoDup_app; [exact Hnd | repeat constructor; auto |].
    intros a Ha [<-|[]]. apply has_In in Ha. congruence. }
  assert (Hin0 : forall k' c, In (k', c) m0 ->
                              In (k', c) m \/ (k' = k /\ c = fresh)).
  { subst m0. intros k' c H. destruct (SMap.has k m); [now left|].
    unfold SMap.add in H. apply in_app_or in H as [H|[H|[]]]; [now left|].
    injection H as <- <-. now right. }
  assert (Hsub : forall k' c, In (k', c) m -> In (k', c) m0).
  { subst m0. intros k' c H. destruct (SMap.has k m); [exact H|].
    unfold SMap.add. apply in_or_app. now left. }
  assert (Hk : exists c, In (k, c) m0).
  { subst m0. destruct (SMap.has k m) eqn:E.
    - apply has_In in E. apply in_map_iff in E as ([k' c] & E & Hin).
      simpl in E. subst. eauto.
    - exists fresh. unfold SMap.add. apply in_or_app. right. now left. }
  assert (Hc0 : forall k' c, In (k', c) m0 ->
                             name c = Str.capitalize k'
                             /\ forall i, In i (tabIds c) ->
                                          exists t, In t done /\ id t = i /\ key t = k').
  { intros k' c H. apply Hin0 in H as [H|[-> ->]]; [now apply Hc|].
    split; [exact Hname|]. rewrite Hids. intros i []. }
  split; [|split].
  - now rewrite adjust_keys.
  - intros k' c' H. apply In_adjust in H as (c & Hin & ->).
    destruct (Hc0 k' c Hin) as [Hn Hi].
    destruct (String.eqb_spec k k') as [<-|Hne].
    + split; [exact Hn|]. cbn [push tabIds]. intros i Hi'.
      apply in_app_or in Hi' as [Hi'|[<-|[]]].
      * destruct (Hi i Hi') as (t & Hin' & E & E'). exists t. auto using in_cons.
      * exists tab. repeat split. now left.
    + split; [exact Hn|]. intros i Hi'.
      destruct (Hi i Hi') as (t & Hin' & E & E'). exists t. auto using in_cons.
  - intros t [<-|Hin].
    + destruct Hk as (c & Hin). exists (push (id tab) c). split.
      * apply In_adjust. exists c. split; [exact Hin|].
        fold k. now rewrite String.eqb_refl.
      * cbn [push tabIds]. apply in_or_app. right. now left.
    + destruct (Ht t Hin) as (c & Hin' & Hi).
      exists (if String.eqb k (key t) then push (id tab) c else c). split.
      * apply In_adjust. exists c. split; [now apply Hsub | reflexivity].
      * destruct (String.eqb k (key t)); [|exact Hi].
        cbn [push tabIds]. apply in_or_app. now left.
Qed.

Section Grouping.
Variable URL_hostname : string -> option string.

Lemma Backend_place_filed (m : SMap.t Cluster) (done : list TabAnalysis)
    (tab : TabAnalysis) :
  filed (siteKey URL_hostname) m done ->
  filed (siteKey URL_hostname) (Backend.place URL_hostname m tab) (tab :: done).
Proof.
  intros H. unfold Backend.place.
  destruct (URL_hostname (url tab)) as [hostname|] eqn:E; cbn zeta.
  - assert (Hk : siteKey URL_hostname tab
                 = if Str.is_empty (Str.split_head "." (Str.replace "www." EmptyString hostname))
                   then "unknown"
                   else Str.split_head "." (Str.replace "www." EmptyString hostname)).
    { unfold siteKey. now rewrite E. }
    rewrite <- Hk. now apply filed_enter.
  - assert (Hk : siteKey URL_hostname tab = "other").
    { unfold siteKey. now rewrite E. }
    rewrite <- Hk. apply filed_enter; [now rewrite Hk | reflexivity | exact H].
Qed.

Lemma Backend_fold_filed (tabs : list TabAnalysis) : forall m done,
  filed (siteKey URL_hostname) m done ->
  filed (siteKey URL_hostname) (fold_left (Backend.place URL_hostname) tabs m)
        (rev tabs ++ done).
Proof.
  induction tabs as [|t tabs IH]; intros m done H; [exact H|].
  cbn [fold_left rev]. rewrite <- app_assoc. apply IH. now apply Backend_place_filed.
Qed.

(** The clusters of the fallback come from the entries of the map. *)
Lemma Backend_fallback_origin (tabs : list TabAnalysis) (c : value) :
  In c (Backend.fallbackClustering URL_hostname tabs)
  <-> exists k cl,
        In (k, cl) (fold_left (Backend.place URL_hostname) tabs [])
        /\ tabIds cl <> []
        /\ c = Cluster_value (Backend.settle tabs cl).
Proof.
  unfold Backend.fallbackClustering. rewrite in_map_iff. split.
  - intros (x & <- & Hx). apply (proj1 (sort_In _ _ _)) in Hx.
    apply in_map_iff in Hx as (cl & <- & Hcl). apply filter_In in Hcl as [Hcl Hne].
    unfold SMap.values in Hcl. apply in_map_iff in Hcl as ([k cl'] & E & Hin).
    simpl in E. subst. exists k, cl. repeat split; auto.
    intros E. rewrite E in Hne. discriminate Hne.
  - intros (k & cl & Hin & Hne & ->). exists (Backend.settle tabs cl).
    split; [reflexivity|]. apply sort_In. apply in_map. apply filter_In. split.
    + unfold SMap.values. apply in_map_iff. now exists (k, cl).
    + now destruct (tabIds cl).
Qed.
End Grouping.

(** X11.  The backend's fallback groups the tabs by site.  Every
    cluster is named after the key of a site (the first label of the host
    name without its first [www.], with its first letter raised) and lists
    only tabs of that site, at least one; and two tabs of the same site
    are in one cluster.  The tabs whose URL does not parse count as the
    site [other]. *)
Theorem fallback_groups_tabs_by_site
    (URL_hostname : string -> option string) (tabs : list TabAnalysis) :
  (forall c, In c (Backend.fallbackClustering URL_hostname tabs) ->
             exists key,
               JS.get c "name" = Ok (VStr (Str.capitalize key))
               /\ ids_of c <> []
               /\ forall k, In k (ids_of c) ->
                            exists tab, In tab tabs /\ id tab = k
                                        /\ siteKey URL_hostname tab = key)
  /\ (forall a b,
        In a tabs -> In b tabs -> siteKey URL_hostname a = siteKey URL_hostname b ->
        exists c, In c (Backend.fallbackClustering URL_hostname tabs)
                  /\ In (id a) (ids_of c) /\ In (id b) (ids_of c)).
Proof.
  assert (Hf : filed (siteKey URL_hostname)
                     (fold_left (Backend.place URL_hostname) tabs []) (rev tabs ++ [])).
  { apply Backend_fold_filed. split; [constructor|]. split; [intros k c []|intros t []]. }
  rewrite app_nil_r in Hf. destruct Hf as (Hnd & Hc & Ht).
  split.
  - intros c Hin. apply Backend_fallback_origin in Hin as (k & cl & Hin & Hne & ->).
    destruct (Hc k cl Hin) as [Hn Hi]. exists k.
    rewrite ids_of_Cluster_value. cbn [JS.get Cluster_value JS.lookup String.eqb].
    unfold Backend.settle. cbn [name tabIds]. rewrite Hn. split; [reflexivity|]. split.
    + intros E. apply sort_nil_iff in E. contradiction.
    + intros i Hin'. apply (proj1 (sort_In _ _ _)) in Hin'.
      destruct (Hi i Hin') as (t & Hin'' & E & E'). exists t.
      rewrite <- in_rev in Hin''. auto.
  - intros a b Ha Hb E.
    destruct (Ht a) as (ca & Hina & Hia); [now rewrite <- in_rev|].
    destruct (Ht b) as (cb & Hinb & Hib); [now rewrite <- in_rev|].
    rewrite <- E in Hinb.
    assert (cb = ca) by exact (NoDup_keys_eq _ _ _ _ Hnd Hinb Hina).
    subst cb. exists (Cluster_value (Backend.settle tabs ca)). split.
    + apply Backend_fallback_origin. exists (siteKey URL_hostname a), ca.
      repeat split; auto. intros E'. rewrite E' in Hia. contradiction.
    + rewrite ids_of_Cluster_value. unfold Backend.settle. cbn [tabIds].
      split; now apply sort_In.
Qed.

(** ** The handlers of the backend *)



Lemma split_on_without (sep : ascii) (s : string) :
  without sep s -> split_on sep s = [s].
Proof.
  unfold without, chars. induction s as [|c s IH]; simpl; intros H; [reflexivity|].
  destruct (Ascii.eqb_spec c sep) as [->|Hc].
  - exfalso. apply H. now left.
  - rewrite IH; [reflexivity|]. intros Hin. apply H. now right.
Qed.

Lemma split_on_before (sep : ascii) (s t : string) :
  without sep s -> split_on sep (s ++ String sep t) = s :: split_on sep t.
Proof.
  unfold without, chars. induction s as [|c s IH]; simpl; intros H.
  - now rewrite Ascii.eqb_refl.
  - destruct (Ascii.eqb_spec c sep) as [->|Hc].
    + exfalso. apply H. now left.
    + rewrite IH; [reflexivity|]. intros Hin. apply H. now right.
Qed.

Lemma split_on_head (sep : ascii) (s : string) :
  exists rest, split_on sep s = Str.split_head sep s :: rest.
Proof.
  induction s as [|c s (rest & IH)]; simpl; [now exists []|].
  destruct (Ascii.eqb c sep); [eauto|]. rewrite IH. eauto.
Qed.

Lemma split_head_without (sep : ascii) (s : string) : without sep (Str.split_head sep s).
Proof.
  unfold without, chars. induction s as [|c s IH]; simpl; [auto|].
  destruct (Ascii.eqb_spec c sep) as [->|Hc]; simpl; [auto|].
  intros [E|H]; [congruence | contradiction].
Qed.

Lemma prefix_empty (t : string) : prefix EmptyString t = true.
Proof. now destruct t. Qed.

Lemma includes_after (c : ascii) (s t : string) :
  Str.includes (String c EmptyString) (s ++ String c t) = true.
Proof.
  induction s as [|d s IH]; simpl.
  - destruct (Ascii.ascii_dec c c); [now rewrite prefix_empty | contradiction].
  - destruct (Ascii.ascii_dec c d); [now rewrite prefix_empty | exact IH].
Qed.

Lemma includes_without (c : ascii) (s : string) :
  without c s -> Str.includes (String c EmptyString) s = false.
Proof.
  unfold without, chars. induction s as [|d s IH]; intros H; [reflexivity|].
  cbn [Str.includes prefix]. destruct (Ascii.ascii_dec c d) as [<-|Hc].
  - exfalso. apply H. now left.
  - apply IH. intros Hin. apply H. now right.
Qed.

Lemma split_on_spaceless (s : string) : spaceless s -> split_on " " s = [s].
Proof. apply split_on_without. Qed.

Lemma split_on_first (s t : string) :
  spaceless s -> split_on " " (s ++ String " " t) = s :: split_on " " t.
Proof. apply split_on_before. Qed.

(** X14.  The authentication middleware passes a request on exactly
    with what the verifier makes of the second word of the
    [Authorization] header: for a header of two words, the first word
    being of any kind, the request goes on with the verified user or is
    refused with 403 as the verifier decides about the second; a request
    without the header, or with a header of one word, is refused with
    401 and the verifier is not asked. *)
Theorem authentication_reads_the_second_word
    (verify : string -> result value) (scheme token : string) :
  spaceless scheme -> spaceless token -> token <> EmptyString ->
  Server.authenticateToken verify (Some (scheme ++ " " ++ token))
  = match verify token with
    | Ok user => Server.Next user
    | Throw _ =>
        Server.Refused {| Http.status := 403;
                          Http.json := error_json "Invalid or expired token" |}
    end
  /\ Server.authenticateToken verify (Some token)
     = Server.Refused {| Http.status := 401;
                         Http.json := error_json "Access token required" |}
  /\ Server.authenticateToken verify None
     = Server.Refused {| Http.status := 401;
                         Http.json := error_json "Access token required" |}.
Proof.
  intros Hs Ht Hne. unfold Server.authenticateToken. split; [|split; [|reflexivity]].
  - change (scheme ++ " " ++ token)%string with (scheme ++ String " " token)%string.
    rewrite (split_on_first _ _ Hs), (split_on_spaceless _ Ht). cbn [nth_error].
    destruct (scheme ++ String " " token)%string eqn:E.
    + destruct scheme; discriminate E.
    + cbn [Str.is_empty]. now destruct token.
  - rewrite (split_on_spaceless _ Ht). destruct token; [contradiction|].
    reflexivity.
Qed.

Lemma authentication_of_a_bearer_token :
  spaceless "Bearer" /\ spaceless "abc.def" /\ "abc.def" <> EmptyString
  /\ Server.authenticateToken
       (fun token => if String.eqb token "abc.def" then Ok (VObj [("userId", VInt 7)])
                     else Throw "jwt malformed")
       (Some "Bearer abc.def")
     = Server.Next (VObj [("userId", VInt 7)]).
Proof.
  assert (Hs : spaceless "Bearer")
    by (unfold spaceless, without; simpl; intuition discriminate).
  assert (Ht : spaceless "abc.def")
    by (unfold spaceless, without; simpl; intuition discriminate).
  assert (Hne : "abc.def" <> EmptyString) by discriminate.
  split; [exact Hs|]. split; [exact Ht|]. split; [exact Hne|].
  exact (proj1 (authentication_reads_the_second_word
                  (fun token => if String.eqb token "abc.def"
                                then Ok (VObj [("userId", VInt 7)])
                                else Throw "jwt malformed")
                  "Bearer" "abc.def" Hs Ht Hne)).
Defined.

Section StripeFacts.
Variable STRIPE_PRICE_PRO : option string.
Variable STRIPE_PRICE_BUSINESS : option string.
Variable retrieve : string -> result Stripe.Customer.t.
Variable getUserByEmail : string -> result (option User.t).

Lemma update_inv (subscription : Stripe.Subscription.t) (userId : Z)
    (u : Stripe.Updates.t) :
  Stripe.handleSubscriptionUpdate STRIPE_PRICE_PRO STRIPE_PRICE_BUSINESS retrieve
    getUserByEmail subscription = Some (userId, u) ->
  exists customer user,
    retrieve (Stripe.Subscription.customer subscription) = Ok customer
    /\ getUserByEmail (Stripe.Customer.email customer) = Ok (Some user)
    /\ userId = User.id user
    /\ Stripe.Updates.stripeCustomerId u = Some (Stripe.Customer.id customer)
    /\ Stripe.Updates.subscriptionStatus u = Stripe.Subscription.status subscription
    /\ (Stripe.Updates.plan u, Stripe.Updates.usageLimit u)
       = if String.eqb (Stripe.Subscription.priceId subscription)
                       (Stripe.Tier.priceId (Stripe.pro STRIPE_PRICE_PRO))
         then ("pro", 1000)
         else if String.eqb (Stripe.Subscription.priceId subscription)
                            (Stripe.Tier.priceId (Stripe.business STRIPE_PRICE_BUSINESS))
              then ("business", -1)
              else ("free", 25).
Proof.
  unfold Stripe.handleSubscriptionUpdate.
  destruct (retrieve _) as [customer|] eqn:Er; cbn [bind try_catch]; [|discriminate].
  destruct (getUserByEmail _) as [[user|]|] eqn:Eu; cbn [bind try_catch];
    try discriminate.
  intros H. exists customer, user. split; [reflexivity|]. split; [exact Eu|].
  destruct (String.eqb _ (Stripe.Tier.priceId (Stripe.pro _)));
    [|destruct (String.eqb _ (Stripe.Tier.priceId (Stripe.business _)))];
    injection H as <- <-; repeat split.
Qed.
End StripeFacts.

(** X15.  A subscription event that leads to an update of a user keeps
    plan and limit in step: the update sets [pro] with 1000, [business]
    with -1 or [free] with 25, and a plan other than [free] exactly when
    [isValidPriceId] accepts the price of the subscription.  It goes to
    the user who has the customer's email address and records the
    customer's id.  The cancellation of the same subscription sets the
    same user back to [free] with 25. *)
Theorem subscription_events_keep_plan_and_limit_in_step
    (STRIPE_PRICE_PRO STRIPE_PRICE_BUSINESS : option string)
    (retrieve : string -> result Stripe.Customer.t)
    (getUserByEmail : string -> result (option User.t))
    (subscription : Stripe.Subscription.t) (userId : Z) (u : Stripe.Updates.t) :
  Stripe.handleSubscriptionUpdate STRIPE_PRICE_PRO STRIPE_PRICE_BUSINESS retrieve
    getUserByEmail subscription = Some (userId, u) ->
  (exists customer user,
      retrieve (Stripe.Subscription.customer subscription) = Ok customer
      /\ getUserByEmail (Stripe.Customer.email customer) = Ok (Some user)
      /\ userId = User.id user
      /\ Stripe.Updates.stripeCustomerId u = Some (Stripe.Customer.id customer))
  /\ ((Stripe.Updates.plan u = "pro" /\ Stripe.Updates.usageLimit u = 1000)
      \/ (Stripe.Updates.plan u = "business" /\ Stripe.Updates.usageLimit u = -1)
      \/ (Stripe.Updates.plan u = "free" /\ Stripe.Updates.usageLimit u = 25))
  /\ (Stripe.isValidPriceId STRIPE_PRICE_PRO STRIPE_PRICE_BUSINESS
        (Stripe.Subscription.priceId subscription) = true
      <-> Stripe.Updates.plan u <> "free")
  /\ exists u',
       Stripe.handleSubscriptionCanceled retrieve getUserByEmail subscription
       = Some (userId, u')
       /\ Stripe.Updates.plan u' = "free" /\ Stripe.Updates.usageLimit u' = 25
       /\ Stripe.Updates.subscriptionStatus u' = "canceled".
Proof.
  intros H. apply update_inv in H
    as (customer & user & Er & Eu & -> & Hc & _ & Hp).
  split; [now exists customer, user|].
  unfold Stripe.isValidPriceId, Stripe.priceTiers. cbn [existsb].
  rewrite (String.eqb_sym (Stripe.Tier.priceId (Stripe.pro _))).
  rewrite (String.eqb_sym (Stripe.Tier.priceId (Stripe.business _))).
  split; [|split].
  - destruct (String.eqb _ (Stripe.Tier.priceId (Stripe.pro _)));
      [|destruct (String.eqb _ (Stripe.Tier.priceId (Stripe.business _)))];
      injection Hp as Hp1 Hp2; tauto.
  - destruct (String.eqb _ (Stripe.Tier.priceId (Stripe.pro _)));
      [|destruct (String.eqb _ (Stripe.Tier.priceId (Stripe.business _)))];
      injection Hp as Hp1 Hp2; rewrite Hp1; cbn [orb]; split; intros Hx;
      try discriminate; try reflexivity.
    now contradiction Hx.
  - unfold Stripe.handleSubscriptionCanceled. rewrite Er. cbn [bind]. rewrite Eu.
    cbn [bind try_catch]. eexists. repeat split.
Qed.

Lemma subscription_event_of_a_business_plan :
  exists u,
    Stripe.handleSubscriptionUpdate None None ServerSample.retrieve
      ServerSample.getUserByEmail ServerSample.event = Some (7, u)
    /\ (Stripe.isValidPriceId None None
          (Stripe.Subscription.priceId ServerSample.event) = true
        <-> Stripe.Updates.plan u <> "free").
Proof.
  eexists. split; [reflexivity|].
  exact (proj1 (proj2 (proj2 (subscription_events_keep_plan_and_limit_in_step
                                None None ServerSample.retrieve
                                ServerSample.getUserByEmail ServerSample.event
                                7 _ eq_refl)))).
Defined.



(** X20.  What [/health] shows of the database URL.  When the URL has
    an at sign, the answer shows the text between the first at sign and
    the next colon or at sign, and nothing else of the URL: so for a URL
    of the form [user:password@host:port] it shows the host, but when the
    password has an at sign of its own it shows the part of the password
    after that sign.  Without an at sign it shows [unknown]. *)
Theorem health_shows_what_follows_the_first_at_sign
    (DATABASE_URL : option string) (before rest : string) :
  without "@" before ->
  Api.db_hostname (Some (before ++ "@" ++ rest)) DATABASE_URL
  = Some (Str.split_head ":" (Str.split_head "@" rest))
  /\ without ":" (Str.split_head ":" (Str.split_head "@" rest))
  /\ (forall url, without "@" url ->
                  Api.db_hostname (Some url) None = Some "unknown").
Proof.
  intros Hb. split; [|split].
  - unfold Api.db_hostname.
    change (before ++ "@" ++ rest)%string with (before ++ String "@" rest)%string.
    assert (E : env_or (Some (before ++ String "@" rest)%string)
                       (env_or DATABASE_URL "not set")
                = (before ++ String "@" rest)%string).
    { unfold env_or at 1. now destruct before. }
    rewrite E, includes_after, split_on_before by exact Hb.
    destruct (split_on_head "@" rest) as (l & ->). reflexivity.
  - apply split_head_without.
  - intros url Hu. unfold Api.db_hostname.
    destruct url as [|c url]; [reflexivity|].
    cbn [env_or Str.is_empty]. now rewrite (includes_without "@" _ Hu).
Qed.

Lemma health_of_a_password_with_an_at_sign :
  without "@" "postgres://ada:p"
  /\ Api.db_hostname (Some "postgres://ada:p@ss@db.example.com:5432/tabs") None
     = Some "ss".
Proof.
  assert (H : without "@" "postgres://ada:p").
  { unfold without. simpl. intuition discriminate. }
  split; [exact H|].
  exact (proj1 (health_shows_what_follows_the_first_at_sign None "postgres://ada:p"
                  "ss@db.example.com:5432/tabs" H)).
Defined.

(** ** The client of the backend *)

Lemma lookup_remove (k : string) (ks : list string) (store : Storage.t) :
  JS.lookup k (Storage.remove ks store)
  = if existsb (String.eqb k) ks then None else JS.lookup k store.
Proof.
  unfold Storage.remove. induction store as [|[k' v] store IH]; simpl.
  - now destruct (existsb _ ks).
  - destruct (existsb (String.eqb k') ks) eqn:E'; simpl.
    + rewrite IH. destruct (String.eqb_spec k k') as [->|Hne]; [now rewrite E'|].
      reflexivity.
    + destruct (String.eqb_spec k k') as [->|Hne]; [now rewrite E'|]. exact IH.
Qed.

(** A request made with a token at hand carries it. *)
Lemma makeRequest_authorised (fetch : Request.t -> fetched)
    (JSON_stringify toString : value -> string) (endpoint : string)
    (options : Options.t) (s : BackendAPI.session) (t : value) :
  BackendAPI.getAuthToken s = (t, s) -> JS.truthy t = true ->
  exists r s' request,
    BackendAPI.makeRequest fetch JSON_stringify toString endpoint options s
    = (r, s', [request])
    /\ In ("Authorization", "Bearer " ++ toString t)%string (Request.headers request).
Proof.
  intros Hg Ht. unfold BackendAPI.makeRequest. rewrite Hg, Ht.
  destruct (fetch _) as [m|status json].
  - eexists _, _, _. split; [reflexivity|]. right. now left.
  - destruct (status =? 401); [|destruct (negb _)];
      eexists _, _, _; (split; [reflexivity|]); right; now left.
Qed.

Section ClientFacts.
Variable fetch : Request.t -> fetched.
Variable JSON_stringify : value -> string.
Variable toString : value -> string.

Lemma signIn_spec (endpoint email password : string) (s : BackendAPI.session)
    (answer t : value) :
  (forall request, fetch request = Response 200 (Ok answer)) ->
  JS.get answer "token" = Ok t -> JS.truthy t = true ->
  opened JSON_stringify toString email password endpoint answer t
         (BackendAPI.signIn fetch JSON_stringify toString endpoint email password s).
Proof.
  intros Hf Ht Htruthy. unfold BackendAPI.signIn, BackendAPI.makeRequest.
  destruct (BackendAPI.getAuthToken s) as [t0 s0]. rewrite Hf.
  cbn [Z.eqb Z.leb Z.compare Pos.compare Pos.compare_cont negb andb Pos.eqb].
  cbn [bind]. rewrite Ht. cbn [bind].
  destruct (get_total answer t "token" "user" Ht) as (user & Hu). rewrite Hu.
  eexists _, _, user. split; [reflexivity|].
  cbn [Request.url Request.method Request.body Options.method Options.body option_map].
  assert (Hg : forall st,
             BackendAPI.getAuthToken {| BackendAPI.token := t; BackendAPI.store := st |}
             = (t, {| BackendAPI.token := t; BackendAPI.store := st |})).
  { intros st. unfold BackendAPI.getAuthToken. cbn [BackendAPI.token].
    now rewrite Htruthy. }
  split; [reflexivity|]. split; [reflexivity|]. split; [reflexivity|].
  split; [apply Hg|]. split; [|split; [exact Hu|split]].
  - unfold BackendAPI.setAuthToken, Storage.get, Storage.set. cbn [BackendAPI.store].
    rewrite lookup_update_other by discriminate. now rewrite lookup_update_same.
  - unfold BackendAPI.getCachedProfile, Storage.get, Storage.set. cbn [BackendAPI.store].
    now rewrite lookup_update_same.
  - intros fetch' endpoint' options.
    apply makeRequest_authorised; [apply Hg | exact Htruthy].
Qed.
End ClientFacts.

(** X17.  When the server answers a request of the client with 401,
    the request fails with "Authentication required" and the session is
    closed: the token is forgotten and neither token nor profile is left
    in the storage, while everything else that is stored stays.
    [isAuthenticated] then says no without a request to the server. *)
Theorem an_unauthorised_answer_closes_the_session
    (fetch : Request.t -> fetched) (JSON_stringify toString : value -> string)
    (endpoint : string) (options : Options.t) (s : BackendAPI.session) :
  answers fetch 401 ->
  exists s' request,
    BackendAPI.makeRequest fetch JSON_stringify toString endpoint options s
    = (Throw "Authentication required", s', [request])
    /\ BackendAPI.token s' = VNull
    /\ Storage.get "authToken" (BackendAPI.store s') = VUndefined
    /\ BackendAPI.getCachedProfile s' = VUndefined
    /\ (forall k, k <> "authToken" -> k <> "userProfile" ->
                  Storage.get k (BackendAPI.store s') = Storage.get k (BackendAPI.store s))
    /\ forall fetch',
         exists s'',
           BackendAPI.isAuthenticated fetch' JSON_stringify toString s' = (false, s'', []).
Proof.
  intros Hf. unfold BackendAPI.makeRequest.
  destruct (BackendAPI.getAuthToken s) as [t s0] eqn:Eg.
  assert (Hs : BackendAPI.store s0 = BackendAPI.store s).
  { unfold BackendAPI.getAuthToken in Eg.
    destruct (negb _); injection Eg as _ <-; reflexivity. }
  match goal with |- context [fetch ?r] => destruct (Hf r) as (json & ->) end.
  cbn [Z.eqb Pos.eqb]. eexists _, _. split; [reflexivity|].
  unfold BackendAPI.clearAuth, BackendAPI.getCachedProfile, Storage.get.
  cbn [BackendAPI.token BackendAPI.store]. rewrite Hs.
  split; [reflexivity|]. split; [now rewrite lookup_remove|].
  split; [now rewrite lookup_remove|]. split.
  - intros k H1 H2. rewrite lookup_remove. cbn [existsb].
    destruct (String.eqb_spec k "authToken"); [contradiction|].
    destruct (String.eqb_spec k "userProfile"); [contradiction|]. reflexivity.
  - intros fetch'. unfold BackendAPI.isAuthenticated, BackendAPI.getAuthToken.
    cbn [BackendAPI.token BackendAPI.store JS.truthy negb].
    unfold Storage.get. rewrite lookup_remove. cbn [existsb String.eqb Ascii.eqb
      Bool.eqb orb JS.truthy negb]. eexists. reflexivity.
Qed.

Lemma a_session_closed_by_401 :
  answers (fun _ => Response 401 (Throw "no body")) 401
  /\ exists s' request,
       BackendAPI.makeRequest (fun _ => Response 401 (Throw "no body"))
         (fun _ => "{}") ClientSample.toString "/auth/profile" Options.none
         ClientSample.session
       = (Throw "Authentication required", s', [request])
       /\ Storage.get "authToken" (BackendAPI.store s') = VUndefined
       /\ Storage.get "clusters" (BackendAPI.store s') = VArr [].
Proof.
  assert (H : answers (fun _ => Response 401 (Throw "no body")) 401).
  { intros request. eexists. reflexivity. }
  split; [exact H|].
  destruct (an_unauthorised_answer_closes_the_session
              (fun _ => Response 401 (Throw "no body")) (fun _ => "{}")
              ClientSample.toString "/auth/profile" Options.none ClientSample.session H)
    as (s' & request & E & _ & Ha & _ & Hk & _).
  exists s', request. split; [exact E|]. split; [exact Ha|].
  rewrite Hk by discriminate. reflexivity.
Defined.

(** X18.  When the server answers the sign-in request with 200 and a
    body whose [token] counts as true, [login] and [register] succeed
    with one POST of the email address and the password to their
    endpoint; afterwards the token of the answer is the token of the
    session and of the storage, the [user] of the answer is the cached
    profile, and every later request carries the token in its
    [Authorization] header. *)
Theorem signing_in_opens_a_session
    (fetch : Request.t -> fetched) (JSON_stringify toString : value -> string)
    (email password : string) (s : BackendAPI.session) (answer t : value) :
  (forall request, fetch request = Response 200 (Ok answer)) ->
  JS.get answer "token" = Ok t -> JS.truthy t = true ->
  opened JSON_stringify toString email password "/auth/login" answer t
         (BackendAPI.login fetch JSON_stringify toString email password s)
  /\ opened JSON_stringify toString email password "/auth/register" answer t
            (BackendAPI.register fetch JSON_stringify toString email password s).
Proof.
  intros Hf Ht Htruthy. split; now apply signIn_spec.
Qed.

Lemma a_session_opened_by_login :
  JS.get ClientSample.signedIn "token" = Ok (VStr "t1")
  /\ opened (fun _ => "{}") ClientSample.toString "ada@example.com" "secret"
            "/auth/login" ClientSample.signedIn (VStr "t1")
            (BackendAPI.login (fun _ => Response 200 (Ok ClientSample.signedIn))
               (fun _ => "{}") ClientSample.toString "ada@example.com" "secret"
               ClientSample.session).
Proof.
  split; [reflexivity|].
  exact (proj1 (signing_in_opens_a_session
                  (fun _ => Response 200 (Ok ClientSample.signedIn)) (fun _ => "{}")
                  ClientSample.toString "ada@example.com" "secret" ClientSample.session
                  ClientSample.signedIn (VStr "t1") (fun _ => eq_refl) eq_refl eq_refl)).
Defined.

(** ** From the server to the popup *)

(** What the client makes of a response that carries an error text. *)
Lemma makeRequest_refused (JSON_stringify toString : value -> string)
    (endpoint : string) (options : Options.t) (s : BackendAPI.session)
    (response : Http.response) (message : string) :
  textual toString ->
  Http.status response <> 401 ->
  Http.status response < 200 \/ 299 < Http.status response ->
  JS.get (Http.json response) "error" = Ok (VStr message) ->
  message <> EmptyString ->
  exists request,
    BackendAPI.makeRequest (delivered response) JSON_stringify toString endpoint options s
    = (Throw message, snd (BackendAPI.getAuthToken s), [request]).
Proof.
  intros Ht H401 Hok He Hne. unfold BackendAPI.makeRequest, delivered.
  destruct (BackendAPI.getAuthToken s) as [t s0]. cbn [snd].
  destruct (Z.eqb_spec (Http.status response) 401) as [|_]; [contradiction|].
  assert (E : negb ((200 <=? Http.status response) && (Http.status response <=? 299))
              = true).
  { apply negb_true_iff, andb_false_iff.
    destruct Hok; [left; now apply Z.leb_gt | right; now apply Z.leb_gt]. }
  rewrite E. cbn [try_catch]. rewrite He. cbn [bind JS.truthy].
  destruct message; [contradiction|]. cbn [Str.is_empty negb]. rewrite Ht.
  eexists. reflexivity.
Qed.



(** ** Which cluster keeps an id *)

Lemma proper_candidate (c : value) :
  proper c <-> exists ids, Backend.candidate c = Ok (Some (c, ids)).
Proof.
  unfold proper, Backend.candidate. split.
  - intros (n & ids & Hn & Ht & Hi). rewrite Hn, Hi. cbn. rewrite Ht. now exists ids.
  - intros (ids & H). destruct (JS.get c "name") as [n|]; cbn in H; [|discriminate].
    destruct (JS.truthy n) eqn:Ht; [|discriminate].
    destruct (JS.get c "tabIds") as [t|]; cbn in H; [|discriminate].
    destruct t; try discriminate. injection H as ->. now exists n, ids.
Qed.

Lemma candidate_ids (c c' : value) (ids : list value) :
  Backend.candidate c = Ok (Some (c', ids)) -> c' = c /\ tabIds_of c = ids.
Proof.
  intros H. apply candidate_inv in H as (-> & ps & n & -> & _ & _ & Hi).
  split; [reflexivity|]. unfold tabIds_of. cbn. now rewrite Hi.
Qed.

Lemma candidates_app (l1 l2 : list value) : forall cs,
  Backend.candidates (l1 ++ l2) = Ok cs ->
  exists cs1 cs2,
    Backend.candidates l1 = Ok cs1 /\ Backend.candidates l2 = Ok cs2
    /\ cs = (cs1 ++ cs2)%list.
Proof.
  induction l1 as [|c l1 IH]; intros cs H.
  - exists [], cs. now repeat split.
  - cbn [app Backend.candidates] in *.
    destruct (Backend.candidate c) as [o|]; cbn in *; [|discriminate].
    destruct (Backend.candidates (l1 ++ l2)) as [r|] eqn:E; cbn in H; [|discriminate].
    injection H as <-. destruct (IH r eq_refl) as (cs1 & cs2 & -> & H2 & ->).
    cbn. destruct o as [x|]; eexists _, cs2; (split; [reflexivity | split; [exact H2|]]);
      reflexivity.
Qed.

(** The candidates of a list come with the ids they list. *)
Lemma candidates_ids (l : list value) : forall cs x,
  Backend.candidates l = Ok cs -> In x cs ->
  In (fst x) l /\ proper (fst x) /\ snd x = tabIds_of (fst x).
Proof.
  induction l as [|c l IH]; cbn [Backend.candidates]; intros cs x H Hin.
  - injection H as <-. contradiction.
  - destruct (Backend.candidate c) as [o|] eqn:Ec; cbn in H; [|discriminate].
    destruct (Backend.candidates l) as [r|]; cbn in H; [|discriminate].
    injection H as <-.
    assert (Hr : In x r -> In (fst x) (c :: l) /\ proper (fst x)
                           /\ snd x = tabIds_of (fst x)).
    { intros Hx. destruct (IH r x eq_refl Hx) as (H1 & H2). split; [now right | exact H2]. }
    destruct o as [[c' ids]|]; [|now apply Hr].
    destruct Hin as [<-|Hin]; [|now apply Hr].
    destruct (candidate_ids _ _ _ Ec) as [-> <-]. cbn [fst snd].
    split; [now left|]. split; [|reflexivity].
    apply proper_candidate. now exists (tabIds_of c).
Qed.

Section FirstClaim.
Variable localeCompare : string -> string -> Z.
Variable tabs : list TabAnalysis.

(** An id that is kept is the key of a listed value. *)
Lemma claim_from (ids : list value) : forall assigned k,
  In k (fst (Backend.claim tabs assigned ids)) ->
  exists v, In v ids /\ key_of v = Some k.
Proof.
  induction ids as [|v ids IH]; cbn [Backend.claim]; intros assigned k H; [contradiction|].
  assert (Hrest : forall a, In k (fst (Backend.claim tabs a ids)) ->
                            exists v0, In v0 (v :: ids) /\ key_of v0 = Some k).
  { intros a Ha. destruct (IH a k Ha) as (v0 & H0 & E). exists v0. split; [now right | exact E]. }
  destruct (key_of v) as [k0|] eqn:Ek; [|now apply (Hrest assigned)].
  destruct (has (tabMap tabs) k0 && negb (mem k0 assigned)); [|now apply (Hrest assigned)].
  destruct (Backend.claim tabs (k0 :: assigned) ids) as [kept a'] eqn:E.
  cbn [fst] in H. destruct H as [<-|H].
  - exists v. split; [now left | exact Ek].
  - apply (Hrest (k0 :: assigned)). now rewrite E.
Qed.

(** A known id that is listed and not yet assigned is kept. *)
Lemma claim_keeps (ids : list value) : forall assigned v k,
  In v ids -> key_of v = Some k -> In k (map id tabs) -> ~ In k assigned ->
  In k (fst (Backend.claim tabs assigned ids)).
Proof.
  induction ids as [|v0 ids IH]; cbn [Backend.claim]; intros assigned v k Hin Ek Hk Ha;
    [contradiction|].
  destruct (key_of v0) as [k0|] eqn:E0.
  - destruct (has (tabMap tabs) k0 && negb (mem k0 assigned)) eqn:C.
    + destruct (Backend.claim tabs (k0 :: assigned) ids) as [kept a'] eqn:E.
      cbn [fst]. destruct (Z.eq_dec k0 k) as [->|Hne]; [now left|]. right.
      destruct Hin as [->|Hin]; [congruence|].
      replace kept with (fst (Backend.claim tabs (k0 :: assigned) ids)) by now rewrite E.
      apply (IH _ v k Hin Ek Hk). intros [H|H]; [now apply Hne | now apply Ha].
    + destruct Hin as [->|Hin]; [|now apply (IH _ v)].
      rewrite Ek in E0. injection E0 as <-. exfalso.
      apply andb_false_iff in C as [C|C].
      * apply (proj2 (has_tabMap tabs k)) in Hk. congruence.
      * apply negb_false_iff, mem_In in C. contradiction.
  - destruct Hin as [->|Hin]; [congruence | now apply (IH _ v)].
Qed.

Lemma reviseAll_app (cs1 cs2 : list (value * list value)) : forall assigned,
  Backend.reviseAll localeCompare tabs assigned (cs1 ++ cs2)
  = let '(r1, a1) := Backend.reviseAll localeCompare tabs assigned cs1 in
    let '(r2, a2) := Backend.reviseAll localeCompare tabs a1 cs2 in
    ((r1 ++ r2)%list, a2).
Proof.
  induction cs1 as [|c cs1 IH]; intros assigned; cbn [app Backend.reviseAll].
  - now destruct (Backend.reviseAll localeCompare tabs assigned cs2).
  - destruct (Backend.revise localeCompare tabs assigned c) as [c' a]. rewrite IH.
    destruct (Backend.reviseAll localeCompare tabs a cs1) as [r1 a1].
    now destruct (Backend.reviseAll localeCompare tabs a1 cs2).
Qed.

(** What is assigned after the candidates [cs] was assigned before or
    is listed by one of them. *)
Lemma reviseAll_assigned (cs : list (value * list value)) : forall assigned r a' k,
  Backend.reviseAll localeCompare tabs assigned cs = (r, a') -> In k a' ->
  In k assigned \/ exists x v, In x cs /\ In v (snd x) /\ key_of v = Some k.
Proof.
  induction cs as [|[c ids] cs IH]; cbn [Backend.reviseAll]; intros assigned r a' k H Hk.
  - injection H as _ <-. now left.
  - unfold Backend.revise in H.
    destruct (Backend.claim tabs assigned ids) as [kept a] eqn:Ec.
    destruct (Backend.reviseAll localeCompare tabs a cs) as [r0 a0] eqn:Er.
    injection H as _ <-.
    destruct (IH _ _ _ k Er Hk) as [Ha|(x & v & Hx & Hv & E)].
    + pose proof (claim_spec tabs ids _ _ _ Ec) as (-> & _ & _).
      apply in_app_or in Ha as [Ha|Ha]; [|now left]. right.
      apply in_rev in Ha.
      destruct (claim_from ids assigned k) as (v & Hv & E); [now rewrite Ec|].
      exists (c, ids), v. split; [now left | now split].
    + right. exists x, v. split; [now right | now split].
Qed.
End FirstClaim.

Lemma NoDup_app_apart {A : Type} (l1 l2 : list A) (a : A) :
  NoDup (l1 ++ l2) -> In a l1 -> ~ In a l2.
Proof.
  induction l1 as [|x l1 IH]; cbn; intros H Hin; [contradiction|].
  inversion H as [|? ? Hx Hl]; subst. destruct Hin as [->|Hin]; [|now apply IH].
  intros H2. apply Hx, in_or_app. now right.
Qed.

(** When no element is listed twice, an element is listed by one item
    only. *)
Lemma listed_once {A B : Type} (f : A -> list B) (l : list A) (x y : A) (b : B) :
  NoDup (flat_map f l) -> In x l -> In y l -> In b (f x) -> In b (f y) -> x = y.
Proof.
  induction l as [|a l IH]; cbn [flat_map]; intros Hnd Hx Hy Hbx Hby; [contradiction|].
  assert (Hout : forall z, In z l -> In b (f z) -> ~ In b (f a)).
  { intros z Hz Hbz Hba. apply (NoDup_app_apart _ _ b Hnd Hba).
    apply in_flat_map. now exists z. }
  destruct Hx as [->|Hx], Hy as [->|Hy].
  - reflexivity.
  - now destruct (Hout y Hy Hby).
  - now destruct (Hout x Hx Hbx).
  - apply IH; try assumption. now apply NoDup_app_remove_l in Hnd.
Qed.

(** X21.  An id that several proposed clusters list stays with the
    first of them that the validation takes up: in the result, the only
    cluster that lists the id is that candidate with its [tabIds] and its
    [clusterPriority] set anew.  (The tabs have distinct ids and the id is
    one of them.) *)
Theorem an_id_stays_with_the_first_cluster_that_lists_it
    (URL_hostname : string -> option string) (localeCompare : string -> string -> Z)
    (tabs : list TabAnalysis) (before after : list value) (c : value) (k : Z)
    (out : list value) :
  NoDup (map id tabs) -> In k (map id tabs) ->
  proper c -> In k (ids_of c) ->
  Forall (fun c0 => proper c0 -> ~ In k (ids_of c0)) before ->
  Backend.validateAndSortClusters URL_hostname localeCompare
    (VArr (before ++ c :: after)) tabs = Ok out ->
  exists ks p,
    In k ks
    /\ In (JS.set (JS.set c "tabIds" (VArr (map VInt ks))) "clusterPriority" p) out
    /\ forall c', In c' out -> In k (ids_of c') ->
                  c' = JS.set (JS.set c "tabIds" (VArr (map VInt ks))) "clusterPriority" p.
Proof.
  intros Hnd Hk Hc Hkc Hbefore H.
  pose proof (validate_ids URL_hostname localeCompare tabs _ _ Hnd H) as [Hperm _].
  rewrite validate_array in H.
  destruct (Backend.candidates (before ++ c :: after)) as [cs|] eqn:Ecs; cbn in H;
    [|discriminate].
  apply candidates_app in Ecs as (cs1 & cs' & E1 & E2 & ->).
  cbn [Backend.candidates] in E2.
  apply proper_candidate in Hc as (ids & Ec). rewrite Ec in E2. cbn in E2.
  destruct (Backend.candidates after) as [cs2|]; cbn in E2; [|discriminate].
  injection E2 as <-.
  destruct (candidate_ids _ _ _ Ec) as [_ Hids].
  rewrite reviseAll_app in H.
  destruct (Backend.reviseAll localeCompare tabs [] cs1) as [r1 a1] eqn:Er1.
  cbn [Backend.reviseAll] in H.
  apply candidate_inv in Ec as (_ & ps & n & -> & Hn & Ht & _).
  destruct (revise_spec localeCompare tabs ps n ids a1 Hn Ht) as [Erev Hs].
  rewrite Erev in H.
  set (kept := fst (Backend.claim tabs a1 ids)) in *.
  set (ks := sort (fun a b => Backend.compareIds localeCompare tabs a b <=? 0) kept) in *.
  set (c' := VObj (JS.update "clusterPriority" (revisedPriority tabs ks)
                     (JS.update "tabIds" (VArr (map VInt ks)) ps))) in *.
  destruct (Backend.reviseAll localeCompare tabs (rev kept ++ a1) cs2) as [r2 a2].
  injection H as <-.
  assert (Ha1 : ~ In k a1).
  { intros Ha. destruct (reviseAll_assigned localeCompare tabs cs1 [] r1 a1 k Er1 Ha)
      as [[]|(x & v & Hx & Hv & Ev)].
    destruct (candidates_ids before cs1 x E1 Hx) as (Hin & Hp & Hsnd).
    rewrite Forall_forall in Hbefore. apply (Hbefore _ Hin Hp).
    unfold ids_of. apply in_flat_map. exists v. rewrite <- Hsnd. split; [exact Hv|].
    rewrite Ev. now left. }
  assert (Hkept : In k ks).
  { apply sort_In. unfold ids_of in Hkc. apply in_flat_map in Hkc as (v & Hv & Ev).
    rewrite Hids in Hv. destruct (key_of v) as [k0|] eqn:E0; [|contradiction].
    destruct Ev as [->|[]]. now apply (claim_keeps tabs ids a1 v). }
  assert (Hin : In c' (sort priority_le
                          (filter (fun c => negb (is_nil (tabIds_of c))) (r1 ++ c' :: r2)
                             ++ otherCluster localeCompare tabs a2)%list)).
  { apply sort_In, in_or_app. left. apply filter_In. split.
    - apply in_or_app. right. now left.
    - rewrite (shaped_tabIds_of _ _ _ Hs). now destruct ks. }
  exists ks, (revisedPriority tabs ks). split; [exact Hkept|]. split; [exact Hin|].
  intros c'' Hc'' Hk''.
  assert (Honce : NoDup (flat_map ids_of
                           (sort priority_le
                              (filter (fun c => negb (is_nil (tabIds_of c))) (r1 ++ c' :: r2)
                                 ++ otherCluster localeCompare tabs a2)%list)))
    by exact (Permutation_NoDup (Permutation_sym Hperm) Hnd).
  apply (listed_once ids_of _ c'' c' k Honce Hc'' Hin Hk'').
  now rewrite (shaped_ids_of _ _ _ Hs).
Qed.

Lemma the_first_sample_cluster_keeps_tab_1 :
  exists out,
    Backend.validateAndSortClusters Platform.hostname Platform.localeCompare
      (VArr Sample.candidates) Sample.threeTabs = Ok out
    /\ exists ks p,
         In 1 ks
         /\ In (JS.set (JS.set (VObj [("name", VStr "N");
                                      ("tabIds", VArr [VInt 1; VInt 2; VInt 9; VStr "3"; VInt 2])])
                          "tabIds" (VArr (map VInt ks))) "clusterPriority" p) out.
Proof.
  assert (Hv : exists out,
             Backend.validateAndSortClusters Platform.hostname Platform.localeCompare
               (VArr ([] ++ hd VNull Sample.candidates :: tl Sample.candidates))
               Sample.threeTabs = Ok out)
    by (eexists; reflexivity).
  destruct Hv as (out & Hv). exists out. split; [exact Hv|].
  assert (Hnd : NoDup (map id Sample.threeTabs)) by distinct_ids.
  assert (Hk : In 1 (map id Sample.threeTabs)) by now left.
  assert (Hc : proper (hd VNull Sample.candidates)).
  { eexists _, _. split; [reflexivity|]. split; reflexivity. }
  assert (Hl : In 1 (ids_of (hd VNull Sample.candidates))) by now left.
  destruct (an_id_stays_with_the_first_cluster_that_lists_it
              Platform.hostname Platform.localeCompare Sample.threeTabs []
              (tl Sample.candidates) (hd VNull Sample.candidates) 1 out
              Hnd Hk Hc Hl (Forall_nil _) Hv) as (ks & p & H1 & H2 & _).
  now exists ks, p.
Defined.

(** ** The two copies of the fallback *)

Lemma fold_left_agree {A B : Type} (f g : A -> B -> A) (l : list B) : forall a,
  (forall a b, In b l -> f a b = g a b) ->
  fold_left f l a = fold_left g l a.
Proof.
  induction l as [|b l IH]; intros a H; [reflexivity|].
  cbn [fold_left]. rewrite (H a b) by now left.
  apply IH. intros a' b' Hb. apply H. now right.
Qed.

Lemma place_copies (URL_hostname : string -> option string) (m : SMap.t Cluster)
    (tab : TabAnalysis) :
  plainHost URL_hostname tab ->
  Extension.place URL_hostname m tab = Backend.place URL_hostname m tab.
Proof.
  intros (hostname & E & Hk). unfold Extension.place, Backend.place. rewrite E.
  cbn zeta. destruct (Str.split_head "." (Str.replace "www." EmptyString hostname));
    [contradiction | reflexivity].
Qed.

(** X22.  The extension's fallback and the backend's fallback give the
    same clusters, in the same order, for every batch in which each URL
    parses and the first label of each host name is not empty. *)
Theorem the_fallbacks_agree_on_plain_hosts
    (URL_hostname : string -> option string) (tabs : list TabAnalysis) :
  Forall (plainHost URL_hostname) tabs ->
  Extension.fallbackClustering URL_hostname tabs
  = Backend.fallbackClustering URL_hostname tabs.
Proof.
  intros H. unfold Extension.fallbackClustering, Backend.fallbackClustering.
  rewrite (fold_left_agree (Extension.place URL_hostname) (Backend.place URL_hostname));
    [reflexivity|].
  intros m tab Hin. apply place_copies. rewrite Forall_forall in H. now apply H.
Qed.

Lemma the_fallbacks_agree_on_the_sample :
  Forall (plainHost Platform.hostname) Sample.threeTabs
  /\ Extension.fallbackClustering Platform.hostname Sample.threeTabs
     = Backend.fallbackClustering Platform.hostname Sample.threeTabs.
Proof.
  assert (H : Forall (plainHost Platform.hostname) Sample.threeTabs).
  { repeat constructor; eexists; (split; [reflexivity | discriminate]). }
  split; [exact H | exact (the_fallbacks_agree_on_plain_hosts _ _ H)].
Defined.

(** ** Asking whether the user is signed in *)

(** What [getAuthToken] gives is the token of the session afterwards,
    and the storage is as before. *)
Lemma getAuthToken_spec (s s0 : BackendAPI.session) (t : value) :
  BackendAPI.getAuthToken s = (t, s0) ->
  BackendAPI.token s0 = t /\ BackendAPI.store s0 = BackendAPI.store s.
Proof.
  unfold BackendAPI.getAuthToken. destruct (negb _); intros H; injection H as <- <-;
    now split.
Qed.

(** X23.  With a token at hand, [isAuthenticated] sends one request for
    the profile, with the token, and says yes exactly when the answer
    has a status from 200 to 299 and a body that is JSON; that body is
    then the cached profile.  Unless the answer has the status 401, the
    token stays in the session and in the storage, also when the request
    fails and the user is told to sign in. *)
Theorem isAuthenticated_follows_the_profile_request
    (fetch : Request.t -> fetched) (JSON_stringify toString : value -> string)
    (s : BackendAPI.session) (t : value) :
  fst (BackendAPI.getAuthToken s) = t -> JS.truthy t = true ->
  exists b s',
    BackendAPI.isAuthenticated fetch JSON_stringify toString s
    = (b, s', [profileRequest toString t])
    /\ (b = true <-> exists status profile,
                       fetch (profileRequest toString t) = Response status (Ok profile)
                       /\ successful status)
    /\ (forall status profile,
          fetch (profileRequest toString t) = Response status (Ok profile) ->
          successful status -> BackendAPI.getCachedProfile s' = profile)
    /\ ((forall json, fetch (profileRequest toString t) <> Response 401 json) ->
        BackendAPI.token s' = t
        /\ Storage.get "authToken" (BackendAPI.store s')
           = Storage.get "authToken" (BackendAPI.store s)).
Proof.
  intros Hg Ht. unfold BackendAPI.isAuthenticated.
  destruct (BackendAPI.getAuthToken s) as [t0 s0] eqn:E0. cbn [fst] in Hg. subst t0.
  destruct (getAuthToken_spec _ _ _ E0) as [Htok Hstore].
  assert (E1 : BackendAPI.getAuthToken s0 = (t, s0)).
  { unfold BackendAPI.getAuthToken. now rewrite Htok, Ht. }
  rewrite Ht. cbn [negb]. unfold BackendAPI.getProfile, BackendAPI.makeRequest.
  rewrite E1, Ht.
  change {| Request.url := (BackendAPI.baseUrl ++ "/auth/profile")%string;
            Request.method := match Options.method Options.none with
                              | Some m => m
                              | None => "GET"
                              end;
            Request.headers := [("Content-Type", "application/json");
                                ("Authorization", ("Bearer " ++ toString t)%string)];
            Request.body := option_map (fun o => JSON_stringify (VObj o))
                              (Options.body Options.none) |}
    with (profileRequest toString t).
  destruct (fetch (profileRequest toString t)) as [message|status json] eqn:Ef.
  - exists false, s0. split; [reflexivity|]. split; [|split].
    + split; [discriminate|]. intros (st & p & H & _). discriminate.
    + intros st p H. discriminate.
    + intros _. now rewrite Hstore.
  - destruct (Z.eqb_spec status 401) as [->|Hne].
    + exists false, (BackendAPI.clearAuth s0). split; [reflexivity|]. split; [|split].
      * split; [discriminate|]. intros (st & p & H & Hs). injection H as <- _.
        unfold successful in Hs. lia.
      * intros st p H Hs. injection H as <- _. unfold successful in Hs. lia.
      * intros H. now destruct (H json).
    + destruct ((200 <=? status) && (status <=? 299)) eqn:Eok; cbn [negb].
      * assert (Hs : successful status).
        { apply andb_prop in Eok as [H1 H2]. unfold successful. lia. }
        destruct json as [profile|message].
        -- eexists true, _. split; [reflexivity|]. split; [|split].
           ++ split; [|reflexivity]. intros _. now exists status, profile.
           ++ intros st p H _. injection H as _ <-.
              unfold BackendAPI.getCachedProfile, Storage.get, Storage.set.
              cbn [BackendAPI.store]. now rewrite lookup_update_same.
           ++ intros _. cbn [BackendAPI.token BackendAPI.store]. split; [exact Htok|].
              unfold Storage.get, Storage.set.
              rewrite lookup_update_other by discriminate. now rewrite Hstore.
        -- exists false, s0. split; [reflexivity|]. split; [|split].
           ++ split; [discriminate|]. intros (st & p & H & _). discriminate.
           ++ intros st p H. discriminate.
           ++ intros _. now rewrite Hstore.
      * assert (Hs : ~ successful status).
        { unfold successful. apply andb_false_iff in Eok as [H|H]; lia. }
        destruct (bind (JS.get (try_catch json
                                  (fun _ => VObj [("error", VStr "Request failed")]))
                               "error") _) as [x|message] eqn:Eb.
        -- exfalso. destruct (JS.get _ "error"); cbn in Eb; discriminate.
        -- exists false, s0. split; [reflexivity|]. split; [|split].
           ++ split; [discriminate|]. intros (st & p & H & Hs'). injection H as <- _.
              contradiction.
           ++ intros st p H Hs'. injection H as <- _. contradiction.
           ++ intros _. now rewrite Hstore.
Qed.

Lemma a_server_error_reads_as_signed_out :
  fst (BackendAPI.getAuthToken ClientSample.session) = VStr "old"
  /\ JS.truthy (VStr "old") = true
  /\ exists s',
       BackendAPI.isAuthenticated (fun _ => Response 503 (Throw "no body"))
         (fun _ => "{}") ClientSample.toString ClientSample.session
       = (false, s', [profileRequest ClientSample.toString (VStr "old")])
       /\ BackendAPI.token s' = VStr "old".
Proof.
  split; [reflexivity|]. split; [reflexivity|].
  destruct (isAuthenticated_follows_the_profile_request
              (fun _ => Response 503 (Throw "no body")) (fun _ => "{}")
              ClientSample.toString ClientSample.session (VStr "old") eq_refl eq_refl)
    as (b & s' & E & Hb & _ & Hkeep).
  exists s'. destruct b.
  - destruct (proj1 Hb eq_refl) as (status & profile & H & _). discriminate H.
  - split; [exact E|]. apply Hkeep. intros json H. discriminate H.
Defined.
